(** * EIA renewable dashboard: retrieval pipeline and polygon analytics

    A shallow embedding of the parts of the Python sources that carry
    algorithmic content:

    - [eia_client/client.py]: [_handle_response], [_request], [get_data],
      [get_all_data];
    - [eia_client/utils/pagination.py]: [paginate];
    - [eia_client/models/renewable.py]: [FuelTypeData.from_dict],
      [GeneratorCapacity.from_dict];
    - [backend/main.py]: [get_generators_in_bounds] (its filter),
      [get_polygon_analytics] and the nested [point_in_polygon].

    Conventions.  Python [int] is [Z].  In the record mappers a Python
    [float] is kept as the rational value it has (plus [inf] and [nan]):
    [float()] rounds a numeral or an [int] to the nearest double, while
    arithmetic on these values is exact.  The polygon code is read twice: in exact arithmetic, and in [Backend] on
    Python's own numbers, where an [int] is unbounded and a [float] is an
    IEEE 754 double.  Python [str] is [string], a sequence of code points
    below 256.  A raised exception is the [Raise] branch of [result];
    effects (requests issued, seconds slept) are threaded explicitly as a
    trace. *)

From Stdlib Require Import Floats.
From Stdlib Require Import ZArith QArith String Ascii List Bool Lia Lqa.
From stdpp Require Import base option list gmap strings pretty.

#[local] Set Warnings "-register-all".
#[local] Set Warnings "-inexact-float".
#[local] Open Scope string_scope.
#[local] Open Scope list_scope.
#[local] Open Scope Z_scope.

(** ** Python values and exceptions *)

(** Floats: the rational value of a finite double, kept in lowest terms,
    so that [0.0] and [-0.0] are the single value [PFin 0]; the infinities;
    and NaN. *)
Inductive pyfloat :=
| PFin (q : Q)
| PInf (negative : bool)
| PNan.

(** The JSON-shaped values the client handles ([Dict[str, Any]]). *)
Inductive pyval :=
| PyNone
| PyBool (b : bool)
| PyInt (z : Z)
| PyFloat (f : pyfloat)
| PyStr (s : string)
| PyList (l : list pyval)
| PyDict (m : gmap string pyval).

(** The exception classes of [eia_client/exceptions.py], the transport's
    [requests.RequestException], the [requests.exceptions.JSONDecodeError]
    of [response.json()], and the builtin ones the modelled code can
    raise.  Messages are dropped; [EIARequestError] keeps [status_code]. *)
Inductive exn :=
| EIAAuthenticationError
| EIARateLimitError
| EIADataNotFoundError
| EIARequestError (status_code : option Z)
| JSONDecodeError
| ValueError
| TypeError
| KeyError
| IndexError
| AttributeError
| OverflowError
| ZeroDivisionError.

Inductive result (A : Type) :=
| Ok (a : A)
| Raise (e : exn).
Arguments Ok {A} a.
Arguments Raise {A} e.

(** Sequencing: an exception propagates.  With these instances stdpp's
    [x ← r; k] reads as Python's statement order. *)
#[export] Instance result_bind : MBind result := fun A B k r =>
  match r with
  | Ok a => k a
  | Raise e => Raise e
  end.
#[export] Instance result_ret : MRet result := fun A a => Ok a.

Definition is_ok {A} (r : result A) : bool :=
  match r with Ok _ => true | Raise _ => false end.

(** Python truthiness ([bool(v)], as used by [if v:], [v or d], [not v]). *)
Definition float_truthy (f : pyfloat) : bool :=
  match f with
  | PFin q => negb (Qeq_bool q 0)
  | PInf _ | PNan => true
  end.

Definition truthy (v : pyval) : bool :=
  match v with
  | PyNone => false
  | PyBool b => b
  | PyInt z => negb (z =? 0)
  | PyFloat f => float_truthy f
  | PyStr s => negb (String.eqb s "")
  | PyList l => match l with [] => false | _ => true end
  | PyDict m => negb (bool_decide (m = ∅))
  end.

(** [a or b] *)
Definition py_or (a b : pyval) : pyval := if truthy a then a else b.

(** [d.get(k, default)] on a dict. *)
Definition dict_get (d : gmap string pyval) (k : string) (default : pyval) : pyval :=
  match d !! k with
  | Some v => v
  | None => default
  end.

(** [v.get(k, default)] on an arbitrary value: only dicts have [get]. *)
Definition py_get (v : pyval) (k : string) (default : pyval) : result pyval :=
  match v with
  | PyDict m => Ok (dict_get m k default)
  | _ => Raise AttributeError
  end.

(** [range(n)] *)
Definition py_range (n : Z) : list Z := seqZ 0 n.

(** ** Configuration ([eia_client/config.py]) *)

Record EIAConfig := {
  api_key : string;
  base_url : string;
  timeout : Z;
  max_retries : Z;
  page_size : Z
}.

(** [EIAConfig(api_key=k)]: the dataclass defaults. *)
Definition EIAConfig_default (k : string) : EIAConfig :=
  {| api_key := k;
     base_url := "https://api.eia.gov/v2";
     timeout := 30;
     max_retries := 3;
     page_size := 5000 |}.

(** A client configured with pages of 100 records. *)
Definition small_page_config : EIAConfig :=
  {| api_key := "key"; base_url := "https://api.eia.gov/v2";
     timeout := 30; max_retries := 3; page_size := 100 |}.

(** ** Retry and backoff ([EIAClient._handle_response], [EIAClient._request]) *)

(** What one call of [self._session.request(...)] does: it returns a
    response whose body decodes to the JSON value [body]; or it returns a
    response whose body is not JSON, on which [response.json()] raises
    [requests.exceptions.JSONDecodeError]; or it raises a
    [requests.RequestException]. *)
Inductive attempt_outcome :=
| HttpResponse (status_code : Z) (body : pyval)
| InvalidJSONResponse (status_code : Z)
| RequestException.

(** Observable effects of [_request], in program order. *)
Inductive event :=
| EvRequest (attempt : Z)
| EvSleep (seconds : Z).

(** [_handle_response], on a response whose body decodes to [body]. *)
Definition _handle_response (status_code : Z) (body : pyval) : result pyval :=
  if status_code =? 401 then Raise EIAAuthenticationError
  else if status_code =? 429 then Raise EIARateLimitError
  else if status_code =? 404 then Raise EIADataNotFoundError
  else if status_code >=? 400 then Raise (EIARequestError (Some status_code))
  else Ok body.

(** [_handle_response], on a response whose body is not JSON.  The status
    checks come first.  From 400 up, the error of [response.json()] is
    caught as a [ValueError] and [EIARequestError] is raised all the same;
    below 400 the final [return response.json()] raises it. *)
Definition _handle_response_invalid_json (status_code : Z) : result pyval :=
  if status_code =? 401 then Raise EIAAuthenticationError
  else if status_code =? 429 then Raise EIARateLimitError
  else if status_code =? 404 then Raise EIADataNotFoundError
  else if status_code >=? 400 then Raise (EIARequestError (Some status_code))
  else Raise JSONDecodeError.

(** The body of [for attempt in range(max_retries)], over the attempts still
    to run.  [send attempt] is the outcome of the transport call made by
    that attempt.  Both the transport call and [_handle_response] run
    inside the [try]: the JSON error of a body that is not JSON is a
    [requests.RequestException] (requests 2.28 and later, as [setup.py]
    requires), so the second handler answers it like a failed transport
    call.  Falling off the end of the loop is Python's implicit
    [return None]. *)
Fixpoint _request_loop (send : Z -> attempt_outcome) (max_retries : Z)
    (attempts : list Z) (tr : list event) : result pyval * list event :=
  match attempts with
  | [] => (Ok PyNone, tr)
  | attempt :: rest =>
      let tr := tr ++ [EvRequest attempt] in
      match send attempt with
      | HttpResponse status_code body =>
          match _handle_response status_code body with
          | Raise EIARateLimitError =>
              if attempt <? max_retries - 1
              then _request_loop send max_retries rest (tr ++ [EvSleep (2 ^ attempt)])
              else (Raise EIARateLimitError, tr)
          | r => (r, tr)
          end
      | InvalidJSONResponse status_code =>
          match _handle_response_invalid_json status_code with
          | Raise EIARateLimitError =>
              if attempt <? max_retries - 1
              then _request_loop send max_retries rest (tr ++ [EvSleep (2 ^ attempt)])
              else (Raise EIARateLimitError, tr)
          | Raise JSONDecodeError =>
              if attempt <? max_retries - 1
              then _request_loop send max_retries rest (tr ++ [EvSleep 1])
              else (Raise (EIARequestError None), tr)
          | r => (r, tr)
          end
      | RequestException =>
          if attempt <? max_retries - 1
          then _request_loop send max_retries rest (tr ++ [EvSleep 1])
          else (Raise (EIARequestError None), tr)
      end
  end.

Definition _request (cfg : EIAConfig) (send : Z -> attempt_outcome)
    : result pyval * list event :=
  _request_loop send (max_retries cfg) (py_range (max_retries cfg)) [].

(** Total seconds slept in a trace. *)
Definition total_sleep (tr : list event) : Z :=
  foldr (fun e acc => match e with EvSleep s => s + acc | EvRequest _ => acc end) 0 tr.

(** Number of transport calls in a trace. *)
Definition request_count (tr : list event) : nat :=
  length (List.filter (fun e => match e with EvRequest _ => true | EvSleep _ => false end) tr).

(** Outcomes that the loop answers by sleeping and trying again (when
    attempts remain), and the seconds it sleeps. *)
Definition retried (o : attempt_outcome) : bool :=
  match o with
  | HttpResponse status_code _ => status_code =? 429
  | InvalidJSONResponse status_code => (status_code =? 429) || (status_code <? 400)
  | RequestException => true
  end.

Definition backoff (o : attempt_outcome) (attempt : Z) : Z :=
  match o with
  | HttpResponse _ _ => 2 ^ attempt
  | InvalidJSONResponse status_code => if status_code =? 429 then 2 ^ attempt else 1
  | RequestException => 1
  end.

(** The events of [k] consecutive retried attempts starting at attempt [a]. *)
Definition retry_trace (send : Z -> attempt_outcome) (a : Z) (k : nat) : list event :=
  flat_map (fun i => [EvRequest i; EvSleep (backoff (send i) i)]) (seqZ a (Z.of_nat k)).

(** ** Query construction ([EIAClient.get_data]) *)

(** A value of a query pair: the strings the caller passes through and the
    integers [length] and [offset]. *)
Inductive qvalue :=
| QStr (s : string)
| QInt (z : Z).

(** The filter arguments shared by [get_data] and [get_all_data].  [facets]
    is a dict iterated in insertion order, hence an association list; each
    entry of [sort] is a dict read by key. *)
Record query := {
  route : string;
  data_columns : option (list string);
  facets : option (list (string * list string));
  frequency : option string;
  start : option string;
  end_ : option string;
  sort : option (list (gmap string string))
}.

(** [if s:] on an [Optional[str]]. *)
Definition str_truthy (s : option string) : option string :=
  match s with
  | Some s => if String.eqb s "" then None else Some s
  | None => None
  end.

(** The pairs of one facet: [(f"facets[{facet_name}][]", value)] per value. *)
Definition facet_pairs (facet : string * list string) : list (string * qvalue) :=
  map (fun value => ("facets[" +:+ facet.1 +:+ "][]", QStr value)) facet.2.

(** The two pairs of sort entry [i]; [s["column"]] raises [KeyError] when
    the key is missing, [s.get("direction", "desc")] does not. *)
Definition sort_pairs (i : nat) (s : gmap string string) : result (list (string * qvalue)) :=
  match s !! "column" with
  | None => Raise KeyError
  | Some column =>
      Ok [("sort[" +:+ pretty i +:+ "][column]", QStr column);
          ("sort[" +:+ pretty i +:+ "][direction]", QStr (default "desc" (s !! "direction")))]
  end.

(** [for i, s in enumerate(sort)], from index [i] on. *)
Fixpoint sort_params (i : nat) (sort : list (gmap string string))
    : result (list (string * qvalue)) :=
  match sort with
  | [] => Ok []
  | s :: rest =>
      ps ← sort_pairs i s;
      qs ← sort_params (S i) rest;
      Ok (ps ++ qs)
  end.

Definition columns_part (q : query) : list (string * qvalue) :=
  map (fun col => ("data[]", QStr col)) (default [] (data_columns q)).

Definition facets_part (q : query) : list (string * qvalue) :=
  flat_map facet_pairs (default [] (facets q)).

Definition option_pair (k : string) (s : option string) : list (string * qvalue) :=
  match str_truthy s with
  | Some s => [(k, QStr s)]
  | None => []
  end.

Definition period_part (q : query) : list (string * qvalue) :=
  option_pair "frequency" (frequency q) ++ option_pair "start" (start q)
    ++ option_pair "end" (end_ q).

Definition sort_part (q : query) : result (list (string * qvalue)) :=
  sort_params 0 (default [] (sort q)).

(** [if length: params.append(("length", min(length, self._config.page_size)))]
    and [if offset: params.append(("offset", offset))]. *)
Definition length_part (cfg : EIAConfig) (length : option Z) : list (string * qvalue) :=
  match length with
  | Some l => if l =? 0 then [] else [("length", QInt (Z.min l (page_size cfg)))]
  | None => []
  end.

Definition offset_part (offset : Z) : list (string * qvalue) :=
  if offset =? 0 then [] else [("offset", QInt offset)].

(** The list [params] that [get_data] hands to [_request], in the order of
    its [append] calls. *)
Definition get_data_params (cfg : EIAConfig) (q : query) (length : option Z) (offset : Z)
    : result (list (string * qvalue)) :=
  sorted ← sort_part q;
  Ok ([("api_key", QStr (api_key cfg))]
        ++ columns_part q
        ++ facets_part q
        ++ period_part q
        ++ sorted
        ++ length_part cfg length
        ++ offset_part offset).

(** [s.startswith(pre)] and [s.endswith(suffix)] *)
Fixpoint startswith (s pre : string) {struct pre} : bool :=
  match pre with
  | EmptyString => true
  | String a pre' =>
      match s with
      | EmptyString => false
      | String b s' => Ascii.eqb a b && startswith s' pre'
      end
  end.

Definition endswith (s suffix : string) : bool :=
  startswith (String.rev s) (String.rev suffix).

Definition get_data_endpoint (route : string) : string :=
  if negb (endswith route "/data") then route +:+ "/data" else route.

(** The transport seen from [get_data]: the outcome of each attempt, given
    the endpoint and the query pairs. *)
Definition transport := string -> list (string * qvalue) -> Z -> attempt_outcome.

Definition get_data (cfg : EIAConfig) (tp : transport) (q : query)
    (length : option Z) (offset : Z) : result pyval * list event :=
  match get_data_params cfg q length offset with
  | Raise e => (Raise e, [])
  | Ok params => _request cfg (tp (get_data_endpoint (route q)) params)
  end.

(** All values sent under key [k], in order. *)
Definition lookup_param (k : string) (params : list (string * qvalue)) : list qvalue :=
  map snd (List.filter (fun p => String.eqb p.1 k) params).

Definition param_int (k : string) (params : list (string * qvalue)) (default : Z) : Z :=
  match lookup_param k params with
  | QInt z :: _ => z
  | _ => default
  end.

(** The kinds of key on the wire: facet pairs, sort pairs, and the scalar
    parameters (frequency and date range, pagination). *)
Definition is_facet_key (k : string) : bool := startswith k "facets[".
Definition is_sort_key (k : string) : bool := startswith k "sort[".
Definition is_period_key (k : string) : bool :=
  String.eqb k "frequency" || String.eqb k "start" || String.eqb k "end".
Definition is_paging_key (k : string) : bool :=
  String.eqb k "length" || String.eqb k "offset".
Definition is_scalar_key (k : string) : bool := is_period_key k || is_paging_key k.

(** The position of a key in the order in which [get_data] appends its
    pairs: 0 the API key, 1 projected columns, 2 facets, 3 the period
    scalars ([frequency], [start], [end]), 4 sort entries, 5 the paging
    scalars ([length], [offset]). *)
Definition stage (k : string) : nat :=
  if is_facet_key k then 2
  else if is_sort_key k then 4
  else if is_period_key k then 3
  else if is_paging_key k then 5
  else if String.eqb k "data[]" then 1
  else if String.eqb k "api_key" then 0
  else 6.

(** [nondecreasing l]: every element is at most each later one. *)
Fixpoint nondecreasing (l : list nat) : bool :=
  match l with
  | [] => true
  | x :: rest => forallb (Nat.leb x) rest && nondecreasing rest
  end.

(** [all_before P Q params]: no pair whose key satisfies [P] comes after a
    pair whose key satisfies [Q]. *)
Fixpoint all_before (P Q : string -> bool) (params : list (string * qvalue)) : bool :=
  match params with
  | [] => true
  | p :: rest =>
      (negb (Q p.1) || forallb (fun r => negb (P r.1)) rest) && all_before P Q rest
  end.

(** The stage of a pair is that of its key. *)
Definition stage_of (p : string * qvalue) : nat := stage p.1.

(** A query that filters by state, asks for monthly data and sorts by
    period: the running example of the query-construction results. *)
Definition example_query : query :=
  {| route := "electricity/operating-generator-capacity";
     data_columns := Some ["nameplate-capacity-mw"];
     facets := Some [("stateid", ["CA"; "TX"])];
     frequency := Some "monthly";
     start := Some "2023-01";
     end_ := None;
     sort := Some [ {[ "column" := "period" ]} ] |}.

(** The order the specification asks of the emitted pairs: facets before
    sort, and the scalar parameters after both. *)
Definition facets_sort_scalars_order (params : list (string * qvalue)) : bool :=
  all_before is_facet_key is_sort_key params
  && all_before is_facet_key is_scalar_key params
  && all_before is_sort_key is_scalar_key params.

(** ** Pagination ([paginate], [EIAClient.get_all_data]) *)

(** [len(v)] *)
Definition py_len (v : pyval) : result Z :=
  match v with
  | PyStr s => Ok (Z.of_nat (String.length s))
  | PyList l => Ok (Z.of_nat (length l))
  | PyDict m => Ok (Z.of_nat (size m))
  | _ => Raise TypeError
  end.

(** The items of [for item in v]: a list's elements, a string's characters,
    a dict's keys (in the map's key order; JSON arrays are the case the API
    produces). *)
Definition py_iter (v : pyval) : result (list pyval) :=
  match v with
  | PyList l => Ok l
  | PyStr s => Ok (map (fun c => PyStr (String c EmptyString)) (list_ascii_of_string s))
  | PyDict m => Ok (map (fun kv => PyStr kv.1) (map_to_list m))
  | _ => Raise TypeError
  end.

(** [z < v] for an int [z]: defined against numbers only. *)
Definition py_int_lt (z : Z) (v : pyval) : result bool :=
  match v with
  | PyInt n => Ok (z <? n)
  | PyBool b => Ok (z <? (if b then 1 else 0))
  | PyFloat (PFin q) => Ok (negb (Qle_bool q (inject_Z z)))
  | PyFloat (PInf negative) => Ok (negb negative)
  | PyFloat PNan => Ok false
  | _ => Raise TypeError
  end.

(** [max_records and total_fetched >= max_records] *)
Definition cap_reached (max_records : option Z) (total_fetched : Z) : bool :=
  match max_records with
  | Some m => negb (m =? 0) && (m <=? total_fetched)
  | None => false
  end.

(** The inner [for] loop shared by both functions: yield each record, count
    it, and [return] from the generator as soon as the cap is reached.  The
    result is the records yielded, the new count, and whether the generator
    returned. *)
Fixpoint yield_page (max_records : option Z) (total_fetched : Z) (data : list pyval)
    : list pyval * Z * bool :=
  match data with
  | [] => ([], total_fetched, false)
  | record :: rest =>
      let total_fetched := total_fetched + 1 in
      if cap_reached max_records total_fetched then ([record], total_fetched, true)
      else
        let '(ys, t, returned) := yield_page max_records total_fetched rest in
        (record :: ys, t, returned)
  end.

(** A generator run to exhaustion: what it yielded, how it ended (normally
    or with an exception), and the page requests it issued, in order: one
    [(offset, limit)] per call of [fetch_func] or [get_data]. *)
Record fetch_run (R : Type) := {
  yielded : list pyval;
  finished : result unit;
  page_requests : list R
}.
Arguments yielded {R} _.
Arguments finished {R} _.
Arguments page_requests {R} _.

(** [models/base.py]: the typed page wrapper and its [has_more] property. *)
Record PaginatedResponse := {
  pr_data : list pyval;
  pr_total : Z;
  pr_offset : Z;
  pr_page_size : Z
}.

Definition has_more (r : PaginatedResponse) : bool :=
  pr_offset r + Z.of_nat (length (pr_data r)) <? pr_total r.

(** What [fetch_func] may return: an object with a [data] attribute, or a
    raw response. *)
Inductive fetch_response :=
| Paginated (r : PaginatedResponse)
| RawResponse (v : pyval).

(** One evaluation of the body of [while True] up to the page being known:
    [data] as it will be iterated, its length, and [has_more]. *)
Definition paginate_page (response : fetch_response) (offset : Z)
    : result (pyval * bool) :=
  match response with
  | Paginated r => Ok (PyList (pr_data r), has_more r)
  | RawResponse v =>
      resp ← py_get v "response" (PyDict ∅);
      data ← py_get resp "data" (PyList []);
      resp ← py_get v "response" (PyDict ∅);
      total ← py_get resp "total" (PyInt 0);
      n ← py_len data;
      more ← py_int_lt (offset + n) total;
      Ok (data, more)
  end.

Definition stop {R} (ys : list pyval) (r : result unit) (log : list R) : option (fetch_run R) :=
  Some {| yielded := ys; finished := r; page_requests := log |}.

(** [paginate]: [fuel] bounds the iterations of [while True]; [None] means
    the bound was hit before the loop ended. *)
Fixpoint paginate_loop (fuel : nat) (fetch_func : Z -> Z -> result fetch_response)
    (page_size : Z) (max_records : option Z)
    (offset total_fetched : Z) (ys : list pyval) (log : list (Z * Z))
    : option (fetch_run (Z * Z)) :=
  match fuel with
  | O => None
  | S fuel =>
      let log := log ++ [(offset, page_size)] in
      match response ← fetch_func offset page_size; paginate_page response offset with
      | Raise e => stop ys (Raise e) log
      | Ok (data, more) =>
          if negb (truthy data) then stop ys (Ok ()) log
          else
            match py_iter data, py_len data with
            | Raise e, _ => stop ys (Raise e) log
            | Ok items, n =>
                let '(new, total_fetched, returned) := yield_page max_records total_fetched items in
                let ys := ys ++ new in
                if returned then stop ys (Ok ()) log
                else
                  match n with
                  | Raise e => stop ys (Raise e) log
                  | Ok n =>
                      if negb more || (n <? page_size) then stop ys (Ok ()) log
                      else paginate_loop fuel fetch_func page_size max_records
                             (offset + n) total_fetched ys log
                  end
            end
      end
  end.

Definition paginate (fuel : nat) (fetch_func : Z -> Z -> result fetch_response)
    (page_size : Z) (max_records : option Z) : option (fetch_run (Z * Z)) :=
  paginate_loop fuel fetch_func page_size max_records 0 0 [] [].

(** [get_all_data]: the same loop over [get_data], with the configured page
    size as [length]. *)
Fixpoint get_all_data_loop (fuel : nat) (cfg : EIAConfig) (tp : transport) (q : query)
    (max_records : option Z)
    (offset total_fetched : Z) (ys : list pyval) (log : list (Z * Z))
    : option (fetch_run (Z * Z)) :=
  match fuel with
  | O => None
  | S fuel =>
      let log := log ++ [(offset, page_size cfg)] in
      match
        response ← (get_data cfg tp q (Some (page_size cfg)) offset).1;
        resp ← py_get response "response" (PyDict ∅);
        py_get resp "data" (PyList [])
      with
      | Raise e => stop ys (Raise e) log
      | Ok data =>
          if negb (truthy data) then stop ys (Ok ()) log
          else
            match py_iter data, py_len data with
            | Raise e, _ => stop ys (Raise e) log
            | Ok items, n =>
                let '(new, total_fetched, returned) := yield_page max_records total_fetched items in
                let ys := ys ++ new in
                if returned then stop ys (Ok ()) log
                else
                  match n with
                  | Raise e => stop ys (Raise e) log
                  | Ok n =>
                      if n <? page_size cfg then stop ys (Ok ()) log
                      else get_all_data_loop fuel cfg tp q max_records
                             (offset + n) total_fetched ys log
                  end
            end
      end
  end.

Definition get_all_data (fuel : nat) (cfg : EIAConfig) (tp : transport) (q : query)
    (max_records : option Z) : option (fetch_run (Z * Z)) :=
  get_all_data_loop fuel cfg tp q max_records 0 0 [] [].

(** The loop both functions share, over the page seen at each offset:
    [page_at offset] is [(data, has_more)], with [has_more] constantly true
    for [get_all_data], which has no such test.  It is a proof device: the
    two loops above are shown to be instances of it. *)
Fixpoint page_loop (fuel : nat) (page_at : Z -> result (pyval * bool))
    (page_size : Z) (max_records : option Z)
    (offset total_fetched : Z) (ys : list pyval) (log : list (Z * Z))
    : option (fetch_run (Z * Z)) :=
  match fuel with
  | O => None
  | S fuel =>
      let log := log ++ [(offset, page_size)] in
      match page_at offset with
      | Raise e => stop ys (Raise e) log
      | Ok (data, more) =>
          if negb (truthy data) then stop ys (Ok ()) log
          else
            match py_iter data, py_len data with
            | Raise e, _ => stop ys (Raise e) log
            | Ok items, n =>
                let '(new, total_fetched, returned) := yield_page max_records total_fetched items in
                let ys := ys ++ new in
                if returned then stop ys (Ok ()) log
                else
                  match n with
                  | Raise e => stop ys (Raise e) log
                  | Ok n =>
                      if negb more || (n <? page_size) then stop ys (Ok ()) log
                      else page_loop fuel page_at page_size max_records
                             (offset + n) total_fetched ys log
                  end
            end
      end
  end.

(** Modelled from the spec: the synthetic multi-page source of the
    pagination properties, which is not part of the sources.  It holds a
    finite list of records and serves [records[offset : offset + limit]]
    together with the total count, as the remote API does. *)
Definition mock_page (records : list pyval) (offset limit : Z) : list pyval :=
  take (Z.to_nat limit) (drop (Z.to_nat offset) records).

(** Modelled from the spec: the JSON body the mock source answers with,
    [{"response": {"data": [...], "total": n}}]. *)
Definition mock_body (records : list pyval) (offset limit : Z) : pyval :=
  PyDict {[ "response" :=
    PyDict (<["data" := PyList (mock_page records offset limit)]>
            {[ "total" := PyInt (Z.of_nat (length records)) ]}) ]}.

(** Modelled from the spec: the mock source as a [fetch_func] returning raw
    responses. *)
Definition mock_fetch (records : list pyval) (offset limit : Z) : result fetch_response :=
  Ok (RawResponse (mock_body records offset limit)).

(** Modelled from the spec: the mock source as a [fetch_func] returning
    [PaginatedResponse] objects. *)
Definition mock_fetch_typed (records : list pyval) (offset limit : Z) : result fetch_response :=
  Ok (Paginated {| pr_data := mock_page records offset limit;
                   pr_total := Z.of_nat (length records);
                   pr_offset := offset;
                   pr_page_size := Z.of_nat (length (mock_page records offset limit)) |}).

(** Modelled from the spec: the mock source behind the transport.  It
    answers every attempt with status 200 and the page selected by the
    [offset] (0 when absent) and [length] (the API's 5000 when absent)
    query pairs. *)
Definition mock_transport (records : list pyval) : transport :=
  fun _ params _ =>
    HttpResponse 200
      (mock_body records (param_int "offset" params 0) (param_int "length" params 5000)).

(** The number of records a capped fetch is to deliver:
    [min(total available, max_records)], or everything without a cap. *)
Definition expected_count (records : list pyval) (max_records : option Z) : nat :=
  match max_records with
  | Some m => Z.to_nat (Z.min (Z.of_nat (length records)) m)
  | None => length records
  end.

(** A run that ended normally having yielded exactly the first
    [expected_count] records of the source, in source order. *)
Definition complete_run (records : list pyval) (max_records : option Z)
    (run : option (fetch_run (Z * Z))) : Prop :=
  exists log,
    run = Some {| yielded := take (expected_count records max_records) records;
                  finished := Ok ();
                  page_requests := log |}.

(** The source of the concrete pagination scenario: seven records. *)
Definition seven_records : list pyval := map PyInt [1; 2; 3; 4; 5; 6; 7].

(** ** Polygon analytics ([backend/main.py]) *)

(** This section reads the code in exact arithmetic: coordinates are
    finite numbers kept as rationals, so that no operation rounds.  It is
    the geometry that the algorithm implements, and what the code computes
    whenever every intermediate result is representable.  Python's own
    numbers, on which rounding, overflow and NaN show, are the subject of
    [Backend] further down.  A vertex is the JSON pair [[lat, lon]]. *)
Definition vertex : Type := Q * Q.

(** [a > b] and [a < b] on numbers. *)
Definition Qgtb (a b : Q) : bool := negb (Qle_bool a b).
Definition Qltb (a b : Q) : bool := negb (Qle_bool b a).

(** [a / b]: true division raises on a zero divisor. *)
Definition py_div (a b : Q) : result Q :=
  if Qeq_bool b 0 then Raise ZeroDivisionError else Ok (a / b)%Q.

(** [l[i]] with Python's indexing: a negative index counts from the end. *)
Definition py_index {A} (l : list A) (i : Z) : result A :=
  let n := Z.of_nat (length l) in
  let k := if i <? 0 then i + n else i in
  if (k <? 0) || (n <=? k) then Raise IndexError
  else match l !! Z.to_nat k with
       | Some x => Ok x
       | None => Raise IndexError
       end.

(** [(polygon[i][0] > lat) != (polygon[j][0] > lat)] *)
Definition straddles (lat : Q) (pi pj : vertex) : bool :=
  negb (Bool.eqb (Qgtb pi.1 lat) (Qgtb pj.1 lat)).

(** The condition of the [if] in the loop: the right operand of [and], and
    so the division, is evaluated only when the left one holds. *)
Definition crosses (lat lon : Q) (pi pj : vertex) : result bool :=
  if straddles lat pi pj then
    q ← py_div ((pj.2 - pi.2) * (lat - pi.1))%Q (pj.1 - pi.1)%Q;
    Ok (Qltb lon (q + pi.2)%Q)
  else Ok false.

(** [for i in range(n)] with the loop-carried [inside] and [j]. *)
Fixpoint point_in_polygon_loop (lat lon : Q) (polygon : list vertex)
    (indices : list Z) (inside : bool) (j : Z) : result bool :=
  match indices with
  | [] => Ok inside
  | i :: rest =>
      pi ← py_index polygon i;
      pj ← py_index polygon j;
      c ← crosses lat lon pi pj;
      point_in_polygon_loop lat lon polygon rest
        (if c : bool then negb inside else inside) i
  end.

Definition point_in_polygon (lat lon : Q) (polygon : list vertex) : result bool :=
  let n := Z.of_nat (length polygon) in
  point_in_polygon_loop lat lon polygon (py_range n) false (n - 1).

(** [min(l)] and [max(l)]: the first smallest (largest) element;
    [ValueError] on an empty list. *)
Definition py_min (l : list Q) : result Q :=
  match l with
  | [] => Raise ValueError
  | x :: rest => Ok (foldl (fun m y => if Qltb y m then y else m) x rest)
  end.

Definition py_max (l : list Q) : result Q :=
  match l with
  | [] => Raise ValueError
  | x :: rest => Ok (foldl (fun m y => if Qltb m y then y else m) x rest)
  end.

Record bounds := {
  min_lat : Q; max_lat : Q;
  min_lon : Q; max_lon : Q
}.

(** "Get bounding box of polygon": the extrema of the vertex coordinates. *)
Definition bounding_box (coords : list vertex) : result bounds :=
  let lats := map fst coords in
  let lons := map snd coords in
  lo_lat ← py_min lats;
  hi_lat ← py_max lats;
  lo_lon ← py_min lons;
  hi_lon ← py_max lons;
  Ok {| min_lat := lo_lat; max_lat := hi_lat; min_lon := lo_lon; max_lon := hi_lon |}.

(** [min_lat <= lat <= max_lat and min_lon <= lon <= max_lon] *)
Definition in_bounds (b : bounds) (lat lon : Q) : bool :=
  Qle_bool (min_lat b) lat && Qle_bool lat (max_lat b)
  && Qle_bool (min_lon b) lon && Qle_bool lon (max_lon b).

(** The fields of a fetched [GeneratorCapacity] that the backend reads. *)
Record capacity_row := {
  row_plant_id : string;
  row_generator_id : string;
  row_plant_name : string;
  row_state : string;
  row_technology : string;
  row_energy_source : string;
  row_nameplate_capacity_mw : Q;
  row_latitude : option Q;
  row_longitude : option Q;
  row_operating_year : option Z
}.

(** The dict [get_generators_in_bounds] builds per generator. *)
Record Generator := {
  id : string;
  name : string;
  state : string;
  technology : string;
  energy_source : string;
  capacity_mw : Q;
  lat : Q;
  lon : Q;
  operating_year : option Z
}.

(** [g.latitude and g.longitude]: both present and non-zero. *)
Definition located (g : capacity_row) : option (Q * Q) :=
  match row_latitude g, row_longitude g with
  | Some la, Some lo =>
      if negb (Qeq_bool la 0) && negb (Qeq_bool lo 0) then Some (la, lo) else None
  | _, _ => None
  end.

Definition to_generator (g : capacity_row) (la lo : Q) : Generator :=
  {| id := row_plant_id g +:+ "-" +:+ row_generator_id g;
     name := row_plant_name g;
     state := row_state g;
     technology := row_technology g;
     energy_source := row_energy_source g;
     capacity_mw := row_nameplate_capacity_mw g;
     lat := la;
     lon := lo;
     operating_year := row_operating_year g |}.

(** The filter of [get_generators_in_bounds] over the fetched rows: located,
    within the bounds, and of positive capacity. *)
Definition generators_in_bounds (b : bounds) (rows : list capacity_row) : list Generator :=
  omap (fun g =>
          match located g with
          | Some (la, lo) =>
              if in_bounds b la lo && Qgtb (row_nameplate_capacity_mw g) 0
              then Some (to_generator g la lo) else None
          | None => None
          end) rows.

(** [[g for g in generators if point_in_polygon(g["lat"], g["lon"], coords)]] *)
Fixpoint filter_in_polygon (coords : list vertex) (generators : list Generator)
    : result (list Generator) :=
  match generators with
  | [] => Ok []
  | g :: rest =>
      keep ← point_in_polygon (lat g) (lon g) coords;
      kept ← filter_in_polygon coords rest;
      Ok (if keep : bool then g :: kept else kept)
  end.

(** [get_polygon_analytics], up to the list [filtered]: bounding box,
    candidates within it, exact test. *)
Definition polygon_members (coords : list vertex) (rows : list capacity_row)
    : result (list Generator) :=
  b ← bounding_box coords;
  filter_in_polygon coords (generators_in_bounds b rows).

(** The cyclic edges the loop visits, as [(polygon[i], polygon[j])]: each
    vertex with its predecessor, the first with the last. *)
Fixpoint consec (prev : vertex) (l : list vertex) : list (vertex * vertex) :=
  match l with
  | [] => []
  | v :: rest => (v, prev) :: consec v rest
  end.

Definition edges (polygon : list vertex) : list (vertex * vertex) :=
  consec (List.last polygon (0%Q, 0%Q)) polygon.

(** The longitude at which the line through an edge meets latitude [lat],
    and the crossing test, with the division taken as total. *)
Definition x_cross (lat : Q) (pi pj : vertex) : Q :=
  ((pj.2 - pi.2) * (lat - pi.1) / (pj.1 - pi.1) + pi.2)%Q.

Definition crossing (lat lon : Q) (e : vertex * vertex) : bool :=
  straddles lat e.1 e.2 && Qltb lon (x_cross lat e.1 e.2).

(** Even-odd rule: the parity of the crossing edges. *)
Definition odd_crossings (lat lon : Q) (es : list (vertex * vertex)) : bool :=
  foldr (fun e acc => xorb (crossing lat lon e) acc) false es.

(** The exact test alone, on every located generator of positive capacity,
    with no bounding box. *)
Definition exact_members (coords : list vertex) (rows : list capacity_row) : list Generator :=
  omap (fun g =>
          match located g with
          | Some (la, lo) =>
              if Qgtb (row_nameplate_capacity_mw g) 0
                 && odd_crossings la lo (edges coords)
              then Some (to_generator g la lo) else None
          | None => None
          end) rows.

(** The 10 by 10 degree box of the specification's scenario. *)
Definition box_polygon : list vertex :=
  [(30%Q, (-100)%Q); (40%Q, (-100)%Q); (40%Q, (-90)%Q); (30%Q, (-90)%Q)].

(** One iteration's effect on [inside]. *)
Definition toggle (lat lon : Q) (inside : bool) (e : vertex * vertex) : bool :=
  if crossing lat lon e then negb inside else inside.

(** An edge taken in the opposite direction. *)
Definition flip (e : vertex * vertex) : vertex * vertex := (e.2, e.1).

(** ** Record mapping ([eia_client/models/renewable.py]) *)

(** *** The builtins [float()] and [int()]

    A string is a sequence of 8-bit characters, read as the code points
    U+0000 to U+00FF.  On these, [float()] and [int()] read the grammar of
    Python's numeric literals: surrounding whitespace is stripped, a sign
    may lead, digits may be grouped by single underscores, and [float] also
    accepts a fraction, an exponent, and the words [inf], [infinity] and
    [nan] in any case.  (Further Unicode spaces and decimal digits, which
    the builtins accept as well, lie beyond U+00FF.) *)

(** The whitespace that [float()] and [int()] strip: tab to carriage
    return, the space, and of the code points from U+0080 up the next-line
    control U+0085 and the no-break space U+00A0.  The separators U+001C to
    U+001F, which [str.strip] removes, are not stripped by the numeric
    builtins. *)
Definition is_space (c : ascii) : bool :=
  let n := nat_of_ascii c in
  ((9 <=? n) && (n <=? 13) || (n =? 32) || (n =? 133) || (n =? 160))%nat.

Definition digit_value (c : ascii) : option Z :=
  let n := nat_of_ascii c in
  if ((48 <=? n) && (n <=? 57))%nat then Some (Z.of_nat (n - 48)) else None.

Definition lower (c : ascii) : ascii :=
  let n := nat_of_ascii c in
  if ((65 <=? n) && (n <=? 90))%nat then ascii_of_nat (n + 32) else c.

Fixpoint lstrip (cs : list ascii) : list ascii :=
  match cs with
  | c :: rest => if is_space c then lstrip rest else cs
  | [] => []
  end.

Definition strip (cs : list ascii) : list ascii :=
  rev (lstrip (rev (lstrip cs))).

(** An optional sign: whether it is [-], and the rest. *)
Definition read_sign (cs : list ascii) : bool * list ascii :=
  match cs with
  | "-"%char :: rest => (true, rest)
  | "+"%char :: rest => (false, rest)
  | _ => (false, cs)
  end.

(** After a digit: more digits, each optionally preceded by one underscore. *)
Fixpoint read_more_digits (cs : list ascii) : list Z * list ascii :=
  match cs with
  | c :: rest =>
      match digit_value c with
      | Some d => let '(ds, tl) := read_more_digits rest in (d :: ds, tl)
      | None =>
          if Ascii.eqb c "_" then
            match rest with
            | c2 :: rest2 =>
                match digit_value c2 with
                | Some d => let '(ds, tl) := read_more_digits rest2 in (d :: ds, tl)
                | None => ([], cs)
                end
            | [] => ([], cs)
            end
          else ([], cs)
      end
  | [] => ([], [])
  end.

(** A digit group, possibly empty when the input does not start with a
    digit. *)
Definition read_digits (cs : list ascii) : list Z * list ascii :=
  match cs with
  | c :: rest =>
      match digit_value c with
      | Some d => let '(ds, tl) := read_more_digits rest in (d :: ds, tl)
      | None => ([], cs)
      end
  | [] => ([], [])
  end.

Definition digits_value (ds : list Z) : Z :=
  foldl (fun acc d => 10 * acc + d) 0 ds.

(** [mantissa * 10 ^ exponent] in lowest terms. *)
Definition decimal (negative : bool) (mantissa exponent : Z) : Q :=
  let m := if negative then - mantissa else mantissa in
  if 0 <=? exponent then inject_Z (m * 10 ^ exponent)
  else Qred (Qmake m (Z.to_pos (10 ^ (- exponent)))).

Definition is_word (w : string) (cs : list ascii) : bool :=
  bool_decide (map lower cs = list_ascii_of_string w).

(** The double nearest to the rational [n / d], with ties to even: the
    quotient is taken to more digits than the format holds, with a note of
    what is left, and rounded to the format. *)
Definition nearest_double (negative : bool) (n d : positive) : spec_float :=
  let '(m, e, l) := SFdiv_core_binary prec emax (Zpos n) 0 (Zpos d) 0 in
  binary_round_aux prec emax negative m e l.

(** The float that a decimal numeral or an [int] denotes: the value of the
    nearest double, an infinity beyond the range of doubles. *)
Definition float_of_decimal (negative : bool) (q : Q) : pyfloat :=
  match Qnum q with
  | Z0 => PFin 0
  | Zpos n | Zneg n =>
      match nearest_double negative n (Qden q) with
      | S754_finite s m e =>
          let fm := if s then Zneg m else Zpos m in
          PFin (if 0 <=? e then inject_Z (fm * 2 ^ e)
                else Qred (Qmake fm (Z.to_pos (2 ^ (- e)))))
      | S754_zero _ => PFin 0
      | S754_infinity s => PInf s
      | S754_nan => PNan
      end
  end.

(** [float(s)] for a string: [None] where Python raises [ValueError]. *)
Definition parse_float (s : string) : option pyfloat :=
  let '(negative, cs) := read_sign (strip (list_ascii_of_string s)) in
  if is_word "inf" cs || is_word "infinity" cs then Some (PInf negative)
  else if is_word "nan" cs then Some PNan
  else
    let '(ip, cs1) := read_digits cs in
    let '(fp, cs2) :=
      match cs1 with
      | "."%char :: rest => read_digits rest
      | _ => ([], cs1)
      end in
    match ip ++ fp with
    | [] => None
    | mantissa =>
        let shift := - Z.of_nat (length fp) in
        match cs2 with
        | [] => Some (float_of_decimal negative (decimal negative (digits_value mantissa) shift))
        | e :: rest =>
            if Ascii.eqb (lower e) "e" then
              let '(eneg, cs3) := read_sign rest in
              match read_digits cs3 with
              | ((_ :: _) as ep, []) =>
                  let ev := if eneg then - digits_value ep else digits_value ep in
                  Some (float_of_decimal negative
                          (decimal negative (digits_value mantissa) (ev + shift)))
              | _ => None
              end
            else None
        end
    end.

(** [int(s)] for a string, base 10. *)
Definition parse_int (s : string) : option Z :=
  let '(negative, cs) := read_sign (strip (list_ascii_of_string s)) in
  match read_digits cs with
  | ((_ :: _) as ds, []) => Some (if negative then - digits_value ds else digits_value ds)
  | _ => None
  end.

(** [float(v)]: an [int] becomes the nearest double, and one too large for
    a double raises [OverflowError]. *)
Definition py_float (v : pyval) : result pyfloat :=
  match v with
  | PyFloat f => Ok f
  | PyInt z =>
      match float_of_decimal (z <? 0) (inject_Z z) with
      | PInf _ => Raise OverflowError
      | f => Ok f
      end
  | PyBool b => Ok (PFin (if b then 1 else 0))
  | PyStr s =>
      match parse_float s with
      | Some f => Ok f
      | None => Raise ValueError
      end
  | PyNone | PyList _ | PyDict _ => Raise TypeError
  end.

(** [int(v)]: floats truncate towards zero. *)
Definition py_int (v : pyval) : result Z :=
  match v with
  | PyInt z => Ok z
  | PyBool b => Ok (if b then 1 else 0)
  | PyFloat (PFin q) => Ok (Z.quot (Qnum q) (Zpos (Qden q)))
  | PyFloat (PInf _) => Raise OverflowError
  | PyFloat PNan => Raise ValueError
  | PyStr s =>
      match parse_int s with
      | Some z => Ok z
      | None => Raise ValueError
      end
  | PyNone | PyList _ | PyDict _ => Raise TypeError
  end.

(** [d[k]] *)
Definition dict_getitem (d : gmap string pyval) (k : string) : result pyval :=
  match d !! k with
  | Some v => Ok v
  | None => Raise KeyError
  end.

(** [v[:n]]: strings and lists can be sliced; anything else raises (a dict
    raises [KeyError] instead from Python 3.12 on). *)
Definition py_slice_to (v : pyval) (n : nat) : result pyval :=
  match v with
  | PyStr s => Ok (PyStr (String.substring 0 n s))
  | PyList l => Ok (PyList (take n l))
  | _ => Raise TypeError
  end.

(** [float(data.get(k, 0) or 0)] *)
Definition float_field (data : gmap string pyval) (k : string) : result pyfloat :=
  py_float (py_or (dict_get data k (PyInt 0)) (PyInt 0)).

(** [float(data[k]) if data.get(k) else None] *)
Definition optional_float_field (data : gmap string pyval) (k : string)
    : result (option pyfloat) :=
  if truthy (dict_get data k PyNone)
  then v ← dict_getitem data k; f ← py_float v; Ok (Some f)
  else Ok None.

(** [int(data[k][:4]) if data.get(k) else None] *)
Definition optional_year_field (data : gmap string pyval) (k : string)
    : result (option Z) :=
  if truthy (dict_get data k PyNone)
  then v ← dict_getitem data k; s ← py_slice_to v 4; y ← py_int s; Ok (Some y)
  else Ok None.

Module FuelTypeData.
(** The dataclass.  Fields annotated [str] hold whatever [data.get]
    returned: the dataclass does not convert. *)
Record t := {
  period : pyval;
  respondent : pyval;
  respondent_name : pyval;
  fuel_type : pyval;
  fuel_type_description : pyval;
  value : pyfloat;
  units : pyval;
  raw_data : gmap string pyval
}.

Definition from_dict (data : gmap string pyval) : result t :=
  v ← float_field data "value";
  Ok {| period := dict_get data "period" (PyStr "");
        respondent := dict_get data "respondent" (PyStr "");
        respondent_name := dict_get data "respondent-name" (PyStr "");
        fuel_type := dict_get data "fueltype" (PyStr "");
        fuel_type_description := dict_get data "type-name" (PyStr "");
        value := v;
        units := dict_get data "value-units" (PyStr "megawatthours");
        raw_data := data |}.
End FuelTypeData.

Module GeneratorCapacity.
Record t := {
  period : pyval;
  state : pyval;
  state_description : pyval;
  sector : pyval;
  sector_description : pyval;
  entity_id : pyval;
  entity_name : pyval;
  plant_id : pyval;
  plant_name : pyval;
  generator_id : pyval;
  technology : pyval;
  energy_source : pyval;
  energy_source_description : pyval;
  prime_mover : pyval;
  nameplate_capacity_mw : pyfloat;
  net_summer_capacity_mw : pyfloat;
  net_winter_capacity_mw : pyfloat;
  status : pyval;
  operating_year : option Z;
  latitude : option pyfloat;
  longitude : option pyfloat;
  raw_data : gmap string pyval
}.

(** The keyword arguments are evaluated in the order written, so the
    first conversion that fails decides the exception. *)
Definition from_dict (data : gmap string pyval) : result t :=
  nameplate ← float_field data "nameplate-capacity-mw";
  summer ← float_field data "net-summer-capacity-mw";
  winter ← float_field data "net-winter-capacity-mw";
  year ← optional_year_field data "operating-year-month";
  la ← optional_float_field data "latitude";
  lo ← optional_float_field data "longitude";
  Ok {| period := dict_get data "period" (PyStr "");
        state := dict_get data "stateid" (PyStr "");
        state_description := dict_get data "stateName" (PyStr "");
        sector := dict_get data "sector" (PyStr "");
        sector_description := dict_get data "sectorName" (PyStr "");
        entity_id := dict_get data "entityid" (PyStr "");
        entity_name := dict_get data "entityName" (PyStr "");
        plant_id := dict_get data "plantid" (PyStr "");
        plant_name := dict_get data "plantName" (PyStr "");
        generator_id := dict_get data "generatorid" (PyStr "");
        technology := dict_get data "technology" (PyStr "");
        energy_source := dict_get data "energy_source_code" (PyStr "");
        energy_source_description := dict_get data "energy_source_desc" (PyStr "");
        prime_mover := dict_get data "prime_mover_code" (PyStr "");
        nameplate_capacity_mw := nameplate;
        net_summer_capacity_mw := summer;
        net_winter_capacity_mw := winter;
        status := dict_get data "status" (PyStr "");
        operating_year := year;
        latitude := la;
        longitude := lo;
        raw_data := data |}.
End GeneratorCapacity.

(** Sample raw records: a generation row whose value is the placeholder
    ["n/a"], a capacity row with the same placeholder, and a capacity row
    located at latitude 0 (numeric) and longitude "0" (text). *)
Definition unparseable_generation_row : gmap string pyval :=
  <["period" := PyStr "2024-01-01T00"]> {[ "value" := PyStr "n/a" ]}.


Definition sparse_generation_row : gmap string pyval :=
  <["period" := PyStr "2024-01-01T00"]> {[ "value" := PyNone ]}.

Definition equator_row : gmap string pyval :=
  <["latitude" := PyInt 0]> {[ "longitude" := PyStr "0" ]}.

(** [data.get(k)] is falsy: the key is missing or holds a falsy value. *)
Definition falsy_at (data : gmap string pyval) (k : string) : Prop :=
  data !! k = None \/ exists v, data !! k = Some v /\ truthy v = false.

(** [s.lstrip(c)] for a one-character [c]. *)
Fixpoint lstrip_char (c : ascii) (s : string) : string :=
  match s with
  | String a rest => if Ascii.eqb a c then lstrip_char c rest else s
  | EmptyString => EmptyString
  end.

(** [EIAClient._build_url]: [f"{base_url}/{endpoint.lstrip('/')}"]. *)
Definition _build_url (cfg : EIAConfig) (endpoint : string) : string :=
  base_url cfg +:+ "/" +:+ lstrip_char "/" endpoint.

(** The wire keys of a facet and of the two fields of a sort entry. *)
Definition facet_key (facet_name : string) : string := "facets[" +:+ facet_name +:+ "][]".
Definition sort_column_key (i : nat) : string := "sort[" +:+ pretty i +:+ "][column]".
Definition sort_direction_key (i : nat) : string := "sort[" +:+ pretty i +:+ "][direction]".

(** All values given for a facet name, in the order of the filter. *)
Definition facet_values (facet_name : string) (fs : list (string * list string)) : list string :=
  flat_map (fun f => if String.eqb f.1 facet_name then f.2 else []) fs.

(** Whether a sort entry has the mandatory ["column"]. *)
Definition has_column (s : gmap string string) : bool := bool_decide (is_Some (s !! "column")).

(** A query whose sort entry names a direction but no column. *)
Definition columnless_sort_query : query :=
  {| route := "electricity/rto/fuel-type-data";
     data_columns := None;
     facets := None;
     frequency := None;
     start := None;
     end_ := None;
     sort := Some [ {[ "direction" := "asc" ]} ] |}.

(** The offsets of successive page requests: each lies at least [gap]
    beyond the one before. *)
Fixpoint steps_from (gap prev : Z) (offsets : list Z) : Prop :=
  match offsets with
  | [] => True
  | o :: rest => prev + gap <= o /\ steps_from gap o rest
  end.

(** The runs of either fetcher under the cap [max_records], for the page
    size [ps]. *)
Definition fetcher_run (ps : Z) (max_records : option Z)
    (run : fetch_run (Z * Z)) : Prop :=
  (exists fuel fetch_func, paginate fuel fetch_func ps max_records = Some run)
  \/ (exists fuel cfg tp q,
        page_size cfg = ps
        /\ get_all_data fuel cfg tp q max_records = Some run).

(** A body that carries [items] as its page of data. *)
Definition body_with_data (items : list pyval) : pyval :=
  PyDict {[ "response" := PyDict {[ "data" := PyList items ]} ]}.

(** A transport that answers every request with the same body. *)
Definition constant_transport (body : pyval) : transport :=
  fun _ _ _ => HttpResponse 200 body.

(** ** Collecting and batching ([eia_client/utils/pagination.py]) *)

(** A generator as its consumer sees it: each [next()] yields an item,
    returns, or raises. *)
Inductive generator :=
| GenYield (item : pyval) (rest : generator)
| GenReturn
| GenRaise (e : exn).

(** The generator that yields [items] and then goes on as [tail]. *)
Definition yields (items : list pyval) (tail : generator) : generator :=
  foldr GenYield tail items.

(** The generator whose exhaustive run is [run]. *)
Definition run_generator {R} (run : fetch_run R) : generator :=
  yields (yielded run)
    (match finished run with Ok _ => GenReturn | Raise e => GenRaise e end).

(** [collect_all]: the [for] loop with its [break]; the test is
    [max_items and len(items) >= max_items]. *)
Fixpoint collect_all_loop (generator : generator) (max_items : option Z)
    (items : list pyval) : result (list pyval) :=
  match generator with
  | GenYield item rest =>
      let items := items ++ [item] in
      if cap_reached max_items (Z.of_nat (length items)) then Ok items
      else collect_all_loop rest max_items items
  | GenReturn => Ok items
  | GenRaise e => Raise e
  end.

Definition collect_all (generator : generator) (max_items : option Z)
    : result (list pyval) :=
  collect_all_loop generator max_items [].

(** The number of items at which [max_items] stops a collection, if it
    does at all. *)
Definition item_limit (max_items : option Z) : option nat :=
  match max_items with
  | Some m => if m =? 0 then None else Some (Z.to_nat (Z.max 1 m))
  | None => None
  end.

Module BatchProcessor.

End BatchProcessor.

(** ** Polygon analytics, continued ([get_polygon_analytics]) *)

(** The axis-aligned rectangle with the given bounds, as a polygon, with
    its corners in the order of [box_polygon]. *)
Definition rectangle (b : bounds) : list vertex :=
  [(min_lat b, min_lon b); (max_lat b, min_lon b);
   (max_lat b, max_lon b); (min_lat b, max_lon b)].

(** [[g for g in filtered if g["energy_source"] == code]] *)
Definition of_source (code : string) (gs : list Generator) : list Generator :=
  List.filter (fun g => String.eqb (energy_source g) code) gs.

Module PolygonAnalytics.
(** The counts and lists of the dict that [get_polygon_analytics] returns.
    [states] is [list(set(...))], a list in no particular order, kept as the
    set.  The three capacity sums are left out: they are floating-point
    sums, whose rounding depends on the summation algorithm of the
    interpreter. *)
Record t := {
  total_generators : nat;
  solar_count : nat;
  wind_count : nat;
  generators : list Generator;
  states : gset string
}.
End PolygonAnalytics.

(** "Calculate analytics" *)
Definition summarise (filtered : list Generator) : PolygonAnalytics.t :=
  let solar_generators := of_source "SUN" filtered in
  let wind_generators := of_source "WND" filtered in
  {| PolygonAnalytics.total_generators := length filtered;
     PolygonAnalytics.solar_count := length solar_generators;
     PolygonAnalytics.wind_count := length wind_generators;
     PolygonAnalytics.generators := take 100 filtered;
     PolygonAnalytics.states := list_to_set (map state filtered) |}.

(** [get_polygon_analytics] from the decoded coordinates on, over the rows
    that [get_generators_in_bounds] fetched. *)
Definition get_polygon_analytics (coords : list vertex) (rows : list capacity_row)
    : result PolygonAnalytics.t :=
  filtered ← polygon_members coords rows;
  Ok (summarise filtered).

(** A row as fetched for the scenario's box: a solar plant at (35, -95). *)
Definition sample_row : capacity_row :=
  {| row_plant_id := "1"; row_generator_id := "A"; row_plant_name := "Plant";
     row_state := "TX"; row_technology := "Solar Photovoltaic";
     row_energy_source := "SUN"; row_nameplate_capacity_mw := 20;
     row_latitude := Some 35%Q; row_longitude := Some (-95)%Q;
     row_operating_year := Some 2020 |}.

(** ** Record mapping, continued ([eia_client/models/renewable.py]) *)

(** [s == v] for a string [s]: only an equal string compares equal. *)
Definition py_str_eq (s : string) (v : pyval) : bool :=
  match v with
  | PyStr s' => String.eqb s s'
  | _ => false
  end.

Module RenewableSource.
Inductive t := SOLAR | WIND | HYDRO | GEOTHERMAL | BIOMASS | NUCLEAR | OTHER.

#[global] Instance t_eq_dec : EqDecision t.
Proof. solve_decision. Defined.

Definition value (source : t) : string :=
  match source with
  | SOLAR => "SUN"
  | WIND => "WND"
  | HYDRO => "WAT"
  | GEOTHERMAL => "GEO"
  | BIOMASS => "BIO"
  | NUCLEAR => "NUC"
  | OTHER => "OTH"
  end.

(** [for source in cls]: the members in definition order. *)
Definition members : list t := [SOLAR; WIND; HYDRO; GEOTHERMAL; BIOMASS; NUCLEAR; OTHER].

Definition all_renewable : list t := [SOLAR; WIND; HYDRO; GEOTHERMAL; BIOMASS].

Definition get_by_code (code : pyval) : option t :=
  List.find (fun source => py_str_eq (value source) code) members.
End RenewableSource.

(** [FuelTypeData.is_renewable]: membership in a set hashes the value, so a
    list or a dict raises [TypeError]. *)
Definition FuelTypeData_is_renewable (x : FuelTypeData.t) : result bool :=
  match FuelTypeData.fuel_type x with
  | PyList _ | PyDict _ => Raise TypeError
  | v =>
      Ok (existsb (fun s => py_str_eq (RenewableSource.value s) v)
            RenewableSource.all_renewable)
  end.

(** [FuelTypeData.to_dict] *)
Definition FuelTypeData_to_dict (x : FuelTypeData.t) : gmap string pyval :=
  list_to_map
    [("period", FuelTypeData.period x);
     ("respondent", FuelTypeData.respondent x);
     ("respondent_name", FuelTypeData.respondent_name x);
     ("fuel_type", FuelTypeData.fuel_type x);
     ("fuel_type_description", FuelTypeData.fuel_type_description x);
     ("value", PyFloat (FuelTypeData.value x));
     ("units", FuelTypeData.units x)].

(** An optional attribute as a value: [None] or the number. *)
Definition py_optional_float (f : option pyfloat) : pyval :=
  match f with Some f => PyFloat f | None => PyNone end.

Definition py_optional_int (z : option Z) : pyval :=
  match z with Some z => PyInt z | None => PyNone end.

(** [GeneratorCapacity.to_dict] *)
Definition GeneratorCapacity_to_dict (x : GeneratorCapacity.t) : gmap string pyval :=
  list_to_map
    [("period", GeneratorCapacity.period x);
     ("state", GeneratorCapacity.state x);
     ("state_description", GeneratorCapacity.state_description x);
     ("plant_name", GeneratorCapacity.plant_name x);
     ("technology", GeneratorCapacity.technology x);
     ("energy_source", GeneratorCapacity.energy_source x);
     ("nameplate_capacity_mw", PyFloat (GeneratorCapacity.nameplate_capacity_mw x));
     ("net_summer_capacity_mw", PyFloat (GeneratorCapacity.net_summer_capacity_mw x));
     ("operating_year", py_optional_int (GeneratorCapacity.operating_year x));
     ("latitude", py_optional_float (GeneratorCapacity.latitude x));
     ("longitude", py_optional_float (GeneratorCapacity.longitude x))].

(** What [float(v or 0)] makes of a float attribute: a zero comes back as
    the zero of [float(0)]. *)
Definition float_or_zero (f : pyfloat) : pyfloat :=
  if float_truthy f then f else PFin 0.

(** What [float(v) if v else None] makes of an optional float attribute. *)
Definition truthy_float (f : option pyfloat) : option pyfloat :=
  match f with
  | Some f => if float_truthy f then Some f else None
  | None => None
  end.





Module StateRenewableProfile.
(** The dataclass; the numeric attributes default to the integer 0. *)
Record t := {
  state : pyval;
  state_name : pyval;
  year : pyval;
  solar_capacity_mw : pyval;
  wind_capacity_mw : pyval;
  hydro_capacity_mw : pyval;
  solar_generation_mwh : pyval;
  wind_generation_mwh : pyval;
  hydro_generation_mwh : pyval;
  total_renewable_capacity_mw : pyval;
  total_renewable_generation_mwh : pyval;
  raw_data : gmap string pyval
}.

(** Only three attributes are passed; the others, [raw_data] among them,
    take their defaults. *)
Definition from_dict (data : gmap string pyval) : t :=
  {| state := dict_get data "state" (PyStr "");
     state_name := dict_get data "state_name" (PyStr "");
     year := dict_get data "year" (PyInt 0);
     solar_capacity_mw := PyInt 0;
     wind_capacity_mw := PyInt 0;
     hydro_capacity_mw := PyInt 0;
     solar_generation_mwh := PyInt 0;
     wind_generation_mwh := PyInt 0;
     hydro_generation_mwh := PyInt 0;
     total_renewable_capacity_mw := PyInt 0;
     total_renewable_generation_mwh := PyInt 0;
     raw_data := ∅ |}.


End StateRenewableProfile.

(** The value of four decimal digits. *)
Definition four_digits (d1 d2 d3 d4 : Z) : Z := 1000 * d1 + 100 * d2 + 10 * d3 + d4.

(** A capacity row dated by month, with the other fields left out. *)
Definition dated_capacity_row : gmap string pyval :=
  {[ "operating-year-month" := PyStr "2019-06" ]}.

(** ** Model conversion ([eia_client/endpoints/base.py]) *)

(** [model_cls.from_dict(item)]: every [from_dict] starts with [data.get],
    which only a dict has. *)
Definition model_from_dict {T} (from_dict : gmap string pyval -> result T)
    (item : pyval) : result T :=
  match item with
  | PyDict data => from_dict data
  | _ => Raise AttributeError
  end.

(** [[model_cls.from_dict(item) for item in raw_data]] *)
Fixpoint convert_all {T} (from_dict : gmap string pyval -> result T)
    (items : list pyval) : result (list T) :=
  match items with
  | [] => Ok []
  | item :: rest =>
      model ← model_from_dict from_dict item;
      models ← convert_all from_dict rest;
      Ok (model :: models)
  end.

(** [PaginatedResponse[T]] as [_fetch_data] builds it: [total] is whatever
    the response holds. *)
Record model_page (T : Type) := {
  mp_data : list T;
  mp_total : pyval;
  mp_offset : Z;
  mp_page_size : Z;
  mp_request_info : pyval
}.
Arguments mp_data {T} _.
Arguments mp_total {T} _.
Arguments mp_offset {T} _.
Arguments mp_page_size {T} _.
Arguments mp_request_info {T} _.

(** [BaseEndpoint._fetch_data]; the default [len(raw_data)] of
    [resp_data.get("total", ...)] is evaluated before the lookup. *)
Definition _fetch_data {T} (cfg : EIAConfig) (tp : transport)
    (from_dict : gmap string pyval -> result T) (q : query)
    (limit : option Z) (offset : Z) : result (model_page T) :=
  response ← (get_data cfg tp q limit offset).1;
  resp_data ← py_get response "response" (PyDict ∅);
  raw_data ← py_get resp_data "data" (PyList []);
  n ← py_len raw_data;
  total ← py_get resp_data "total" (PyInt n);
  items ← py_iter raw_data;
  models ← convert_all from_dict items;
  n ← py_len raw_data;
  request_info ← py_get response "request" (PyDict ∅);
  Ok {| mp_data := models; mp_total := total; mp_offset := offset;
        mp_page_size := n; mp_request_info := request_info |}.

(** [for record in records: yield model_cls.from_dict(record)] over the
    records the inner generator yields before it ends with [finish]: the
    models yielded, and how the outer generator ends. *)
Fixpoint convert_each {T} (from_dict : gmap string pyval -> result T)
    (records : list pyval) (finish : result unit) : list T * result unit :=
  match records with
  | [] => ([], finish)
  | record :: rest =>
      match model_from_dict from_dict record with
      | Raise e => ([], Raise e)
      | Ok model =>
          let '(models, r) := convert_each from_dict rest finish in
          (model :: models, r)
      end
  end.

(** [BaseEndpoint._fetch_all_data], run to exhaustion. *)
Definition _fetch_all_data {T} (fuel : nat) (cfg : EIAConfig) (tp : transport)
    (from_dict : gmap string pyval -> result T) (q : query)
    (max_records : option Z) : option (list T * result unit) :=
  match get_all_data fuel cfg tp q max_records with
  | Some run => Some (convert_each from_dict (yielded run) (finished run))
  | None => None
  end.

(** Each item converts to the model beside it. *)
Definition converted {T} (from_dict : gmap string pyval -> result T)
    (items : list pyval) (models : list T) : Prop :=
  Forall2 (fun item model => model_from_dict from_dict item = Ok model) items models.

(** The requests for the first [k] pages of [page_size] records each. *)
Definition first_pages (page_size : Z) (k : nat) : list (Z * Z) :=
  map (fun j => (Z.of_nat j * page_size, page_size)) (seq 0 k).

(** A fetch without a cap that ended normally with all the records, after
    requesting the first [k] pages. *)
Definition full_run (records : list pyval) (page_size : Z) (k : nat)
    : option (fetch_run (Z * Z)) :=
  Some {| yielded := records; finished := Ok ();
          page_requests := first_pages page_size k |}.

(** ** Configuration from the environment ([EIAConfig.from_env]) *)

(** [os.getenv(k, default)] over the environment as a map. *)
Definition getenv (env : gmap string string) (k default : string) : string :=
  match env !! k with
  | Some v => v
  | None => default
  end.

(** [EIAConfig.from_env]: the key must be set and non-empty; the numbers
    are read by [int], in the order of the keyword arguments. *)
Definition from_env (env : gmap string string) : result EIAConfig :=
  match env !! "EIA_API_KEY" with
  | None => Raise ValueError
  | Some key =>
      if String.eqb key "" then Raise ValueError
      else
        let url := getenv env "EIA_BASE_URL" "https://api.eia.gov/v2" in
        t ← py_int (PyStr (getenv env "EIA_TIMEOUT" "30"));
        r ← py_int (PyStr (getenv env "EIA_MAX_RETRIES" "3"));
        p ← py_int (PyStr (getenv env "EIA_PAGE_SIZE" "5000"));
        Ok {| api_key := key; base_url := url; timeout := t;
              max_retries := r; page_size := p |}
  end.

(** ** Capacity by state ([RenewableEndpoint.get_state_renewable_summary]) *)

(** [d[key] += capacity] on a [defaultdict(float)]. *)
Definition add_capacity (key : string) (capacity : Q) (d : gmap string Q) : gmap string Q :=
  <[key := (default 0%Q (d !! key) + capacity)%Q]> d.

(** The body of the [for] loop, on the nested [defaultdict]. *)
Definition summary_step (state_summary : gmap string (gmap string Q))
    (generator : capacity_row) : gmap string (gmap string Q) :=
  let state := row_state generator in
  let source := row_energy_source generator in
  let capacity := row_nameplate_capacity_mw generator in
  let by_source := default ∅ (state_summary !! state) in
  <[state := add_capacity "total" capacity (add_capacity source capacity by_source)]>
    state_summary.

(** [get_state_renewable_summary] over the generators that
    [get_all_renewable_capacity] yields. *)
Definition get_state_renewable_summary (generators : list capacity_row)
    : gmap string (gmap string Q) :=
  foldl summary_step ∅ generators.

(** [summary[state][key]], if both keys are there. *)
Definition summary_entry (summary : gmap string (gmap string Q)) (state key : string)
    : option Q :=
  by_source ← summary !! state; by_source !! key.

(** The capacities of the rows added up from 0 in order, if there is any
    row. *)
Definition capacity_total (rows : list capacity_row) : Q :=
  foldl (fun acc g => (acc + row_nameplate_capacity_mw g)%Q) 0%Q rows.

Definition capacity_entry (rows : list capacity_row) : option Q :=
  match rows with
  | [] => None
  | _ :: _ => Some (capacity_total rows)
  end.

(** The rows that count towards [summary[state][key]]. *)
Definition counts_towards (state key : string) (g : capacity_row) : bool :=
  String.eqb (row_state g) state
  && (String.eqb (row_energy_source g) key || String.eqb key "total").

(** ** Listing generators ([get_generators]) *)

(** The filter of [get_generators] over the fetched rows:
    [g.nameplate_capacity_mw >= min_capacity and g.latitude and g.longitude].
    The response model it fills has the fields of the dict that
    [get_generators_in_bounds] builds, filled from the same attributes. *)
Definition get_generators (min_capacity : Q) (rows : list capacity_row) : list Generator :=
  omap (fun g =>
          if Qle_bool min_capacity (row_nameplate_capacity_mw g) then
            match located g with
            | Some (la, lo) => Some (to_generator g la lo)
            | None => None
            end
          else None) rows.

(** ** Endpoints ([endpoints/base.py], [endpoints/electricity.py],
    [endpoints/renewable.py]) *)

(** [s.strip(c)] for a one-character [c]. *)
Definition rstrip_char (c : ascii) (s : string) : string :=
  String.rev (lstrip_char c (String.rev s)).

Definition strip_char (c : ascii) (s : string) : string :=
  rstrip_char c (lstrip_char c s).

(** [sep.join(parts)] *)
Definition join (sep : string) (parts : list string) : string :=
  match parts with
  | [] => ""
  | p :: rest => foldl (fun acc q => acc +:+ sep +:+ q) p rest
  end.

(** [BaseEndpoint._build_route]:
    ["/".join(p.strip("/") for p in [BASE_ROUTE] + list(parts) if p)]. *)
Definition _build_route (BASE_ROUTE : string) (parts : list string) : string :=
  join "/" (map (strip_char "/")
              (List.filter (fun p => negb (String.eqb p "")) (BASE_ROUTE :: parts))).

Module ElectricityEndpoint.
Definition BASE_ROUTE : string := "electricity".
Definition ROUTE_OPERATING_CAPACITY : string := "operating-generator-capacity".

Definition CAPACITY_DATA_COLUMNS : list string :=
  ["nameplate-capacity-mw"; "net-summer-capacity-mw"; "net-winter-capacity-mw";
   "operating-year-month"; "latitude"; "longitude"].

(** [if values: facets[k] = values] *)
Definition facet (k : string) (values : option (list string))
    : list (string * list string) :=
  match values with
  | Some ((_ :: _) as vs) => [(k, vs)]
  | _ => []
  end.

(** [facets if facets else None] *)
Definition facets_or_none (facets : list (string * list string))
    : option (list (string * list string)) :=
  match facets with
  | [] => None
  | _ :: _ => Some facets
  end.

(** The arguments [get_operating_capacity] passes on to [_fetch_data]. *)
Definition operating_capacity_query (states energy_sources statuses sectors
    : option (list string)) : query :=
  {| route := _build_route BASE_ROUTE [ROUTE_OPERATING_CAPACITY];
     data_columns := Some CAPACITY_DATA_COLUMNS;
     facets := facets_or_none
                 (facet "stateid" states ++ facet "energy_source_code" energy_sources
                    ++ facet "status" statuses ++ facet "sector" sectors);
     frequency := None;
     start := None;
     end_ := None;
     sort := None |}.

Definition get_operating_capacity (cfg : EIAConfig) (tp : transport)
    (states energy_sources statuses sectors : option (list string))
    (limit : option Z) (offset : Z) : result (model_page GeneratorCapacity.t) :=
  _fetch_data cfg tp GeneratorCapacity.from_dict
    (operating_capacity_query states energy_sources statuses sectors) limit offset.
End ElectricityEndpoint.

Module RenewableEndpoint.
Definition SOLAR_CODE : string := "SUN".
Definition WIND_CODE : string := "WND".

(** [get_solar_capacity] and [get_wind_capacity]: operating generators of
    one energy source. *)
Definition get_solar_capacity (cfg : EIAConfig) (tp : transport)
    (states : option (list string)) (limit : option Z)
    : result (model_page GeneratorCapacity.t) :=
  ElectricityEndpoint.get_operating_capacity cfg tp
    states (Some [SOLAR_CODE]) (Some ["OP"]) None limit 0.

Definition get_wind_capacity (cfg : EIAConfig) (tp : transport)
    (states : option (list string)) (limit : option Z)
    : result (model_page GeneratorCapacity.t) :=
  ElectricityEndpoint.get_operating_capacity cfg tp
    states (Some [WIND_CODE]) (Some ["OP"]) None limit 0.
End RenewableEndpoint.

(** The pairs that ask for the capacity of the operating generators of one
    energy source in the given states. *)
Definition capacity_request_pairs (cfg : EIAConfig) (source : string)
    (states : list string) (limit : option Z) : list (string * qvalue) :=
  [("api_key", QStr (api_key cfg))]
    ++ map (fun c => ("data[]", QStr c)) ElectricityEndpoint.CAPACITY_DATA_COLUMNS
    ++ map (fun s => ("facets[stateid][]", QStr s)) states
    ++ [("facets[energy_source_code][]", QStr source); ("facets[status][]", QStr "OP")]
    ++ length_part cfg limit.

(** ** What the fetchers yield, against any source *)

(** The page either fetcher sees at an offset: for [paginate], what
    [fetch_func] answers read as a page; for [get_all_data], the data of
    the response to [get_data]. *)
Definition paginate_page_at (fetch_func : Z -> Z -> result fetch_response)
    (page_size : Z) (offset : Z) : result (pyval * bool) :=
  response ← fetch_func offset page_size; paginate_page response offset.

Definition get_all_data_page_at (cfg : EIAConfig) (tp : transport) (q : query)
    (offset : Z) : result (pyval * bool) :=
  response ← (get_data cfg tp q (Some (page_size cfg)) offset).1;
  resp ← py_get response "response" (PyDict ∅);
  data ← py_get resp "data" (PyList []);
  Ok (data, true).

(** The records a page serves: the items of its data, when there is a
    page, its data is truthy and can be iterated. *)
Definition served (page : result (pyval * bool)) : list pyval :=
  match page with
  | Ok (data, _) =>
      if truthy data then
        match py_iter data with
        | Ok items => items
        | Raise _ => []
        end
      else []
  | Raise _ => []
  end.

(** The records served over the page requests of a run, in order. *)
Definition served_by (page_at : Z -> result (pyval * bool))
    (run : fetch_run (Z * Z)) : list pyval :=
  flat_map (fun request => served (page_at request.1)) (page_requests run).

(** ** Polygon analytics on Python's numbers ([backend/main.py]) *)

(** The section on polygon analytics above reads coordinates as exact
    rationals.  Python computes on its own numbers.  [json.loads] decodes
    an integer literal to an [int] of any size and a literal with a
    fraction or an exponent to a [float], an IEEE 754 double (infinite when
    the literal is out of range; the tokens [NaN], [Infinity] and
    [-Infinity] are accepted as well), and a vertex list may mix the two.
    The position and the capacity of a generator are [float]s, built by
    [GeneratorCapacity.from_dict] with [float()].  This module is the same
    code on these numbers.  Doubles are the primitive floats, whose
    operations are the IEEE 754 ones, rounding to nearest with ties to
    even. *)
Module Backend.

(** A JSON number as decoded.  (A JSON boolean decodes to a [bool], which
    compares and computes as the [int] 0 or 1.) *)
Inductive number :=
| NumInt (z : Z)
| NumFloat (f : float).

(** A vertex is the JSON pair [[lat, lon]]. *)
Definition vertex : Type := number * number.

(** The [float] nearest to an [int], as arithmetic and comparison with a
    [float] operand take it: ties go to the even neighbour, and an [int]
    with no finite nearest double raises [OverflowError]. *)
Definition int_to_float (z : Z) : result float :=
  match binary_normalize prec emax z 0 false with
  | S754_infinity _ => Raise OverflowError
  | f => Ok (SF2Prim f)
  end.

Definition to_float (a : number) : result float :=
  match a with
  | NumInt z => int_to_float z
  | NumFloat f => Ok f
  end.

(** An [int] against a [float]: Python compares the exact values, without
    converting the [int].  A NaN is unordered. *)
Definition compare_int_float (z : Z) (f : float) : option comparison :=
  match Prim2SF f with
  | S754_nan => None
  | S754_infinity negative => Some (if negative then Gt else Lt)
  | S754_zero _ => Some (z ?= 0)
  | S754_finite negative m e =>
      let fm := if negative then Zneg m else Zpos m in
      Some (if 0 <=? e then z ?= fm * 2 ^ e else z * 2 ^ (- e) ?= fm)
  end.

(** [a < b] and [a <= b]; [a > b] is [b < a]. *)
Definition lt (a b : number) : bool :=
  match a, b with
  | NumInt x, NumInt y => x <? y
  | NumFloat x, NumFloat y => PrimFloat.ltb x y
  | NumInt x, NumFloat y =>
      match compare_int_float x y with Some Lt => true | _ => false end
  | NumFloat x, NumInt y =>
      match compare_int_float y x with Some Gt => true | _ => false end
  end.

Definition le (a b : number) : bool :=
  match a, b with
  | NumInt x, NumInt y => x <=? y
  | NumFloat x, NumFloat y => PrimFloat.leb x y
  | NumInt x, NumFloat y =>
      match compare_int_float x y with Some (Lt | Eq) => true | _ => false end
  | NumFloat x, NumInt y =>
      match compare_int_float y x with Some (Gt | Eq) => true | _ => false end
  end.

Definition gt (a b : number) : bool := lt b a.

(** [a - b]: exact on two [int]s; otherwise both operands are taken as
    [float]s and the difference is rounded. *)
Definition sub (a b : number) : result number :=
  match a, b with
  | NumInt x, NumInt y => Ok (NumInt (x - y))
  | _, _ => x ← to_float a; y ← to_float b; Ok (NumFloat (PrimFloat.sub x y))
  end.

(** [(polygon[i][0] > lat) != (polygon[j][0] > lat)] *)
Definition straddles (lat : float) (pi pj : vertex) : bool :=
  negb (Bool.eqb (gt pi.1 (NumFloat lat)) (gt pj.1 (NumFloat lat))).

(** [(polygon[j][1] - polygon[i][1]) * (lat - polygon[i][0]) /
    (polygon[j][0] - polygon[i][0]) + polygon[i][1]], operand by operand from
    the left.  As [lat] is a [float], so are the second factor, the
    product, the quotient and the sum; each [int] met on the way is
    converted first.  The division raises on a divisor that equals zero
    after conversion. *)
Definition x_cross (lat : float) (pi pj : vertex) : result float :=
  dlon ← sub pj.2 pi.2;
  lat_i ← to_float pi.1;
  dlon_f ← to_float dlon;
  dlat ← sub pj.1 pi.1;
  dlat_f ← to_float dlat;
  if PrimFloat.eqb dlat_f 0 then Raise ZeroDivisionError
  else
    lon_i ← to_float pi.2;
    Ok (PrimFloat.add
          (PrimFloat.div (PrimFloat.mul dlon_f (PrimFloat.sub lat lat_i)) dlat_f) lon_i).

(** The condition of the [if] in the loop: the right operand of [and], and
    so the division, is evaluated only when the left one holds. *)
Definition crosses (lat lon : float) (pi pj : vertex) : result bool :=
  if straddles lat pi pj then
    x ← x_cross lat pi pj;
    Ok (PrimFloat.ltb lon x)
  else Ok false.

(** [for i in range(n)] with the loop-carried [inside] and [j]. *)
Fixpoint point_in_polygon_loop (lat lon : float) (polygon : list vertex)
    (indices : list Z) (inside : bool) (j : Z) : result bool :=
  match indices with
  | [] => Ok inside
  | i :: rest =>
      pi ← py_index polygon i;
      pj ← py_index polygon j;
      c ← crosses lat lon pi pj;
      point_in_polygon_loop lat lon polygon rest
        (if c : bool then negb inside else inside) i
  end.

Definition point_in_polygon (lat lon : float) (polygon : list vertex) : result bool :=
  let n := Z.of_nat (length polygon) in
  point_in_polygon_loop lat lon polygon (py_range n) false (n - 1).

(** [min(l)] and [max(l)]: the running extremum gives way to an item that
    compares strictly below (above) it; [ValueError] on an empty list. *)
Definition py_min (l : list number) : result number :=
  match l with
  | [] => Raise ValueError
  | x :: rest => Ok (foldl (fun m y => if lt y m then y else m) x rest)
  end.

Definition py_max (l : list number) : result number :=
  match l with
  | [] => Raise ValueError
  | x :: rest => Ok (foldl (fun m y => if gt y m then y else m) x rest)
  end.

Record bounds := {
  min_lat : number; max_lat : number;
  min_lon : number; max_lon : number
}.

(** "Get bounding box of polygon": the extrema of the vertex coordinates. *)
Definition bounding_box (coords : list vertex) : result bounds :=
  let lats := map fst coords in
  let lons := map snd coords in
  lo_lat ← py_min lats;
  hi_lat ← py_max lats;
  lo_lon ← py_min lons;
  hi_lon ← py_max lons;
  Ok {| min_lat := lo_lat; max_lat := hi_lat; min_lon := lo_lon; max_lon := hi_lon |}.

(** [min_lat <= lat <= max_lat and min_lon <= lon <= max_lon] *)
Definition in_bounds (b : bounds) (lat lon : float) : bool :=
  le (min_lat b) (NumFloat lat) && le (NumFloat lat) (max_lat b)
  && le (min_lon b) (NumFloat lon) && le (NumFloat lon) (max_lon b).

(** The fields of a fetched [GeneratorCapacity] that the backend reads. *)
Record capacity_row := {
  row_plant_id : string;
  row_generator_id : string;
  row_plant_name : string;
  row_state : string;
  row_technology : string;
  row_energy_source : string;
  row_nameplate_capacity_mw : float;
  row_latitude : option float;
  row_longitude : option float;
  row_operating_year : option Z
}.

(** The dict [get_generators_in_bounds] builds per generator. *)
Record Generator := {
  id : string;
  name : string;
  state : string;
  technology : string;
  energy_source : string;
  capacity_mw : float;
  lat : float;
  lon : float;
  operating_year : option Z
}.

(** The truth value of a [float]: anything but a zero, NaN included. *)
Definition truthy (f : float) : bool := negb (PrimFloat.eqb f 0).

(** [g.latitude and g.longitude]: both present and truthy. *)
Definition located (g : capacity_row) : option (float * float) :=
  match row_latitude g, row_longitude g with
  | Some la, Some lo => if truthy la && truthy lo then Some (la, lo) else None
  | _, _ => None
  end.

Definition to_generator (g : capacity_row) (la lo : float) : Generator :=
  {| id := row_plant_id g +:+ "-" +:+ row_generator_id g;
     name := row_plant_name g;
     state := row_state g;
     technology := row_technology g;
     energy_source := row_energy_source g;
     capacity_mw := row_nameplate_capacity_mw g;
     lat := la;
     lon := lo;
     operating_year := row_operating_year g |}.

(** [g.nameplate_capacity_mw > 0] *)
Definition positive_capacity (g : capacity_row) : bool :=
  gt (NumFloat (row_nameplate_capacity_mw g)) (NumInt 0).

(** The filter of [get_generators_in_bounds] over the fetched rows: located,
    within the bounds, and of positive capacity. *)
Definition generators_in_bounds (b : bounds) (rows : list capacity_row) : list Generator :=
  omap (fun g =>
          match located g with
          | Some (la, lo) =>
              if in_bounds b la lo && positive_capacity g
              then Some (to_generator g la lo) else None
          | None => None
          end) rows.

(** [[g for g in generators if point_in_polygon(g["lat"], g["lon"], coords)]] *)
Fixpoint filter_in_polygon (coords : list vertex) (generators : list Generator)
    : result (list Generator) :=
  match generators with
  | [] => Ok []
  | g :: rest =>
      keep ← point_in_polygon (lat g) (lon g) coords;
      kept ← filter_in_polygon coords rest;
      Ok (if keep : bool then g :: kept else kept)
  end.

(** [get_polygon_analytics], up to the list [filtered]: bounding box,
    candidates within it, exact test. *)
Definition polygon_members (coords : list vertex) (rows : list capacity_row)
    : result (list Generator) :=
  b ← bounding_box coords;
  filter_in_polygon coords (generators_in_bounds b rows).

(** The candidates when no bounding box is applied: every located
    generator of positive capacity. *)
Definition candidates (rows : list capacity_row) : list Generator :=
  omap (fun g =>
          match located g with
          | Some (la, lo) =>
              if positive_capacity g then Some (to_generator g la lo) else None
          | None => None
          end) rows.

(** The exact test alone, on all candidates. *)
Definition exact_members (coords : list vertex) (rows : list capacity_row)
    : result (list Generator) :=
  filter_in_polygon coords (candidates rows).

(** Whether a generator lies in a box. *)
Definition in_box (b : bounds) (g : Generator) : bool := in_bounds b (lat g) (lon g).

(** The cyclic edges the loop visits, as [(polygon[i], polygon[j])]: each
    vertex with its predecessor, the first with the last. *)
Fixpoint consec (prev : vertex) (l : list vertex) : list (vertex * vertex) :=
  match l with
  | [] => []
  | v :: rest => (v, prev) :: consec v rest
  end.

Definition edges (polygon : list vertex) : list (vertex * vertex) :=
  consec (List.last polygon (NumInt 0, NumInt 0)) polygon.

(** The loop as a walk over edges: a crossing edge flips [inside], and the
    first test that raises ends the walk. *)
Fixpoint toggles (lat lon : float) (es : list (vertex * vertex)) (inside : bool)
    : result bool :=
  match es with
  | [] => Ok inside
  | e :: rest =>
      c ← crosses lat lon e.1 e.2;
      toggles lat lon rest (if c : bool then negb inside else inside)
  end.

(** An edge taken in the opposite direction. *)
Definition flip (e : vertex * vertex) : vertex * vertex := (e.2, e.1).

(** A finite double as an integer: its exact value times [2^1074], the
    reciprocal of the least positive double. *)
Definition scaled (x : spec_float) : option Z :=
  match x with
  | S754_zero _ => Some 0
  | S754_finite negative m e =>
      Some ((if negative then Zneg m else Zpos m) * 2 ^ (e + 1074))
  | S754_infinity _ | S754_nan => None
  end.

(** The exact value of a finite number on the same scale, and the numbers
    that have one: every [int], and every [float] but the infinities and
    NaN. *)
Definition rank (a : number) : option Z :=
  match a with
  | NumInt z => Some (z * 2 ^ 1074)
  | NumFloat f => scaled (Prim2SF f)
  end.

Definition finite (a : number) : bool :=
  match rank a with
  | Some _ => true
  | None => false
  end.

(** Coordinates that the arithmetic takes for what they are: any [float],
    as a JSON literal with a fraction or an exponent decodes, and an [int]
    below [2^52] in magnitude, which converts to a [float] exactly, as does
    the difference of two such. *)
Definition small (a : number) : bool :=
  match a with
  | NumInt z => Z.abs z <? 2 ^ 52
  | NumFloat _ => true
  end.

Definition small_vertex (v : vertex) : bool := small v.1 && small v.2.

(** A point on the line through the two vertices of an edge, in exact
    arithmetic; a point on no such line is off the boundary of the
    polygon. *)
Definition on_line (lat lon : float) (e : vertex * vertex) : Prop :=
  match rank e.1.1, rank e.1.2, rank e.2.1, rank e.2.2,
        rank (NumFloat lat), rank (NumFloat lon) with
  | Some a1, Some a2, Some b1, Some b2, Some la, Some lo =>
      (b1 - a1) * (lo - a2) = (b2 - a2) * (la - a1)
  | _, _, _, _, _, _ => False
  end.

Definition off_boundary (lat lon : float) (polygon : list vertex) : Prop :=
  Forall (fun e => ~ on_line lat lon e) (edges polygon).

(** [[g for g in filtered if g["energy_source"] == code]] *)
Definition of_source (code : string) (gs : list Generator) : list Generator :=
  List.filter (fun g => String.eqb (energy_source g) code) gs.

Module PolygonAnalytics.
(** The counts and lists of the dict that [get_polygon_analytics] returns.
    [states] is [list(set(...))], a list in no particular order, kept as the
    set.  The three capacity sums are left out: they are floating-point
    sums, whose rounding depends on the summation algorithm of the
    interpreter. *)
Record t := {
  total_generators : nat;
  solar_count : nat;
  wind_count : nat;
  generators : list Generator;
  states : gset string
}.
End PolygonAnalytics.

(** "Calculate analytics" *)
Definition summarise (filtered : list Generator) : PolygonAnalytics.t :=
  let solar_generators := of_source "SUN" filtered in
  let wind_generators := of_source "WND" filtered in
  {| PolygonAnalytics.total_generators := length filtered;
     PolygonAnalytics.solar_count := length solar_generators;
     PolygonAnalytics.wind_count := length wind_generators;
     PolygonAnalytics.generators := take 100 filtered;
     PolygonAnalytics.states := list_to_set (map state filtered) |}.

(** [get_polygon_analytics] from the decoded coordinates on, over the rows
    that [get_generators_in_bounds] fetched. *)
Definition get_polygon_analytics (coords : list vertex) (rows : list capacity_row)
    : result PolygonAnalytics.t :=
  filtered ← polygon_members coords rows;
  Ok (summarise filtered).
End Backend.

(** Two runs agree: both return the same value, or both raise. *)
Definition agree {A} (r1 r2 : result A) : Prop :=
  match r1, r2 with
  | Ok a, Ok b => a = b
  | Raise _, Raise _ => True
  | _, _ => False
  end.

(** Sample inputs.  A triangle with integer vertices and a point within
    rounding distance of its edge from (0, 0) to (3, 1); a triangle whose
    easternmost vertex lies at longitude 0.3, with a generator just east of
    it; and two vertex lists that defeat the division. *)
Definition thin_triangle : list Backend.vertex :=
  [(Backend.NumInt 0, Backend.NumInt 0); (Backend.NumInt 3, Backend.NumInt 1);
   (Backend.NumInt 3, Backend.NumInt (-1))].

Definition eastern_triangle : list Backend.vertex :=
  [(Backend.NumInt 52, Backend.NumFloat 0.2%float);
   (Backend.NumInt 51, Backend.NumFloat 0.3%float);
   (Backend.NumInt 52, Backend.NumFloat (-10.1)%float)].

Definition eastern_row : Backend.capacity_row :=
  {| Backend.row_plant_id := "1"; Backend.row_generator_id := "A";
     Backend.row_plant_name := "Plant"; Backend.row_state := "TX";
     Backend.row_technology := "Solar Photovoltaic";
     Backend.row_energy_source := "SUN";
     Backend.row_nameplate_capacity_mw := 20%float;
     Backend.row_latitude := Some 51%float;
     Backend.row_longitude := Some 0.3000000000000003%float;
     Backend.row_operating_year := Some 2020 |}.

Definition rounded_latitudes : list Backend.vertex :=
  [(Backend.NumInt 9007199254740993, Backend.NumInt 0);
   (Backend.NumFloat 9007199254740992%float, Backend.NumInt 1);
   (Backend.NumInt 0, Backend.NumInt 0)].

Definition huge_latitude : list Backend.vertex :=
  [(Backend.NumInt (10 ^ 400), Backend.NumInt 0);
   (Backend.NumInt 0, Backend.NumInt 1);
   (Backend.NumInt 0, Backend.NumInt 0)].

Definition inner_row : Backend.capacity_row :=
  {| Backend.row_plant_id := "2"; Backend.row_generator_id := "B";
     Backend.row_plant_name := "Farm"; Backend.row_state := "TX";
     Backend.row_technology := "Onshore Wind Turbine";
     Backend.row_energy_source := "WND";
     Backend.row_nameplate_capacity_mw := 150%float;
     Backend.row_latitude := Some 51.5%float;
     Backend.row_longitude := Some 0.1%float;
     Backend.row_operating_year := Some 2015 |}.

(** * Verification *)

(** ** Retry and backoff *)

Section Retry.
Variable send : Z -> attempt_outcome.
Variable mr : Z.

Lemma handle_429 body : _handle_response 429 body = Raise EIARateLimitError.
Proof. reflexivity. Qed.

Lemma handle_401 body : _handle_response 401 body = Raise EIAAuthenticationError.
Proof. reflexivity. Qed.


Lemma request_loop_retried attempt rest tr :
  retried (send attempt) = true -> attempt < mr - 1 ->
  _request_loop send mr (attempt :: rest) tr =
    _request_loop send mr rest
      (tr ++ [EvRequest attempt; EvSleep (backoff (send attempt) attempt)]).
Proof.
  intros Hr Hlt. cbn [_request_loop].
  apply Z.ltb_lt in Hlt.
  destruct (send attempt) as [sc body|sc|]; cbn in Hr |- *.
  - apply Z.eqb_eq in Hr. subst sc. rewrite handle_429, Hlt.
    by rewrite <- app_assoc.
  - unfold _handle_response_invalid_json.
    destruct (sc =? 429) eqn:E429.
    + apply Z.eqb_eq in E429. subst sc. cbn. rewrite Hlt. by rewrite <- app_assoc.
    + cbn in Hr. apply Z.ltb_lt in Hr.
      destruct (sc =? 401) eqn:E401; [lia|]. destruct (sc =? 404) eqn:E404; [lia|].
      destruct (sc >=? 400) eqn:E400; [lia|].
      rewrite Hlt. by rewrite <- app_assoc.
  - rewrite Hlt. by rewrite <- app_assoc.
Qed.

(** A run of retried attempts is skipped over, leaving its events. *)
Lemma request_loop_prefix (k : nat) : forall a n tr,
  0 <= n ->
  (forall i, a <= i < a + Z.of_nat k -> retried (send i) = true /\ i < mr - 1) ->
  _request_loop send mr (seqZ a (Z.of_nat k + n)) tr =
    _request_loop send mr (seqZ (a + Z.of_nat k) n) (tr ++ retry_trace send a k).
Proof.
  induction k as [|k IH]; intros a n tr Hn Hall.
  - unfold retry_trace. cbn. rewrite Z.add_0_r, app_nil_r. done.
  - rewrite seqZ_cons by lia.
    destruct (Hall a ltac:(lia)) as [Hr Hlt].
    rewrite request_loop_retried by done.
    replace (Z.pred (Z.of_nat (S k) + n)) with (Z.of_nat k + n) by lia.
    rewrite IH; [|done|intros i Hi; apply Hall; lia].
    replace (Z.succ a + Z.of_nat k) with (a + Z.of_nat (S k)) by lia.
    f_equal. unfold retry_trace.
    rewrite (seqZ_cons a (Z.of_nat (S k))) by lia.
    replace (Z.pred (Z.of_nat (S k))) with (Z.of_nat k) by lia.
    cbn [flat_map]. by rewrite <- app_assoc.
Qed.
End Retry.

Lemma total_sleep_app tr1 tr2 :
  total_sleep (tr1 ++ tr2) = total_sleep tr1 + total_sleep tr2.
Proof.
  induction tr1 as [|[a|s] tr1 IH]; cbn; [done| |]; unfold total_sleep in *; cbn; lia.
Qed.

Lemma request_count_app tr1 tr2 :
  request_count (tr1 ++ tr2) = (request_count tr1 + request_count tr2)%nat.
Proof. unfold request_count. by rewrite List.filter_app, length_app. Qed.

Lemma retry_trace_S send a k :
  retry_trace send a (S k) =
    retry_trace send a k ++
      [EvRequest (a + Z.of_nat k); EvSleep (backoff (send (a + Z.of_nat k)) (a + Z.of_nat k))].
Proof.
  unfold retry_trace.
  replace (Z.of_nat (S k)) with (Z.of_nat k + 1) by lia.
  rewrite seqZ_app by lia. rewrite flat_map_app. f_equal.
Qed.

Lemma retry_trace_request_count send a k :
  request_count (retry_trace send a k) = k.
Proof.
  induction k as [|k IH]; [done|].
  rewrite retry_trace_S, request_count_app, IH. cbn. lia.
Qed.


Lemma request_loop_final send mr attempt rest tr status body :
  send attempt = HttpResponse status body -> status <> 429 ->
  _request_loop send mr (attempt :: rest) tr =
    (_handle_response status body, tr ++ [EvRequest attempt]).
Proof.
  intros Hs Hne. cbn [_request_loop]. rewrite Hs.
  unfold _handle_response.
  destruct (status =? 401); [done|].
  destruct (status =? 429) eqn:E; [apply Z.eqb_eq in E; done|].
  destruct (status =? 404); [done|].
  by destruct (status >=? 400).
Qed.

Lemma request_after_retries cfg send (k : nat) :
  (forall i, 0 <= i < Z.of_nat k -> retried (send i) = true) ->
  Z.of_nat k < max_retries cfg ->
  _request cfg send =
    _request_loop send (max_retries cfg)
      (Z.of_nat k :: seqZ (Z.of_nat k + 1) (max_retries cfg - Z.of_nat k - 1))
      (retry_trace send 0 k).
Proof.
  intros Hall Hk. unfold _request, py_range.
  replace (max_retries cfg) with (Z.of_nat k + (max_retries cfg - Z.of_nat k)) at 2 by lia.
  rewrite request_loop_prefix; [|lia|intros i Hi; split; [apply Hall|]; lia].
  rewrite Z.add_0_l, app_nil_l, seqZ_cons by lia.
  do 2 f_equal; lia.
Qed.





(** ** Query construction *)

Lemma stage_columns q : Forall (fun p => stage_of p = 1%nat) (columns_part q).
Proof.
  unfold columns_part. apply List.Forall_map.
  induction (default [] (data_columns q)); constructor; done.
Qed.

Lemma stage_facets q : Forall (fun p => stage_of p = 2%nat) (facets_part q).
Proof.
  unfold facets_part. apply List.Forall_flat_map.
  induction (default [] (facets q)) as [|[name values] fs IH]; constructor; [|done].
  unfold facet_pairs. apply List.Forall_map. cbn [fst snd].
  induction values; constructor; done.
Qed.

Lemma stage_period q : Forall (fun p => stage_of p = 3%nat) (period_part q).
Proof.
  unfold period_part, option_pair.
  destruct (str_truthy (frequency q)), (str_truthy (start q)), (str_truthy (end_ q));
    repeat constructor.
Qed.

Lemma stage_sort : forall entries i ps,
  sort_params i entries = Ok ps -> Forall (fun p => stage_of p = 4%nat) ps.
Proof.
  induction entries as [|s rest IH]; intros i ps Hps; cbn in Hps.
  - injection Hps as <-. constructor.
  - unfold sort_pairs in Hps. destruct (s !! "column") as [column|]; [|done].
    cbn in Hps. destruct (sort_params (S i) rest) as [qs|] eqn:Eqs; [|done].
    cbn in Hps. injection Hps as <-.
    repeat constructor. by eapply IH.
Qed.

Lemma stage_length cfg length : Forall (fun p => stage_of p = 5%nat) (length_part cfg length).
Proof. unfold length_part. destruct length as [l|]; [destruct (l =? 0)|]; repeat constructor. Qed.

Lemma stage_offset offset : Forall (fun p => stage_of p = 5%nat) (offset_part offset).
Proof. unfold offset_part. destruct (offset =? 0); repeat constructor. Qed.

(** A block of pairs at one stage in front of pairs at that stage or later. *)
Lemma nondecreasing_block (n m : nat) (a b : list (string * qvalue)) :
  (m <= n)%nat ->
  Forall (fun p => stage_of p = n) a ->
  Forall (fun x => (n <= x)%nat) (map stage_of b) /\ nondecreasing (map stage_of b) = true ->
  Forall (fun x => (m <= x)%nat) (map stage_of (a ++ b))
  /\ nondecreasing (map stage_of (a ++ b)) = true.
Proof.
  intros Hmn Ha [Hb Hnd]. induction Ha as [|p a Hp Ha [IH1 IH2]]; cbn [app map].
  - split; [|done]. eapply Forall_impl; [exact Hb|]. cbn. lia.
  - split; [constructor; [lia|done]|].
    cbn [nondecreasing]. rewrite IH2, andb_true_r.
    apply forallb_forall. intros x Hx.
    rewrite List.map_app in Hx. apply in_app_or in Hx as [Hx|Hx].
    + apply in_map_iff in Hx as (p' & <- & Hp').
      rewrite List.Forall_forall in Ha. rewrite (Ha p' Hp'), Hp. by apply Nat.leb_le.
    + rewrite List.Forall_forall in Hb. specialize (Hb x Hx). apply Nat.leb_le. lia.
Qed.

Lemma get_data_params_stages cfg q length offset params :
  get_data_params cfg q length offset = Ok params ->
  nondecreasing (map stage_of params) = true.
Proof.
  unfold get_data_params. destruct (sort_part q) as [sorted|] eqn:Es; [|done].
  cbn. intros [= <-].
  pose proof (stage_columns q). pose proof (stage_facets q).
  pose proof (stage_period q). pose proof (stage_sort _ _ _ Es).
  pose proof (stage_length cfg length). pose proof (stage_offset offset).
  refine (proj2 (nondecreasing_block 0 0 [_] _ _ _ _)); [lia|by repeat constructor|].
  apply (nondecreasing_block 1); [lia|done|].
  apply (nondecreasing_block 2); [lia|done|].
  apply (nondecreasing_block 3); [lia|done|].
  apply (nondecreasing_block 4); [lia|done|].
  apply (nondecreasing_block 5); [lia|done|].
  rewrite <- (app_nil_r (offset_part offset)).
  apply (nondecreasing_block 5); [lia|done|].
  split; [constructor|done].
Qed.

Lemma all_before_stages P Q (a : nat) params :
  nondecreasing (map stage_of params) = true ->
  (forall k, P k = true -> (stage k <= a)%nat) ->
  (forall k, Q k = true -> (a < stage k)%nat) ->
  all_before P Q params = true.
Proof.
  intros Hnd HP HQ. induction params as [|p rest IH]; [done|].
  cbn [map nondecreasing] in Hnd. apply andb_true_iff in Hnd as [Hle Hnd].
  cbn [all_before]. rewrite IH, andb_true_r by done.
  destruct (Q p.1) eqn:EQ; [|done]. cbn [negb orb].
  apply forallb_forall. intros r Hr.
  destruct (P r.1) eqn:EP; [|done]. exfalso.
  rewrite forallb_forall in Hle.
  specialize (Hle (stage_of r) (in_map _ _ _ Hr)). apply Nat.leb_le in Hle.
  specialize (HP _ EP). specialize (HQ _ EQ). unfold stage_of in Hle. lia.
Qed.

Lemma facet_key_stage k : is_facet_key k = true -> stage k = 2%nat.
Proof. unfold stage. by intros ->. Qed.

Lemma sort_key_stage k : is_sort_key k = true -> stage k = 4%nat.
Proof.
  unfold stage. intros H. rewrite H.
  destruct k as [|c k]; [done|]. unfold is_sort_key, is_facet_key in *.
  cbn [startswith] in H |- *.
  apply andb_true_iff in H as [Hc _]. apply Ascii.eqb_eq in Hc as <-. done.
Qed.

Lemma period_key_stage k : is_period_key k = true -> stage k = 3%nat.
Proof.
  unfold is_period_key. intros H.
  apply orb_true_iff in H as [H|H]; [apply orb_true_iff in H as [H|H]|];
    apply String.eqb_eq in H; by subst.
Qed.

Lemma paging_key_stage k : is_paging_key k = true -> stage k = 5%nat.
Proof.
  unfold is_paging_key. intros H.
  apply orb_true_iff in H as [H|H]; apply String.eqb_eq in H; by subst.
Qed.

Lemma scalar_key_stage k : is_scalar_key k = true -> stage k = 3%nat \/ stage k = 5%nat.
Proof.
  unfold is_scalar_key. intros H. apply orb_true_iff in H as [H|H].
  - left. by apply period_key_stage.
  - right. by apply paging_key_stage.
Qed.

(** C5, as stated, fails: with a frequency and a sort entry, the
    [frequency] pair is emitted before the sort pairs. *)
Lemma get_data_order_counterexample :
  get_data_params (EIAConfig_default "key") example_query (Some 100) 0 =
    Ok [("api_key", QStr "key");
        ("data[]", QStr "nameplate-capacity-mw");
        ("facets[stateid][]", QStr "CA");
        ("facets[stateid][]", QStr "TX");
        ("frequency", QStr "monthly");
        ("start", QStr "2023-01");
        ("sort[0][column]", QStr "period");
        ("sort[0][direction]", QStr "desc");
        ("length", QInt 100)]
  /\ ~ (forall cfg q length offset params,
          get_data_params cfg q length offset = Ok params ->
          facets_sort_scalars_order params = true).
Proof.
  split; [reflexivity|].
  intros H.
  specialize (H (EIAConfig_default "key") example_query (Some 100) 0 _ eq_refl).
  vm_compute in H. discriminate.
Qed.

(** C5, amended.  The pairs come out in the order of the [append] calls:
    API key, columns, facets, period scalars ([frequency], [start], [end]),
    sort entries, paging scalars ([length], [offset]).  So facets precede
    sort entries and every scalar, the period scalars precede the sort
    entries, and only the paging scalars follow them. *)
Theorem get_data_pair_order cfg q length offset params :
  get_data_params cfg q length offset = Ok params ->
  nondecreasing (map stage_of params) = true
  /\ all_before is_facet_key is_sort_key params = true
  /\ all_before is_facet_key is_scalar_key params = true
  /\ all_before is_period_key is_sort_key params = true
  /\ all_before is_sort_key is_paging_key params = true.
Proof.
  intros Hp. apply get_data_params_stages in Hp.
  split; [done|].
  split; [|split; [|split]].
  - apply (all_before_stages _ _ 2); [done| |].
    + intros k Hk. by rewrite facet_key_stage.
    + intros k Hk. rewrite sort_key_stage by done. lia.
  - apply (all_before_stages _ _ 2); [done| |].
    + intros k Hk. by rewrite facet_key_stage.
    + intros k Hk. destruct (scalar_key_stage k Hk) as [-> | ->]; lia.
  - apply (all_before_stages _ _ 3); [done| |].
    + intros k Hk. by rewrite period_key_stage.
    + intros k Hk. rewrite sort_key_stage by done. lia.
  - apply (all_before_stages _ _ 4); [done| |].
    + intros k Hk. by rewrite sort_key_stage.
    + intros k Hk. rewrite paging_key_stage by done. lia.
Qed.

(** C5 amended, on the example query. *)
Lemma get_data_pair_order_witness :
  exists params,
    get_data_params (EIAConfig_default "key") example_query (Some 100) 7 = Ok params
    /\ all_before is_facet_key is_sort_key params = true
    /\ all_before is_period_key is_sort_key params = true
    /\ all_before is_sort_key is_paging_key params = true.
Proof.
  eexists. split; [reflexivity|].
  pose proof (get_data_pair_order (EIAConfig_default "key") example_query (Some 100) 7 _ eq_refl)
    as (_ & H1 & _ & H2 & H3).
  exact (conj H1 (conj H2 H3)).
Defined.

Lemma lookup_param_app k a b :
  lookup_param k (a ++ b) = lookup_param k a ++ lookup_param k b.
Proof. unfold lookup_param. by rewrite List.filter_app, List.map_app. Qed.

Lemma lookup_param_other_stage k n part :
  Forall (fun p => stage_of p = n) part -> stage k <> n -> lookup_param k part = [].
Proof.
  intros Hpart Hk. unfold lookup_param.
  induction Hpart as [|p part Hp _ IH]; [done|].
  cbn [List.filter]. destruct (String.eqb p.1 k) eqn:E; [|done].
  apply String.eqb_eq in E. unfold stage_of in Hp. congruence.
Qed.

(** Only the [length] and [offset] clauses emit those keys. *)
Lemma get_data_params_paging cfg q length offset params k :
  get_data_params cfg q length offset = Ok params -> stage k = 5%nat ->
  lookup_param k params =
    lookup_param k (length_part cfg length) ++ lookup_param k (offset_part offset).
Proof.
  unfold get_data_params. destruct (sort_part q) as [sorted|] eqn:Es; [|done].
  cbn. intros [= <-] Hk.
  change (("api_key", QStr (api_key cfg)) :: ?l) with ([("api_key", QStr (api_key cfg))] ++ l).
  rewrite !lookup_param_app.
  rewrite (lookup_param_other_stage k 0 [_]) by (repeat constructor; lia).
  rewrite (lookup_param_other_stage k 1 _ (stage_columns q)) by lia.
  rewrite (lookup_param_other_stage k 2 _ (stage_facets q)) by lia.
  rewrite (lookup_param_other_stage k 3 _ (stage_period q)) by lia.
  rewrite (lookup_param_other_stage k 4 _ (stage_sort _ _ _ Es)) by lia.
  done.
Qed.

Lemma get_data_params_length cfg q length offset params :
  get_data_params cfg q (Some length) offset = Ok params -> length <> 0 ->
  lookup_param "length" params = [QInt (Z.min length (page_size cfg))].
Proof.
  intros Hp Hl. rewrite (get_data_params_paging _ _ _ _ _ _ Hp) by done.
  unfold length_part, offset_part.
  apply Z.eqb_neq in Hl. rewrite Hl. by destruct (offset =? 0).
Qed.

Lemma get_data_params_offset cfg q length offset params :
  get_data_params cfg q length offset = Ok params ->
  param_int "offset" params 0 = offset.
Proof.
  intros Hp. unfold param_int. rewrite (get_data_params_paging _ _ _ _ _ _ Hp) by done.
  unfold length_part, offset_part.
  destruct length as [l|]; [destruct (l =? 0)|];
    (destruct (offset =? 0) eqn:E; [apply Z.eqb_eq in E|]); done.
Qed.

(** C9, as stated, fails when the client is configured with another page
    size: the ceiling is [config.page_size], of which 5000 is the default. *)
Lemma length_clamp_counterexample :
  (exists params,
     get_data_params small_page_config example_query (Some 200) 0 = Ok params
     /\ lookup_param "length" params = [QInt 100])
  /\ ~ (forall cfg q length offset params,
          0 < length ->
          get_data_params cfg q (Some length) offset = Ok params ->
          lookup_param "length" params = [QInt (Z.min length 5000)]).
Proof.
  split.
  - eexists. split; reflexivity.
  - intros H.
    specialize (H small_page_config example_query 200 0 _ eq_refl eq_refl).
    vm_compute in H. discriminate.
Qed.

(** C9, amended.  For every positive [length] the one [length] pair emitted
    carries [min(length, config.page_size)], which is [min(length, 5000)]
    under the default configuration; the clamp itself never fails: the
    pairs are built exactly when they are built without a [length]. *)
Theorem length_clamped_to_page_size cfg q length offset :
  0 < length ->
  (forall params, get_data_params cfg q (Some length) offset = Ok params ->
     lookup_param "length" params = [QInt (Z.min length (page_size cfg))])
  /\ (page_size cfg = 5000 ->
      forall params, get_data_params cfg q (Some length) offset = Ok params ->
        lookup_param "length" params = [QInt (Z.min length 5000)])
  /\ is_ok (get_data_params cfg q (Some length) offset)
       = is_ok (get_data_params cfg q None offset).
Proof.
  intros Hl. split; [|split].
  - intros params Hp. apply (get_data_params_length _ _ _ _ _ Hp). lia.
  - intros Hps params Hp. rewrite <- Hps. apply (get_data_params_length _ _ _ _ _ Hp). lia.
  - unfold get_data_params. by destruct (sort_part q).
Qed.

(** C9 amended, at the default configuration with [length = 9000]. *)
Lemma length_clamped_to_page_size_witness :
  exists params,
    get_data_params (EIAConfig_default "key") example_query (Some 9000) 0 = Ok params
    /\ lookup_param "length" params = [QInt 5000].
Proof.
  eexists. split; [reflexivity|].
  refine (proj1 (proj2 (length_clamped_to_page_size (EIAConfig_default "key")
    example_query 9000 0 _)) eq_refl _ eq_refl).
  lia.
Defined.

(** ** Pagination *)

Lemma paginate_loop_page_loop fuel fetch_func ps maxr : forall offset total ys log,
  paginate_loop fuel fetch_func ps maxr offset total ys log =
    page_loop fuel
      (fun offset => response ← fetch_func offset ps; paginate_page response offset)
      ps maxr offset total ys log.
Proof.
  induction fuel as [|fuel IH]; intros offset total ys log; [done|].
  cbn [paginate_loop page_loop].
  destruct (_ ← fetch_func offset ps; _) as [[data more]|e]; [|done].
  destruct (negb (truthy data)); [done|].
  destruct (py_iter data) as [items|e]; [|done].
  destruct (yield_page maxr total items) as [[new t] returned].
  destruct returned; [done|].
  destruct (py_len data) as [n|e]; [|done].
  destruct (negb more || (n <? ps)); [done|]. apply IH.
Qed.

Lemma get_all_data_loop_page_loop fuel cfg tp q maxr : forall offset total ys log,
  get_all_data_loop fuel cfg tp q maxr offset total ys log =
    page_loop fuel
      (fun offset =>
         response ← (get_data cfg tp q (Some (page_size cfg)) offset).1;
         resp ← py_get response "response" (PyDict ∅);
         data ← py_get resp "data" (PyList []);
         Ok (data, true))
      (page_size cfg) maxr offset total ys log.
Proof.
  induction fuel as [|fuel IH]; intros offset total ys log; [done|].
  cbn [get_all_data_loop page_loop].
  destruct (get_data cfg tp q (Some (page_size cfg)) offset).1 as [response|e]; [|done].
  cbn [mbind result_bind].
  destruct (py_get response "response" (PyDict ∅)) as [resp|e]; [|done].
  cbn [mbind result_bind].
  destruct (py_get resp "data" (PyList [])) as [data|e]; [|done].
  cbn [mbind result_bind].
  destruct (negb (truthy data)); [done|].
  destruct (py_iter data) as [items|e]; [|done].
  destruct (yield_page maxr total items) as [[new t] returned].
  destruct returned; [done|].
  destruct (py_len data) as [n|e]; [|done].
  cbn [negb orb].
  destruct (n <? page_size cfg); [done|]. apply IH.
Qed.

Lemma yield_page_all maxr : forall items t,
  (forall m, maxr = Some m -> t + Z.of_nat (length items) < m) ->
  yield_page maxr t items = (items, t + Z.of_nat (length items), false).
Proof.
  induction items as [|record rest IH]; intros t Hroom.
  - cbn. by rewrite Z.add_0_r.
  - cbn [yield_page].
    assert (cap_reached maxr (t + 1) = false) as ->.
    { destruct maxr as [m|]; [|done]. cbn.
      specialize (Hroom m eq_refl). cbn [length] in Hroom.
      apply andb_false_intro2. lia. }
    rewrite IH.
    + do 2 f_equal. cbn [length]. lia.
    + intros m Hm. specialize (Hroom m Hm). cbn [length] in Hroom. lia.
Qed.

Lemma yield_page_cap m : forall items t,
  0 < m -> t < m -> m <= t + Z.of_nat (length items) ->
  yield_page (Some m) t items = (take (Z.to_nat (m - t)) items, m, true).
Proof.
  induction items as [|record rest IH]; intros t Hm Ht Hlen.
  - cbn in Hlen. lia.
  - cbn [yield_page cap_reached].
    assert (negb (m =? 0) = true) as -> by lia. cbn [andb].
    destruct (m <=? t + 1) eqn:E.
    + assert (m = t + 1) as -> by lia.
      replace (t + 1 - t) with 1 by lia. done.
    + rewrite IH by (cbn [length] in Hlen; lia).
      replace (Z.to_nat (m - t)) with (S (Z.to_nat (m - (t + 1)))) by lia.
      done.
Qed.

Lemma expected_count_le records maxr :
  (expected_count records maxr <= length records)%nat.
Proof. unfold expected_count. destruct maxr; lia. Qed.

Section MockSource.
Variable records : list pyval.
Variable ps : Z.
Variable maxr : option Z.
Variable page_at : Z -> result (pyval * bool).

Hypothesis ps_pos : 0 < ps.
Hypothesis cap_pos : forall m, maxr = Some m -> 0 < m.
(** The pages are those of the mock source, and [has_more] is false only
    on a page that reaches the end of the records. *)
Hypothesis page_at_mock : forall o : nat, (o <= length records)%nat ->
  exists more,
    page_at (Z.of_nat o) = Ok (PyList (mock_page records (Z.of_nat o) ps), more)
    /\ (more = false -> (length records <= o + Z.to_nat ps)%nat).

Lemma mock_page_nat (o : nat) :
  mock_page records (Z.of_nat o) ps = take (Z.to_nat ps) (drop o records).
Proof. unfold mock_page. by rewrite Nat2Z.id. Qed.

(** From any page boundary [o] not yet at the cap, the loop ends normally
    having yielded the records from [o] up to the expected count. *)
Lemma page_loop_mock (n : nat) : forall (fuel o : nat) ys log,
  (n < fuel)%nat -> (length records - o <= n)%nat -> (o <= length records)%nat ->
  (forall m, maxr = Some m -> Z.of_nat o < m) ->
  exists log',
    page_loop fuel page_at ps maxr (Z.of_nat o) (Z.of_nat o) ys log =
      Some {| yielded := ys ++ take (expected_count records maxr - o) (drop o records);
              finished := Ok ();
              page_requests := log' |}.
Proof.
  induction n as [|n IH]; intros fuel o ys log Hfuel Hn Ho Hroom.
  all: destruct fuel as [|fuel]; [lia|].
  all: cbn [page_loop].
  all: destruct (page_at_mock o Ho) as (more & -> & Hmore).
  all: rewrite mock_page_nat.
  all: set (P := Z.to_nat ps) in *.
  all: assert (HP : (0 < P)%nat) by (unfold P; lia).
  all: destruct (take P (drop o records)) as [|r page] eqn:Epage.
  1,3: (* the empty page: the records are exhausted *)
    assert (Hend : drop o records = [])
      by (destruct (drop o records); [done|]; destruct P; [lia|done]);
    cbn; rewrite Hend, take_nil, app_nil_r; eauto.
  all: assert (Hk : length (r :: page) = (P `min` (length records - o))%nat)
    by (rewrite <- Epage, length_take, length_drop; done).
  all: cbn [truthy negb py_iter py_len].
  all: set (items := r :: page) in *.
  - (* no further page can follow *)
    assert (o = length records) by lia. subst o.
    rewrite Nat.sub_diag, Nat.min_0_r in Hk. done.
  - assert (Hd : (exists m, maxr = Some m /\ m <= Z.of_nat o + Z.of_nat (length items))
                 \/ (forall m, maxr = Some m -> Z.of_nat o + Z.of_nat (length items) < m)).
    { destruct (maxr) as [m|] eqn:Em; [|by right].
      destruct (decide (m <= Z.of_nat o + Z.of_nat (length items))); [left; eauto|].
      right. intros ? [= <-]. lia. }
    destruct Hd as [(m & Hm & Hle)|Hnocap].
    + (* the cap falls inside this page *)
      rewrite Hm, yield_page_cap by (try apply cap_pos; try apply Hroom; done).
      eexists. unfold stop. do 2 f_equal.
      f_equal. rewrite <- Epage, take_take. unfold expected_count.
      f_equal. lia.
    + rewrite yield_page_all by done.
      assert (Hcount : (Z.of_nat o + Z.of_nat (length items) <= Z.of_nat (length records)) ->
                expected_count records maxr = length records \/
                (o + length items < expected_count records maxr)%nat).
      { intros Hin. unfold expected_count. destruct (maxr) as [m|] eqn:Em; [|lia].
        specialize (Hnocap m eq_refl). lia. }
      destruct (negb more || (Z.of_nat (length items) <? ps)) eqn:Estop.
      * (* the last page *)
        assert (Hshort : (length records - o <= P)%nat).
        { apply orb_true_iff in Estop as [Hm|Hlt].
          - apply negb_true_iff in Hm. specialize (Hmore Hm). lia.
          - apply Z.ltb_lt in Hlt. lia. }
        eexists. unfold stop. do 2 f_equal.
        f_equal. rewrite <- Epage.
        rewrite (take_ge (drop o records) P) by (rewrite length_drop; lia).
        pose proof (expected_count_le records maxr).
        specialize (Hcount ltac:(lia)).
        by rewrite take_ge by (rewrite length_drop; lia).
      * (* a full page with more to come *)
        apply orb_false_iff in Estop as [_ Hfull]. apply Z.ltb_ge in Hfull.
        assert (Hlen : length items = P) by lia.
        replace (Z.of_nat o + Z.of_nat (length items)) with (Z.of_nat (o + P)) by lia.
        destruct (IH fuel (o + P)%nat (ys ++ items) (log ++ [(Z.of_nat o, ps)]))
          as [log' Hrun]; [lia|lia|lia| |].
        { intros m Hm. specialize (Hnocap m Hm). lia. }
        rewrite Hrun. eexists. do 2 f_equal.
        rewrite <- app_assoc. f_equal.
        rewrite <- Epage.
        rewrite <- (drop_drop records P o), take_take_drop. f_equal.
        pose proof (expected_count_le records maxr).
        specialize (Hcount ltac:(lia)). lia.
Qed.

(** The scenario of the specification, step by step: seven records, pages
    of two, a cap of five. *)
Lemma page_loop_mock_scenario r1 r2 r3 r4 r5 r6 r7 (extra : nat) ys log :
  records = [r1; r2; r3; r4; r5; r6; r7] -> ps = 2 -> maxr = Some 5 ->
  page_loop (3 + extra) page_at ps maxr 0 0 ys log =
    Some {| yielded := ys ++ [r1; r2; r3; r4; r5];
            finished := Ok ();
            page_requests := log ++ [(0, 2); (2, 2); (4, 2)] |}.
Proof.
  intros Hr Hps Hm.
  destruct (page_at_mock 0) as (m0 & H0 & Hm0); [rewrite Hr; cbn; lia|].
  destruct (page_at_mock 2) as (m2 & H2 & Hm2); [rewrite Hr; cbn; lia|].
  destruct (page_at_mock 4) as (m4 & H4 & Hm4); [rewrite Hr; cbn; lia|].
  rewrite Hr, Hps in *. rewrite Hm.
  destruct m0; [|specialize (Hm0 eq_refl); cbn in Hm0; lia].
  destruct m2; [|specialize (Hm2 eq_refl); cbn in Hm2; lia].
  change (3 + extra)%nat with (S (S (S extra))).
  cbn [page_loop].
  change (Z.of_nat 0) with 0 in H0. change (Z.of_nat 2) with 2 in H2.
  change (Z.of_nat 4) with 4 in H4.
  change (mock_page _ 0 2) with [r1; r2] in H0.
  change (mock_page _ 2 2) with [r3; r4] in H2.
  change (mock_page _ 4 2) with [r5; r6] in H4.
  rewrite H0. cbn [truthy negb py_iter py_len length].
  change (yield_page (Some 5) 0 [r1; r2]) with ([r1; r2], 2, false).
  change (negb true || (Z.of_nat 2 <? 2)) with false.
  change (0 + Z.of_nat 2) with 2. cbv iota.
  rewrite H2. cbn [truthy negb py_iter py_len length].
  change (yield_page (Some 5) 2 [r3; r4]) with ([r3; r4], 4, false).
  change (negb true || (Z.of_nat 2 <? 2)) with false.
  change (2 + Z.of_nat 2) with 4. cbv iota.
  rewrite H4. cbn [truthy negb py_iter py_len length].
  change (yield_page (Some 5) 4 [r5; r6]) with ([r5], 5, true).
  cbv iota. unfold stop. by rewrite <- !app_assoc.
Qed.
End MockSource.

(** ** Pagination against the mock source *)

Lemma mock_body_data records offset limit :
  (resp ← py_get (mock_body records offset limit) "response" (PyDict ∅);
   py_get resp "data" (PyList [])) = Ok (PyList (mock_page records offset limit)).
Proof.
  unfold mock_body. cbn [py_get]. unfold dict_get. rewrite lookup_singleton_eq.
  cbn [mbind result_bind py_get]. unfold dict_get. by rewrite lookup_insert_eq.
Qed.

Lemma mock_body_total records offset limit :
  (resp ← py_get (mock_body records offset limit) "response" (PyDict ∅);
   py_get resp "total" (PyInt 0)) = Ok (PyInt (Z.of_nat (length records))).
Proof.
  unfold mock_body. cbn [py_get]. unfold dict_get. rewrite lookup_singleton_eq.
  cbn [mbind result_bind py_get]. unfold dict_get.
  by rewrite lookup_insert_ne, lookup_singleton_eq.
Qed.

Lemma paginate_page_mock records offset limit :
  (response ← mock_fetch records offset limit; paginate_page response offset) =
    Ok (PyList (mock_page records offset limit),
        offset + Z.of_nat (length (mock_page records offset limit))
          <? Z.of_nat (length records)).
Proof.
  unfold mock_fetch. cbn [mbind result_bind paginate_page].
  pose proof (mock_body_data records offset limit) as Hd.
  pose proof (mock_body_total records offset limit) as Ht.
  destruct (py_get (mock_body records offset limit) "response" (PyDict ∅)) as [resp|]; [|done].
  cbn [mbind result_bind] in *. rewrite Hd. cbn [mbind result_bind]. rewrite Ht. done.
Qed.

Lemma paginate_page_mock_typed records offset limit :
  (response ← mock_fetch_typed records offset limit; paginate_page response offset) =
    Ok (PyList (mock_page records offset limit),
        offset + Z.of_nat (length (mock_page records offset limit))
          <? Z.of_nat (length records)).
Proof. done. Qed.

(** One request to a transport that answers 200 at once. *)
Lemma request_immediate cfg send body :
  1 <= max_retries cfg -> send 0 = HttpResponse 200 body ->
  _request cfg send = (Ok body, [EvRequest 0]).
Proof.
  intros Hmr Hs.
  rewrite (request_after_retries cfg send 0) by (try (intros i Hi); lia).
  by rewrite (request_loop_final _ _ _ _ _ _ _ Hs).
Qed.

Lemma get_data_mock cfg records q offset :
  is_ok (sort_part q) = true -> 1 <= max_retries cfg -> 0 < page_size cfg ->
  (get_data cfg (mock_transport records) q (Some (page_size cfg)) offset).1 =
    Ok (mock_body records offset (page_size cfg)).
Proof.
  intros Hsort Hmr Hps. unfold get_data.
  destruct (get_data_params cfg q (Some (page_size cfg)) offset) as [params|] eqn:Ep.
  - rewrite (request_immediate _ _ (mock_body records offset (page_size cfg))); [done..|].
    unfold mock_transport. do 2 f_equal.
    + by apply get_data_params_offset in Ep.
    + unfold param_int. rewrite (get_data_params_length _ _ _ _ _ Ep) by lia.
      lia.
  - unfold get_data_params in Ep. by destruct (sort_part q).
Qed.

(** Both sources report [has_more = false] only at the end of the records. *)
Lemma mock_has_more_end records (o : nat) ps :
  0 < ps ->
  (Z.of_nat o + Z.of_nat (length (mock_page records (Z.of_nat o) ps))
     <? Z.of_nat (length records)) = false ->
  (length records <= o + Z.to_nat ps)%nat.
Proof.
  intros Hps H. apply Z.ltb_ge in H.
  unfold mock_page in H. rewrite Nat2Z.id, length_take, length_drop in H. lia.
Qed.

Lemma get_all_data_page_mock cfg records q offset :
  is_ok (sort_part q) = true -> 1 <= max_retries cfg -> 0 < page_size cfg ->
  (response ← (get_data cfg (mock_transport records) q (Some (page_size cfg)) offset).1;
   resp ← py_get response "response" (PyDict ∅);
   data ← py_get resp "data" (PyList []);
   Ok (data, true)) = Ok (PyList (mock_page records offset (page_size cfg)), true).
Proof.
  intros Hsort Hmr Hps. rewrite get_data_mock by done.
  cbn [mbind result_bind].
  pose proof (mock_body_data records offset (page_size cfg)) as Hd.
  destruct (py_get (mock_body records offset (page_size cfg)) "response" (PyDict ∅))
    as [resp|]; [|done].
  cbn [mbind result_bind] in *. by rewrite Hd.
Qed.

Lemma complete_run_from_start records maxr run log :
  run = Some {| yielded := [] ++ take (expected_count records maxr - 0) (drop 0 records);
                finished := Ok ();
                page_requests := log |} ->
  complete_run records maxr run.
Proof. intros ->. exists log. by rewrite Nat.sub_0_r. Qed.

(** C1. Against a source that holds finitely many records and serves them
    in slices, with a positive page size and a cap that is positive or
    absent, [paginate] (for raw and for [PaginatedResponse] pages) and
    [get_all_data] end normally having yielded the first
    [min(total, max_records)] records of the source, each once and in
    source order.  With pages of 2, a cap of 5 and 7 records, 5 records are
    yielded and the pages at offsets 0, 2 and 4 are requested. *)
Theorem paginated_fetch_complete (records : list pyval) (ps : Z) (maxr : option Z) :
  0 < ps ->
  (forall m, maxr = Some m -> 0 < m) ->
  (forall fuel, (length records < fuel)%nat ->
     complete_run records maxr (paginate fuel (mock_fetch records) ps maxr)
     /\ complete_run records maxr (paginate fuel (mock_fetch_typed records) ps maxr)
     /\ (forall cfg q,
           page_size cfg = ps -> 1 <= max_retries cfg -> is_ok (sort_part q) = true ->
           complete_run records maxr (get_all_data fuel cfg (mock_transport records) q maxr)))
  /\ length (take (expected_count records maxr) records) = expected_count records maxr
  /\ Z.of_nat (expected_count records maxr) =
       match maxr with
       | Some m => Z.min (Z.of_nat (length records)) m
       | None => Z.of_nat (length records)
       end
  /\ (NoDup records -> NoDup (take (expected_count records maxr) records))
  /\ (ps = 2 -> maxr = Some 5 -> length records = 7%nat ->
      forall extra,
        let run := Some {| yielded := take 5 records;
                           finished := Ok ();
                           page_requests := [(0, 2); (2, 2); (4, 2)] |} in
        paginate (3 + extra) (mock_fetch records) ps maxr = run
        /\ paginate (3 + extra) (mock_fetch_typed records) ps maxr = run
        /\ (forall cfg q,
              page_size cfg = ps -> 1 <= max_retries cfg -> is_ok (sort_part q) = true ->
              get_all_data (3 + extra) cfg (mock_transport records) q maxr = run)).
Proof.
  intros Hps Hcap.
  assert (Hraw : forall o : nat, (o <= length records)%nat ->
    exists more,
      (response ← mock_fetch records (Z.of_nat o) ps; paginate_page response (Z.of_nat o)) =
        Ok (PyList (mock_page records (Z.of_nat o) ps), more)
      /\ (more = false -> (length records <= o + Z.to_nat ps)%nat)).
  { intros o _. eexists. split; [apply paginate_page_mock|].
    by apply mock_has_more_end. }
  assert (Htyped : forall o : nat, (o <= length records)%nat ->
    exists more,
      (response ← mock_fetch_typed records (Z.of_nat o) ps;
       paginate_page response (Z.of_nat o)) =
        Ok (PyList (mock_page records (Z.of_nat o) ps), more)
      /\ (more = false -> (length records <= o + Z.to_nat ps)%nat)).
  { intros o _. eexists. split; [apply paginate_page_mock_typed|].
    by apply mock_has_more_end. }
  assert (Hall : forall cfg q,
    page_size cfg = ps -> 1 <= max_retries cfg -> is_ok (sort_part q) = true ->
    forall o : nat, (o <= length records)%nat ->
    exists more,
      (response ← (get_data cfg (mock_transport records) q (Some ps) (Z.of_nat o)).1;
       resp ← py_get response "response" (PyDict ∅);
       data ← py_get resp "data" (PyList []);
       Ok (data, true)) =
        Ok (PyList (mock_page records (Z.of_nat o) ps), more)
      /\ (more = false -> (length records <= o + Z.to_nat ps)%nat)).
  { intros cfg q Hcfg Hmr Hsort o _. exists true. split; [|done].
    rewrite <- Hcfg. apply get_all_data_page_mock; (done || lia). }
  split; [|split; [|split; [|split]]].
  - intros fuel Hfuel. split; [|split].
    + unfold paginate. rewrite paginate_loop_page_loop.
      destruct (page_loop_mock records ps maxr
                  (fun offset => response ← mock_fetch records offset ps; paginate_page response offset)
                  Hps Hcap Hraw (length records) fuel 0 [] []
                  Hfuel ltac:(lia) ltac:(lia) Hcap) as [log Hrun].
      by eapply complete_run_from_start.
    + unfold paginate. rewrite paginate_loop_page_loop.
      destruct (page_loop_mock records ps maxr
                  (fun offset => response ← mock_fetch_typed records offset ps; paginate_page response offset)
                  Hps Hcap Htyped (length records) fuel 0 [] []
                  Hfuel ltac:(lia) ltac:(lia) Hcap) as [log Hrun].
      by eapply complete_run_from_start.
    + intros cfg q Hcfg Hmr Hsort.
      unfold get_all_data. rewrite get_all_data_loop_page_loop, Hcfg.
      destruct (page_loop_mock records ps maxr
                  (fun offset =>
                     response ← (get_data cfg (mock_transport records) q
                                   (Some ps) offset).1;
                     resp ← py_get response "response" (PyDict ∅);
                     data ← py_get resp "data" (PyList []);
                     Ok (data, true))
                  Hps Hcap (Hall cfg q Hcfg Hmr Hsort)
                  (length records) fuel 0 [] []
                  Hfuel ltac:(lia) ltac:(lia) Hcap) as [log Hrun].
      by eapply complete_run_from_start.
  - rewrite length_take. pose proof (expected_count_le records maxr). lia.
  - unfold expected_count. destruct maxr as [m|]; [|done].
    specialize (Hcap m eq_refl). lia.
  - intros Hnd. rewrite <- (take_drop (expected_count records maxr) records) in Hnd.
    by apply NoDup_app in Hnd as [? _].
  - intros -> -> Hlen extra run.
    assert (Hr : exists r1 r2 r3 r4 r5 r6 r7, records = [r1; r2; r3; r4; r5; r6; r7]).
    { destruct records as [|r1 [|r2 [|r3 [|r4 [|r5 [|r6 [|r7 [|]]]]]]]]; try done.
      eauto 10. }
    destruct Hr as (r1 & r2 & r3 & r4 & r5 & r6 & r7 & Hr).
    assert (Hrun : run = Some {| yielded := [] ++ [r1; r2; r3; r4; r5];
                                 finished := Ok ();
                                 page_requests := [] ++ [(0, 2); (2, 2); (4, 2)] |})
      by (unfold run; by rewrite Hr).
    rewrite Hrun.
    split; [|split].
    + unfold paginate. rewrite paginate_loop_page_loop.
      by apply (page_loop_mock_scenario records 2 (Some 5)
                 (fun offset => response ← mock_fetch records offset 2;
                                paginate_page response offset)
                 Hps Hraw r1 r2 r3 r4 r5 r6 r7).
    + unfold paginate. rewrite paginate_loop_page_loop.
      by apply (page_loop_mock_scenario records 2 (Some 5)
                 (fun offset => response ← mock_fetch_typed records offset 2;
                                paginate_page response offset)
                 Hps Htyped r1 r2 r3 r4 r5 r6 r7).
    + intros cfg q Hcfg Hmr Hsort.
      unfold get_all_data. rewrite get_all_data_loop_page_loop, Hcfg.
      by apply (page_loop_mock_scenario records 2 (Some 5)
                 (fun offset =>
                    response ← (get_data cfg (mock_transport records) q (Some 2) offset).1;
                    resp ← py_get response "response" (PyDict ∅);
                    data ← py_get resp "data" (PyList []);
                    Ok (data, true))
                 Hps (Hall cfg q Hcfg Hmr Hsort) r1 r2 r3 r4 r5 r6 r7).
Qed.

(** C1, on the scenario itself: seven records, pages of two, a cap of
    five. *)
Lemma paginated_fetch_complete_witness :
  paginate 8 (mock_fetch seven_records) 2 (Some 5) =
    Some {| yielded := map PyInt [1; 2; 3; 4; 5];
            finished := Ok ();
            page_requests := [(0, 2); (2, 2); (4, 2)] |}.
Proof.
  assert (Hps : 0 < 2) by lia.
  assert (Hcap : forall m, Some 5 = Some m -> 0 < m) by (intros m [= <-]; lia).
  pose proof (paginated_fetch_complete seven_records 2 (Some 5) Hps Hcap)
    as (_ & _ & _ & _ & H).
  exact (proj1 (H eq_refl eq_refl eq_refl 5%nat)).
Defined.

(** ** Polygon analytics *)

Example box_inside : point_in_polygon 35 (-95) box_polygon = Ok true.
Proof. reflexivity. Qed.

Example box_outside : point_in_polygon 35 (-85) box_polygon = Ok false.
Proof. reflexivity. Qed.

Lemma Qgtb_true a b : Qgtb a b = true <-> (b < a)%Q.
Proof.
  unfold Qgtb. rewrite negb_true_iff. split.
  - intros H. apply Qnot_le_lt. intros Hle. apply Qle_bool_iff in Hle. congruence.
  - intros H. destruct (Qle_bool a b) eqn:E; [|done].
    apply Qle_bool_iff in E. exfalso. by apply (Qlt_not_le _ _ H).
Qed.

Lemma Qgtb_false a b : Qgtb a b = false <-> (a <= b)%Q.
Proof. unfold Qgtb. rewrite negb_false_iff. apply Qle_bool_iff. Qed.

Lemma Qltb_true a b : Qltb a b = true <-> (a < b)%Q.
Proof. apply Qgtb_true. Qed.

Lemma Qltb_false a b : Qltb a b = false <-> (b <= a)%Q.
Proof. apply Qgtb_false. Qed.

(** The two ways an edge can straddle a latitude. *)
Lemma straddles_cases lat (a b : vertex) :
  straddles lat a b = true <->
  ((lat < a.1 /\ b.1 <= lat) \/ (a.1 <= lat /\ lat < b.1))%Q.
Proof.
  unfold straddles.
  destruct (Qgtb a.1 lat) eqn:Ea, (Qgtb b.1 lat) eqn:Eb; cbn.
  - apply Qgtb_true in Ea, Eb.
    split; [done|]. intros [[H1 H2]|[H1 H2]]; exfalso; lra.
  - apply Qgtb_true in Ea. apply Qgtb_false in Eb.
    split; [|done]. intros _. by left.
  - apply Qgtb_false in Ea. apply Qgtb_true in Eb.
    split; [|done]. intros _. by right.
  - apply Qgtb_false in Ea, Eb.
    split; [done|]. intros [[H1 H2]|[H1 H2]]; exfalso; lra.
Qed.

Lemma straddles_denominator lat (a b : vertex) :
  straddles lat a b = true -> ~ (b.1 - a.1 == 0)%Q.
Proof. rewrite straddles_cases. intros [[H1 H2]|[H1 H2]] H0; lra. Qed.

Lemma crosses_crossing lat lon (a b : vertex) :
  crosses lat lon a b = Ok (crossing lat lon (a, b)).
Proof.
  unfold crosses, crossing. cbn [fst snd].
  destruct (straddles lat a b) eqn:Es; [|done].
  unfold py_div. destruct (Qeq_bool (b.1 - a.1) 0) eqn:E0.
  - apply Qeq_bool_iff in E0. by apply straddles_denominator in Es.
  - done.
Qed.

Lemma py_index_app {A} (prefix : list A) v rest :
  py_index (prefix ++ v :: rest) (Z.of_nat (length prefix)) = Ok v.
Proof.
  unfold py_index. rewrite length_app. cbn [length].
  assert (Hn : (Z.of_nat (length prefix) <? 0) = false) by (apply Z.ltb_ge; lia).
  rewrite !Hn.
  assert (Hr : (Z.of_nat (length prefix + S (length rest)) <=? Z.of_nat (length prefix)) = false)
    by (apply Z.leb_gt; lia).
  rewrite Hr. cbn [orb]. rewrite Nat2Z.id.
  rewrite list_lookup_middle by done. done.
Qed.

Lemma py_index_last {A} (l : list A) (d : A) :
  l <> [] -> py_index l (Z.of_nat (length l) - 1) = Ok (List.last l d).
Proof.
  intros Hne. destruct (exists_last Hne) as (prefix & v & ->).
  rewrite last_last, length_app. cbn [length].
  replace (Z.of_nat (length prefix + 1) - 1) with (Z.of_nat (length prefix)) by lia.
  apply py_index_app.
Qed.

Lemma point_in_polygon_loop_consec lat lon polygon : forall rest prefix inside j pj,
  polygon = prefix ++ rest ->
  py_index polygon j = Ok pj ->
  point_in_polygon_loop lat lon polygon
    (seqZ (Z.of_nat (length prefix)) (Z.of_nat (length rest))) inside j
  = Ok (foldl (toggle lat lon) inside (consec pj rest)).
Proof.
  induction rest as [|v rest IH]; intros prefix inside j pj Hp Hj; [done|].
  rewrite seqZ_cons by (cbn [length]; lia).
  cbn [point_in_polygon_loop consec foldl].
  rewrite Hp at 1. rewrite py_index_app. cbn [mbind result_bind].
  rewrite Hj. cbn [mbind result_bind].
  rewrite crosses_crossing. cbn [mbind result_bind].
  replace (Z.succ (Z.of_nat (length prefix))) with (Z.of_nat (length (prefix ++ [v])))
    by (rewrite length_app; cbn [length]; lia).
  replace (Z.pred (Z.of_nat (length (v :: rest)))) with (Z.of_nat (length rest))
    by (cbn [length]; lia).
  rewrite (IH (prefix ++ [v]) _ _ v).
  - done.
  - by rewrite <- app_assoc.
  - replace (Z.of_nat (length (prefix ++ [v]))) with (Z.of_nat (length prefix) + 1)
      by (rewrite length_app; cbn [length]; lia).
    replace (Z.of_nat (length prefix) + 1 - 1) with (Z.of_nat (length prefix)) by lia.
    rewrite Hp. apply py_index_app.
Qed.

Lemma foldl_toggle lat lon es : forall inside,
  foldl (toggle lat lon) inside es = xorb inside (odd_crossings lat lon es).
Proof.
  induction es as [|e es IH]; intros inside; cbn [foldl odd_crossings foldr].
  - by destruct inside.
  - rewrite IH. unfold toggle, odd_crossings.
    by destruct (crossing lat lon e), inside, (foldr _ _ es).
Qed.

(** The loop computes the parity of the crossing edges, and never raises. *)
Lemma point_in_polygon_edges lat lon polygon :
  point_in_polygon lat lon polygon = Ok (odd_crossings lat lon (edges polygon)).
Proof.
  unfold point_in_polygon, py_range, edges.
  destruct (decide (polygon = [])) as [->|Hne]; [done|].
  rewrite (point_in_polygon_loop_consec lat lon polygon polygon [] false _
             (List.last polygon (0%Q, 0%Q))); [|done|by apply py_index_last].
  by rewrite foldl_toggle.
Qed.

(** In exact arithmetic [point_in_polygon] returns a boolean for every
    point and every vertex list.  The division is reached only under the
    straddle guard, and the guard forces the two vertex latitudes apart, so
    the divisor is not zero and no [ZeroDivisionError] is raised; the
    indices stay in range, so no [IndexError] is raised either. *)
Lemma point_in_polygon_total (lat lon : Q) (polygon : list vertex) :
  (forall pi pj : vertex,
     straddles lat pi pj = true ->
     ~ (pj.1 - pi.1 == 0)%Q
     /\ py_div ((pj.2 - pi.2) * (lat - pi.1))%Q (pj.1 - pi.1)%Q
        = Ok ((pj.2 - pi.2) * (lat - pi.1) / (pj.1 - pi.1))%Q)
  /\ (forall pi pj : vertex,
        straddles lat pi pj = false -> crosses lat lon pi pj = Ok false)
  /\ (forall pi pj : vertex, exists c, crosses lat lon pi pj = Ok c)
  /\ exists inside, point_in_polygon lat lon polygon = Ok inside.
Proof.
  split; [|split; [|split]].
  - intros pi pj Hs. pose proof (straddles_denominator _ _ _ Hs) as Hd.
    split; [done|]. unfold py_div.
    destruct (Qeq_bool (pj.1 - pi.1) 0) eqn:E; [|done].
    by apply Qeq_bool_iff in E.
  - intros pi pj Hs. unfold crosses. by rewrite Hs.
  - intros pi pj. eexists. apply crosses_crossing.
  - eexists. apply point_in_polygon_edges.
Qed.

(** *** Rotation and reversal *)

Lemma last_app_default {A} (a b : list A) d :
  List.last (a ++ b) d = List.last b (List.last a d).
Proof.
  destruct (decide (b = [])) as [->|Hb]; [by rewrite app_nil_r|].
  destruct (exists_last Hb) as (b' & z & ->).
  by rewrite app_assoc, !last_last.
Qed.

Lemma last_nonempty {A} (l : list A) d d' : l <> [] -> List.last l d = List.last l d'.
Proof.
  intros Hne. destruct (exists_last Hne) as (l' & x & ->). by rewrite !last_last.
Qed.

Lemma consec_app p a b :
  consec p (a ++ b) = consec p a ++ consec (List.last a p) b.
Proof.
  revert p. induction a as [|v a IH]; intros p; [done|].
  cbn [app consec]. rewrite IH. do 3 f_equal.
  destruct a as [|w a]; [done|].
  transitivity (List.last (w :: a) p); [by apply last_nonempty|done].
Qed.

Lemma edges_swap_blocks (t d : list vertex) : edges (d ++ t) ≡ₚ edges (t ++ d).
Proof.
  destruct (decide (t = [])) as [->|Ht]; [by rewrite app_nil_r|].
  destruct (decide (d = [])) as [->|Hd]; [by rewrite app_nil_r|].
  unfold edges. rewrite !consec_app, !last_app_default.
  rewrite Permutation_app_comm. apply Permutation_app; apply reflexive_eq.
  - f_equal. by apply last_nonempty.
  - f_equal. by apply last_nonempty.
Qed.

Lemma edges_rotate k polygon : edges (rotate k polygon) ≡ₚ edges polygon.
Proof.
  unfold rotate. rewrite edges_swap_blocks. by rewrite take_drop.
Qed.

Lemma odd_crossings_perm lat lon es es' :
  es ≡ₚ es' -> odd_crossings lat lon es = odd_crossings lat lon es'.
Proof.
  unfold odd_crossings. induction 1 as [|e es es' _ IH|e e' es|es es' es'' _ IH1 _ IH2].
  - done.
  - cbn. by rewrite IH.
  - cbn. by destruct (crossing lat lon e), (crossing lat lon e'), (foldr _ _ es).
  - by rewrite IH1.
Qed.

Lemma last_cons_default {A} (v : A) l p : List.last (v :: l) p = List.last l v.
Proof.
  destruct l as [|w l]; [done|].
  transitivity (List.last (w :: l) p); [done|by apply last_nonempty].
Qed.

(** Walking a path backwards visits the flipped edges in reverse order. *)
Lemma consec_reverse_path : forall l p,
  consec (List.last l p) (reverse (removelast (p :: l))) = reverse (map flip (consec p l)).
Proof.
  induction l as [|v l IH]; intros p; [done|].
  change (removelast (p :: v :: l)) with (p :: removelast (v :: l)).
  rewrite reverse_cons, consec_app, last_cons_default, IH.
  cbn [consec map]. rewrite reverse_cons. f_equal. cbn [consec]. do 2 f_equal.
  destruct l as [|w l]; [done|].
  change (removelast (v :: w :: l)) with (v :: removelast (w :: l)).
  by rewrite reverse_cons, last_last.
Qed.

Lemma edges_reverse polygon : edges (reverse polygon) ≡ₚ map flip (edges polygon).
Proof.
  destruct (decide (polygon = [])) as [->|Hne]; [done|].
  destruct (exists_last Hne) as (m & x & ->).
  pose (h := List.last (reverse m) x).
  assert (Hrev : edges (reverse (m ++ [x])) = (x, h) :: consec x (reverse m)).
  { unfold edges. rewrite reverse_snoc. cbn [consec]. do 2 f_equal.
    by rewrite last_cons_default. }
  assert (Hfwd : consec x (reverse m) ++ [(x, h)] = reverse (map flip (edges (m ++ [x])))).
  { unfold edges. rewrite last_last.
    rewrite <- (consec_reverse_path (m ++ [x]) x), last_last.
    change (x :: m ++ [x]) with ((x :: m) ++ [x]).
    by rewrite removelast_last, reverse_cons, consec_app. }
  rewrite Hrev, <- (reverse_Permutation (map flip _)), <- Hfwd.
  apply Permutation_cons_append.
Qed.

Lemma x_cross_flip lat (a b : vertex) :
  straddles lat a b = true -> (x_cross lat a b == x_cross lat b a)%Q.
Proof.
  intros Hs. apply straddles_denominator in Hs.
  unfold x_cross. field. split; intros H0; apply Hs; lra.
Qed.

Lemma straddles_flip lat (a b : vertex) : straddles lat a b = straddles lat b a.
Proof. unfold straddles. by destruct (Qgtb a.1 lat), (Qgtb b.1 lat). Qed.

Lemma crossing_flip lat lon e : crossing lat lon (flip e) = crossing lat lon e.
Proof.
  destruct e as [a b]. unfold crossing, flip. cbn [fst snd].
  rewrite (straddles_flip lat b a).
  destruct (straddles lat a b) eqn:Hs; [|done]. cbn [andb].
  unfold Qltb. f_equal. apply Qleb_comp; [|done].
  symmetry. by apply x_cross_flip.
Qed.

Lemma odd_crossings_flip lat lon es :
  odd_crossings lat lon (map flip es) = odd_crossings lat lon es.
Proof.
  unfold odd_crossings. induction es as [|e es IH]; [done|].
  cbn [map foldr]. by rewrite IH, crossing_flip.
Qed.

(** In exact arithmetic the classification does not depend on where the
    vertex list starts nor on its direction: rotating the list by any
    amount, or reversing it, leaves the result of [point_in_polygon]
    unchanged, for every vertex list and every point. *)
Lemma point_in_polygon_rotation_reversal (lat lon : Q) (polygon : list vertex) (k : nat) :
  point_in_polygon lat lon (rotate k polygon) = point_in_polygon lat lon polygon
  /\ point_in_polygon lat lon (reverse polygon) = point_in_polygon lat lon polygon.
Proof.
  rewrite !point_in_polygon_edges. split; f_equal.
  - apply odd_crossings_perm, edges_rotate.
  - rewrite (odd_crossings_perm _ _ _ _ (edges_reverse polygon)).
    apply odd_crossings_flip.
Qed.

(** *** The bounding box *)

(** Along a straddling edge the crossing longitude is a convex combination
    of the two vertex longitudes. *)
Lemma x_cross_convex lat (a b : vertex) :
  straddles lat a b = true ->
  exists t : Q, (x_cross lat a b == a.2 + (b.2 - a.2) * t /\ 0 <= t /\ t <= 1)%Q.
Proof.
  intros Hs. pose proof (straddles_denominator _ _ _ Hs) as Hd.
  exists ((lat - a.1) / (b.1 - a.1))%Q. split; [unfold x_cross; by field|].
  apply straddles_cases in Hs as [[H1 H2]|[H1 H2]].
  - (* a above, b at or below: divisor and dividend are both negative *)
    assert (Heq : ((lat - a.1) / (b.1 - a.1) == (a.1 - lat) / (a.1 - b.1))%Q).
    { field. split; intros H0; apply Hd; lra. }
    rewrite Heq. split.
    + apply Qle_shift_div_l; lra.
    + apply Qle_shift_div_r; lra.
  - split.
    + apply Qle_shift_div_l; lra.
    + apply Qle_shift_div_r; lra.
Qed.

Lemma x_cross_le lat (a b : vertex) (M : Q) :
  straddles lat a b = true -> (a.2 <= M -> b.2 <= M -> x_cross lat a b <= M)%Q.
Proof.
  intros Hs Ha Hb. destruct (x_cross_convex _ _ _ Hs) as (t & -> & H0 & H1). nra.
Qed.

Lemma x_cross_ge lat (a b : vertex) (m : Q) :
  straddles lat a b = true -> (m <= a.2 -> m <= b.2 -> m <= x_cross lat a b)%Q.
Proof.
  intros Hs Ha Hb. destruct (x_cross_convex _ _ _ Hs) as (t & -> & H0 & H1). nra.
Qed.

Lemma foldl_min_le : forall rest m0,
  (foldl (fun m y => if Qltb y m then y else m) m0 rest <= m0)%Q
  /\ Forall (fun y => (foldl (fun m y => if Qltb y m then y else m) m0 rest <= y)%Q) rest.
Proof.
  induction rest as [|y rest IH]; intros m0; cbn [foldl].
  - split; [lra|constructor].
  - destruct (IH (if Qltb y m0 then y else m0)) as [Hle Hall].
    destruct (Qltb y m0) eqn:E.
    + apply Qltb_true in E. split; [lra|]. constructor; [lra|done].
    + apply Qltb_false in E. split; [lra|]. constructor; [lra|done].
Qed.

Lemma foldl_max_ge : forall rest m0,
  (m0 <= foldl (fun m y => if Qltb m y then y else m) m0 rest)%Q
  /\ Forall (fun y => (y <= foldl (fun m y => if Qltb m y then y else m) m0 rest)%Q) rest.
Proof.
  induction rest as [|y rest IH]; intros m0; cbn [foldl].
  - split; [lra|constructor].
  - destruct (IH (if Qltb m0 y then y else m0)) as [Hle Hall].
    destruct (Qltb m0 y) eqn:E.
    + apply Qltb_true in E. split; [lra|]. constructor; [lra|done].
    + apply Qltb_false in E. split; [lra|]. constructor; [lra|done].
Qed.

Lemma py_min_le xs m : py_min xs = Ok m -> Forall (fun x => (m <= x)%Q) xs.
Proof.
  destruct xs as [|x rest]; [done|]. intros [= <-].
  destruct (foldl_min_le rest x) as [Hle Hall]. by constructor.
Qed.

Lemma py_max_ge xs m : py_max xs = Ok m -> Forall (fun x => (x <= m)%Q) xs.
Proof.
  destruct xs as [|x rest]; [done|]. intros [= <-].
  destruct (foldl_max_ge rest x) as [Hle Hall]. by constructor.
Qed.

(** The vertices lie in the box computed from them. *)
Lemma bounding_box_vertices coords b :
  bounding_box coords = Ok b ->
  Forall (fun v : vertex =>
            (min_lat b <= v.1 /\ v.1 <= max_lat b /\ min_lon b <= v.2 /\ v.2 <= max_lon b)%Q)
         coords.
Proof.
  unfold bounding_box.
  destruct (py_min (map fst coords)) as [lo_lat|] eqn:E1; [|done].
  destruct (py_max (map fst coords)) as [hi_lat|] eqn:E2; [|done].
  destruct (py_min (map snd coords)) as [lo_lon|] eqn:E3; [|done].
  destruct (py_max (map snd coords)) as [hi_lon|] eqn:E4; [|done].
  cbn. intros [= <-]. cbn.
  apply py_min_le in E1, E3. apply py_max_ge in E2, E4.
  rewrite List.Forall_map in E1, E2, E3, E4.
  rewrite List.Forall_forall in *. intros v Hv.
  split; [by apply E1|]. split; [by apply E2|]. split; [by apply E3|by apply E4].
Qed.

Lemma bounding_box_nonempty coords :
  coords <> [] -> exists b, bounding_box coords = Ok b.
Proof. destruct coords as [|v rest]; [done|]. intros _. by eexists. Qed.

Lemma consec_vertices (P : vertex -> Prop) : forall l p,
  P p -> Forall P l -> Forall (fun e => P e.1 /\ P e.2) (consec p l).
Proof.
  induction l as [|v l IH]; intros p Hp Hl; [constructor|].
  inversion Hl; subst. cbn [consec]. constructor; [done|]. by apply IH.
Qed.

Lemma edges_vertices (P : vertex -> Prop) polygon :
  Forall P polygon -> Forall (fun e => P e.1 /\ P e.2) (edges polygon).
Proof.
  intros Hl. destruct (decide (polygon = [])) as [->|Hne]; [constructor|].
  apply consec_vertices; [|done].
  destruct (exists_last Hne) as (m & x & ->). rewrite last_last.
  apply List.Forall_app in Hl as [_ Hx]. by inversion Hx.
Qed.

Lemma odd_crossings_none lat lon es :
  Forall (fun e => crossing lat lon e = false) es -> odd_crossings lat lon es = false.
Proof.
  unfold odd_crossings. induction 1 as [|e es He _ IH]; [done|].
  cbn [foldr]. by rewrite He, IH.
Qed.

(** Around a closed path the latitude is straddled an even number of
    times. *)
Lemma straddles_consec lat : forall l p,
  foldr (fun e acc => xorb (straddles lat e.1 e.2) acc) false (consec p l)
  = xorb (Qgtb p.1 lat) (Qgtb (List.last l p).1 lat).
Proof.
  induction l as [|v l IH]; intros p.
  - cbn. by destruct (Qgtb p.1 lat).
  - cbn [consec foldr fst snd]. rewrite IH, last_cons_default. unfold straddles.
    by destruct (Qgtb v.1 lat), (Qgtb p.1 lat), (Qgtb (List.last l v).1 lat).
Qed.

Lemma straddles_closed lat polygon :
  foldr (fun e acc => xorb (straddles lat e.1 e.2) acc) false (edges polygon) = false.
Proof.
  unfold edges. rewrite straddles_consec.
  destruct (decide (polygon = [])) as [->|Hne]; [by destruct (Qgtb _ _)|].
  rewrite (last_nonempty polygon (List.last polygon (0%Q, 0%Q)) (0%Q, 0%Q)) by done.
  by destruct (Qgtb _ _).
Qed.

Lemma odd_crossings_all lat lon es :
  Forall (fun e => crossing lat lon e = straddles lat e.1 e.2) es ->
  odd_crossings lat lon es
  = foldr (fun e acc => xorb (straddles lat e.1 e.2) acc) false es.
Proof.
  unfold odd_crossings. induction 1 as [|e es He _ IH]; [done|].
  cbn [foldr]. by rewrite He, IH.
Qed.

(** A point outside the box of the vertices is classified outside. *)
Lemma outside_bounds_even lat lon polygon b :
  bounding_box polygon = Ok b -> in_bounds b lat lon = false ->
  odd_crossings lat lon (edges polygon) = false.
Proof.
  intros Hb Hout. apply bounding_box_vertices, edges_vertices in Hb.
  unfold in_bounds in Hout.
  destruct (Qle_bool (min_lat b) lat) eqn:E1; cycle 1.
  { (* south of every vertex *)
    apply odd_crossings_none. eapply Forall_impl; [exact Hb|].
    intros [u w] [Hu Hw]. cbn [fst snd] in *. unfold crossing. cbn [fst snd].
    assert (straddles lat u w = false) as ->; [|done].
    assert (Hlt : (lat < min_lat b)%Q) by (by apply Qgtb_true; unfold Qgtb; rewrite E1).
    unfold straddles.
    assert (Qgtb u.1 lat = true) as -> by (apply Qgtb_true; lra).
    assert (Qgtb w.1 lat = true) as -> by (apply Qgtb_true; lra). done. }
  destruct (Qle_bool lat (max_lat b)) eqn:E2; cycle 1.
  { (* north of every vertex *)
    apply odd_crossings_none. eapply Forall_impl; [exact Hb|].
    intros [u w] [Hu Hw]. cbn [fst snd] in *. unfold crossing. cbn [fst snd].
    assert (straddles lat u w = false) as ->; [|done].
    assert (Hlt : (max_lat b < lat)%Q) by (by apply Qgtb_true; unfold Qgtb; rewrite E2).
    unfold straddles.
    assert (Qgtb u.1 lat = false) as -> by (apply Qgtb_false; lra).
    assert (Qgtb w.1 lat = false) as -> by (apply Qgtb_false; lra). done. }
  destruct (Qle_bool (min_lon b) lon) eqn:E3; cycle 1.
  { (* west of every vertex: each straddling edge is crossed *)
    rewrite odd_crossings_all; [apply straddles_closed|].
    eapply Forall_impl; [exact Hb|].
    intros [u w] [Hu Hw]. cbn [fst snd] in *. unfold crossing. cbn [fst snd].
    destruct (straddles lat u w) eqn:Hs; [|done]. cbn [andb].
    assert (Hlt : (lon < min_lon b)%Q) by (by apply Qgtb_true; unfold Qgtb; rewrite E3).
    apply Qltb_true.
    pose proof (x_cross_ge lat u w (min_lon b) Hs ltac:(lra) ltac:(lra)). lra. }
  destruct (Qle_bool lon (max_lon b)) eqn:E4; [done|].
  (* east of every vertex: no edge is crossed *)
  apply odd_crossings_none. eapply Forall_impl; [exact Hb|].
  intros [u w] [Hu Hw]. cbn [fst snd] in *. unfold crossing. cbn [fst snd].
  destruct (straddles lat u w) eqn:Hs; [|done]. cbn [andb].
  assert (Hlt : (max_lon b < lon)%Q) by (by apply Qgtb_true; unfold Qgtb; rewrite E4).
  apply Qltb_false.
  pose proof (x_cross_le lat u w (max_lon b) Hs ltac:(lra) ltac:(lra)). lra.
Qed.

Lemma filter_in_polygon_pure coords generators :
  filter_in_polygon coords generators
  = Ok (List.filter (fun g => odd_crossings (lat g) (lon g) (edges coords)) generators).
Proof.
  induction generators as [|g rest IH]; [done|].
  cbn [filter_in_polygon List.filter]. rewrite point_in_polygon_edges, IH. done.
Qed.

(** In exact arithmetic a point that the ray-casting test classifies as
    inside lies within the bounding box of the vertices.  Hence, whenever
    the bounding box exists, keeping only the candidates within it before
    the exact test selects the same generators, in the same order, as the
    exact test applied to all candidates. *)
Lemma bounding_box_prefilter_exact (coords : list vertex) :
  (forall la lo,
     point_in_polygon la lo coords = Ok true ->
     exists b, bounding_box coords = Ok b /\ in_bounds b la lo = true)
  /\ (forall b candidates,
        bounding_box coords = Ok b ->
        filter_in_polygon coords
          (List.filter (fun g => in_bounds b (lat g) (lon g)) candidates)
        = filter_in_polygon coords candidates)
  /\ (forall rows,
        coords <> [] -> polygon_members coords rows = Ok (exact_members coords rows)).
Proof.
  split; [|split].
  - intros la lo Hin. rewrite point_in_polygon_edges in Hin. injection Hin as Hodd.
    assert (Hne : coords <> []) by (intros ->; done).
    destruct (bounding_box_nonempty coords Hne) as [b Hb].
    exists b. split; [done|].
    destruct (in_bounds b la lo) eqn:E; [done|].
    rewrite (outside_bounds_even _ _ _ _ Hb E) in Hodd. done.
  - intros b candidates Hb. rewrite !filter_in_polygon_pure. f_equal.
    induction candidates as [|g rest IH]; [done|].
    cbn [List.filter]. destruct (in_bounds b (lat g) (lon g)) eqn:E.
    + cbn [List.filter]. by rewrite IH.
    + by rewrite (outside_bounds_even _ _ _ _ Hb E).
  - intros rows Hne. unfold polygon_members.
    destruct (bounding_box_nonempty coords Hne) as [b Hb]. rewrite Hb.
    cbn [mbind result_bind]. rewrite filter_in_polygon_pure. f_equal.
    unfold generators_in_bounds, exact_members.
    induction rows as [|g rows IH]; [done|].
    cbn [omap list_omap]. destruct (located g) as [[la lo]|]; [|done].
    destruct (in_bounds b la lo) eqn:E.
    + destruct (Qgtb (row_nameplate_capacity_mw g) 0); cbn [andb]; [|done].
      cbn [List.filter lat lon to_generator].
      destruct (odd_crossings la lo (edges coords)); by rewrite IH.
    + rewrite (outside_bounds_even _ _ _ _ Hb E), andb_false_r. done.
Qed.

(** ** Polygon analytics on Python's numbers *)

(** *** IEEE 754 subtraction: a zero difference means equal operands *)

Lemma digits2_pos_iter_xO m d :
  digits2_pos (Pos.iter xO m d) = (digits2_pos m + d)%positive.
Proof.
  induction d as [|d IH] using Pos.peano_ind.
  - cbn. lia.
  - rewrite Pos.iter_succ. cbn [digits2_pos]. rewrite IH. lia.
Qed.

(** A canonical mantissa has the least exponent its width allows, so two
    canonical floats that agree once aligned are the same. *)
Lemma shl_align_canonical_inj mx ex my ey :
  canonical_mantissa prec emax mx ex = true ->
  canonical_mantissa prec emax my ey = true ->
  fst (shl_align mx ex (Z.min ex ey)) = fst (shl_align my ey (Z.min ex ey)) ->
  mx = my /\ ex = ey.
Proof.
  unfold canonical_mantissa, shl_align. intros Hx Hy.
  apply Z.eqb_eq in Hx, Hy.
  destruct (Z.min ex ey - ex) as [|d|d] eqn:Ex, (Z.min ex ey - ey) as [|d'|d'] eqn:Ey;
    cbn [fst]; try lia; intros H.
  - exfalso. subst mx. rewrite digits2_pos_iter_xO in Hx.
    assert (ey = ex + Zpos d') by lia. subst ey.
    rewrite Pos2Z.inj_add in Hx.
    replace (Z.pos (digits2_pos my) + Z.pos d' + ex)
      with (Z.pos (digits2_pos my) + (ex + Z.pos d')) in Hx by lia.
    rewrite Hy in Hx. lia.
  - exfalso. subst my. rewrite digits2_pos_iter_xO in Hy.
    assert (ex = ey + Zpos d) by lia. subst ex.
    rewrite Pos2Z.inj_add in Hy.
    replace (Z.pos (digits2_pos mx) + Z.pos d + ey)
      with (Z.pos (digits2_pos mx) + (ey + Z.pos d)) in Hy by lia.
    rewrite Hx in Hy. lia.
Qed.

(** Shifting right by one bit drops one binary digit. *)
Lemma shr_1_digits mrs :
  0 <= shr_m mrs ->
  0 <= shr_m (shr_1 mrs)
  /\ Zdigits2 (shr_m (shr_1 mrs)) = Z.max 0 (Zdigits2 (shr_m mrs) - 1).
Proof.
  destruct mrs as [m r s]. cbn [shr_m]. intros Hm.
  destruct m as [|[p|p|]|p]; cbn [shr_1 shr_m Zdigits2 digits2_pos]; lia.
Qed.

Lemma iter_shr_1_digits p : forall mrs,
  0 <= shr_m mrs ->
  0 <= shr_m (SpecFloat.iter_pos shr_1 p mrs)
  /\ Zdigits2 (shr_m (SpecFloat.iter_pos shr_1 p mrs)) = Z.max 0 (Zdigits2 (shr_m mrs) - Zpos p).
Proof.
  induction p as [p IH|p IH|]; intros mrs Hm; cbn [SpecFloat.iter_pos].
  - destruct (shr_1_digits mrs Hm) as [H1 D1].
    destruct (IH _ H1) as [H2 D2]. destruct (IH _ H2) as [H3 D3].
    split; [done|]. rewrite D3, D2, D1. lia.
  - destruct (IH _ Hm) as [H2 D2]. destruct (IH _ H2) as [H3 D3].
    split; [done|]. rewrite D3, D2. lia.
  - apply shr_1_digits, Hm.
Qed.

Lemma Zdigits2_pos_pos m : 0 <= m -> 1 <= Zdigits2 m -> 0 < m.
Proof. destruct m; cbn; lia. Qed.

Lemma Zdigits2_ge_1 m : 0 < m -> 1 <= Zdigits2 m.
Proof. destruct m; cbn; lia. Qed.

(** Rounding to the format's precision keeps a positive mantissa positive:
    with gradual underflow nothing above the least exponent rounds to
    zero. *)
Lemma shr_fexp_pos m e l :
  0 < m -> emin <= e ->
  0 < shr_m (fst (shr_fexp prec emax m e l)) /\ emin <= snd (shr_fexp prec emax m e l).
Proof.
  intros Hm He. unfold shr_fexp, shr.
  assert (Hrec : shr_m (shr_record_of_loc m l) = m) by (by destruct l as [|[]]).
  pose proof (Zdigits2_ge_1 m Hm) as Hd.
  destruct (fexp prec emax (Zdigits2 m + e) - e) as [|p|p] eqn:En; cbn [fst snd].
  - rewrite Hrec. done.
  - destruct (iter_shr_1_digits p (shr_record_of_loc m l)) as [H0 HD]; [rewrite Hrec; lia|].
    rewrite Hrec in HD. split; [|lia].
    apply Zdigits2_pos_pos; [done|]. rewrite HD.
    unfold fexp, SpecFloat.emin, prec, emax in *. lia.
  - rewrite Hrec. done.
Qed.

Lemma round_nearest_even_pos m l : 0 < m -> 0 < round_nearest_even m l.
Proof.
  intros Hm. unfold round_nearest_even.
  destruct l as [|[]]; [done| |done|lia]. destruct (Z.even m); lia.
Qed.

Lemma binary_round_aux_nonzero s m e l s' :
  0 < m -> emin <= e -> binary_round_aux prec emax s m e l <> S754_zero s'.
Proof.
  intros Hm He. unfold binary_round_aux.
  pose proof (shr_fexp_pos m e l Hm He) as [H1 H2].
  destruct (shr_fexp prec emax m e l) as [mrs' e']. cbn [fst snd] in H1, H2.
  pose proof (round_nearest_even_pos _ (loc_of_shr_record mrs') H1) as H3.
  pose proof (shr_fexp_pos _ e' loc_Exact H3 H2) as [H4 _].
  destruct (shr_fexp prec emax _ e' loc_Exact) as [mrs'' e'']. cbn [fst] in H4.
  destruct (shr_m mrs'') as [|q|q]; [lia| |lia].
  by destruct (e'' <=? emax - prec).
Qed.

Lemma binary_round_nonzero s m e s' :
  emin <= e -> binary_round prec emax s m e <> S754_zero s'.
Proof.
  intros He. unfold binary_round.
  destruct (shl_align m e (fexp prec emax (Z.pos (digits2_pos m) + e))) as [mz ez] eqn:Ea.
  apply binary_round_aux_nonzero; [lia|].
  unfold shl_align in Ea.
  destruct (fexp prec emax (Z.pos (digits2_pos m) + e) - e) eqn:Ed;
    injection Ea as <- <-; [done|done|].
  unfold fexp, SpecFloat.emin, prec, emax. lia.
Qed.

Lemma canonical_emin m e : canonical_mantissa prec emax m e = true -> emin <= e.
Proof.
  unfold canonical_mantissa. intros H. apply Z.eqb_eq in H.
  unfold fexp, SpecFloat.emin, prec, emax in *. lia.
Qed.

Lemma SFltb_zero_sign l s s' : SFltb l (S754_zero s) = SFltb l (S754_zero s').
Proof. by destruct l. Qed.

(** If [b - a] is a zero, [a] and [b] compare alike with every float. *)
Lemma SFsub_zero_compare (a b : spec_float) s :
  valid_binary a = true -> valid_binary b = true ->
  SFsub prec emax b a = S754_zero s ->
  forall l, SFltb l a = SFltb l b.
Proof.
  intros Ha Hb Hsub l.
  destruct a as [sa|sa| |sa ma ea], b as [sb|sb| |sb mb eb]; cbn [SFsub] in Hsub;
    try discriminate Hsub;
    try (by destruct sa, sb);
    try apply SFltb_zero_sign.
  unfold FloatAxioms.valid_binary, valid_binary, bounded in Ha, Hb.
  apply andb_true_iff in Ha as [Ha _], Hb as [Hb _].
  set (ez := Z.min eb ea) in *.
  destruct (cond_Zopp sb (Z.pos (shl_align mb eb ez).1)
            - cond_Zopp sa (Z.pos (shl_align ma ea ez).1)) as [|d|d] eqn:Ed;
    cbn [binary_normalize] in Hsub.
  - assert (sa = sb /\ (shl_align mb eb ez).1 = (shl_align ma ea ez).1) as [-> Hm].
    { destruct sa, sb; cbn [cond_Zopp] in Ed; split; try done; lia. }
    destruct (shl_align_canonical_inj mb eb ma ea Hb Ha Hm) as [-> ->]. done.
  - exfalso. apply (binary_round_nonzero false d ez s); [|done].
    pose proof (canonical_emin _ _ Ha). pose proof (canonical_emin _ _ Hb). lia.
  - exfalso. apply (binary_round_nonzero true d ez s); [|done].
    pose proof (canonical_emin _ _ Ha). pose proof (canonical_emin _ _ Hb). lia.
Qed.

Lemma SFeqb_zero x : SFeqb x (S754_zero false) = true -> exists s, x = S754_zero s.
Proof.
  destruct x as [s|s| |s m e]; cbn; [eauto|by destruct s|done|by destruct s].
Qed.

(** On doubles: a difference that equals zero comes from operands that
    compare alike with every double. *)
Lemma float_sub_zero_compare (a b l : float) :
  PrimFloat.eqb (PrimFloat.sub b a) 0 = true ->
  PrimFloat.ltb l a = PrimFloat.ltb l b.
Proof.
  rewrite FloatAxioms.eqb_spec, FloatAxioms.sub_spec, !FloatAxioms.ltb_spec. unfold SF64sub.
  change (Prim2SF 0) with (S754_zero false).
  intros H. apply SFeqb_zero in H as [s Hs].
  apply (SFsub_zero_compare _ _ s); [apply Prim2SF_valid..|exact Hs].
Qed.

(** *** The crossing test *)

Lemma gt_float (a l : float) :
  Backend.gt (Backend.NumFloat a) (Backend.NumFloat l) = PrimFloat.ltb l a.
Proof. reflexivity. Qed.

(** Between two [float] latitudes the straddle guard keeps the divisor
    away from zero. *)
Lemma straddles_float_divisor lat (a b : float) lon_i lon_j :
  Backend.straddles lat (Backend.NumFloat a, lon_i) (Backend.NumFloat b, lon_j) = true ->
  PrimFloat.eqb (PrimFloat.sub b a) 0 = false.
Proof.
  unfold Backend.straddles. cbn [fst]. rewrite !gt_float. intros Hs.
  destruct (PrimFloat.eqb (PrimFloat.sub b a) 0) eqn:E; [|done].
  rewrite (float_sub_zero_compare a b lat E) in Hs.
  by rewrite Bool.eqb_reflx in Hs.
Qed.

(** Between two [int] latitudes it keeps them apart. *)
Lemma straddles_int_divisor lat (a b : Z) lon_i lon_j :
  Backend.straddles lat (Backend.NumInt a, lon_i) (Backend.NumInt b, lon_j) = true ->
  b - a <> 0.
Proof.
  unfold Backend.straddles. cbn [fst]. intros Hs Hab.
  assert (a = b) as -> by lia. by rewrite Bool.eqb_reflx in Hs.
Qed.

Lemma to_float_outcome a :
  (exists f, Backend.to_float a = Ok f) \/ Backend.to_float a = Raise OverflowError.
Proof.
  destruct a as [z|f]; [|eauto]. cbn. unfold Backend.int_to_float.
  destruct (binary_normalize prec emax z 0 false); eauto.
Qed.

Lemma sub_outcome a b :
  (exists c, Backend.sub a b = Ok c) \/ Backend.sub a b = Raise OverflowError.
Proof.
  destruct a as [x|x], b as [y|y]; cbn [Backend.sub]; eauto.
  - destruct (to_float_outcome (Backend.NumInt x)) as [[f ->]| ->]; cbn; eauto.
  - destruct (to_float_outcome (Backend.NumInt y)) as [[f ->]| ->]; cbn; eauto.
Qed.

(** A crossing test returns a boolean or raises one of two exceptions. *)
Lemma crosses_outcome lat lon pi pj :
  (exists c, Backend.crosses lat lon pi pj = Ok c)
  \/ Backend.crosses lat lon pi pj = Raise ZeroDivisionError
  \/ Backend.crosses lat lon pi pj = Raise OverflowError.
Proof.
  unfold Backend.crosses. destruct (Backend.straddles lat pi pj); [|eauto].
  unfold Backend.x_cross.
  destruct (sub_outcome pj.2 pi.2) as [[dlon ->]| ->]; cbn [mbind result_bind]; [|auto].
  destruct (to_float_outcome pi.1) as [[lat_i ->]| ->]; cbn [mbind result_bind]; [|auto].
  destruct (to_float_outcome dlon) as [[dlon' ->]| ->]; cbn [mbind result_bind]; [|auto].
  destruct (sub_outcome pj.1 pi.1) as [[dlat ->]| ->]; cbn [mbind result_bind]; [|auto].
  destruct (to_float_outcome dlat) as [[dlat' ->]| ->]; cbn [mbind result_bind]; [|auto].
  destruct (PrimFloat.eqb dlat' 0); [auto|].
  destruct (to_float_outcome pi.2) as [[lon_i ->]| ->]; cbn [mbind result_bind]; eauto.
Qed.

(** *** The loop as a walk over the edges *)

Lemma point_in_polygon_loop_toggles lat lon polygon : forall rest prefix inside j pj,
  polygon = prefix ++ rest ->
  py_index polygon j = Ok pj ->
  Backend.point_in_polygon_loop lat lon polygon
    (seqZ (Z.of_nat (length prefix)) (Z.of_nat (length rest))) inside j
  = Backend.toggles lat lon (Backend.consec pj rest) inside.
Proof.
  induction rest as [|v rest IH]; intros prefix inside j pj Hp Hj; [done|].
  rewrite seqZ_cons by (cbn [length]; lia).
  cbn [Backend.point_in_polygon_loop Backend.consec Backend.toggles fst snd].
  rewrite Hp at 1. rewrite py_index_app. cbn [mbind result_bind].
  rewrite Hj. cbn [mbind result_bind].
  destruct (Backend.crosses lat lon v pj) as [c|e]; [|done]. cbn [mbind result_bind].
  replace (Z.succ (Z.of_nat (length prefix))) with (Z.of_nat (length (prefix ++ [v])))
    by (rewrite length_app; cbn [length]; lia).
  replace (Z.pred (Z.of_nat (length (v :: rest)))) with (Z.of_nat (length rest))
    by (cbn [length]; lia).
  apply (IH (prefix ++ [v]) _ _ v).
  - by rewrite <- app_assoc.
  - replace (Z.of_nat (length (prefix ++ [v]))) with (Z.of_nat (length prefix) + 1)
      by (rewrite length_app; cbn [length]; lia).
    replace (Z.of_nat (length prefix) + 1 - 1) with (Z.of_nat (length prefix)) by lia.
    rewrite Hp. apply py_index_app.
Qed.

(** The indices stay in range: the loop is the walk over the cyclic edges. *)
Lemma point_in_polygon_toggles lat lon polygon :
  Backend.point_in_polygon lat lon polygon
  = Backend.toggles lat lon (Backend.edges polygon) false.
Proof.
  unfold Backend.point_in_polygon, py_range, Backend.edges.
  destruct (decide (polygon = [])) as [->|Hne]; [done|].
  apply (point_in_polygon_loop_toggles lat lon polygon polygon [] false _
           (List.last polygon (Backend.NumInt 0, Backend.NumInt 0))); [done|].
  by apply py_index_last.
Qed.

Lemma toggles_outcome lat lon es : forall inside,
  (exists r, Backend.toggles lat lon es inside = Ok r)
  \/ Backend.toggles lat lon es inside = Raise ZeroDivisionError
  \/ Backend.toggles lat lon es inside = Raise OverflowError.
Proof.
  induction es as [|e es IH]; intros inside; cbn [Backend.toggles]; [eauto|].
  destruct (crosses_outcome lat lon e.1 e.2) as [[c ->]|[-> | ->]];
    cbn [mbind result_bind]; auto.
Qed.

Lemma toggles_ok lat lon es :
  Forall (fun e => exists c, Backend.crosses lat lon e.1 e.2 = Ok c) es ->
  forall inside, exists r, Backend.toggles lat lon es inside = Ok r.
Proof.
  induction 1 as [|e es [c Hc] _ IH]; intros inside; cbn [Backend.toggles]; [eauto|].
  rewrite Hc. cbn [mbind result_bind]. apply IH.
Qed.

(** *** Rotation and reversal *)

Lemma agree_refl {A} (r : result A) : agree r r.
Proof. by destruct r. Qed.

Lemma agree_sym {A} (r1 r2 : result A) : agree r1 r2 -> agree r2 r1.
Proof. by destruct r1, r2. Qed.

Lemma agree_trans {A} (r1 r2 r3 : result A) : agree r1 r2 -> agree r2 r3 -> agree r1 r3.
Proof. destruct r1, r2, r3; cbn; try done. congruence. Qed.

Lemma agree_ok {A} (r1 r2 : result A) a b : r1 = Ok a -> r2 = Ok b -> agree r1 r2 -> r1 = r2.
Proof. intros -> ->. cbn. by intros ->. Qed.

(** The walk does not depend on the order of the edges, up to which of
    several exceptions is met first. *)
Lemma toggles_perm lat lon es es' :
  es ≡ₚ es' ->
  forall inside, agree (Backend.toggles lat lon es inside) (Backend.toggles lat lon es' inside).
Proof.
  induction 1 as [|e es es' _ IH|e e' es|es es' es'' _ IH1 _ IH2]; intros inside.
  - done.
  - cbn [Backend.toggles]. destruct (Backend.crosses lat lon e.1 e.2); [|done].
    cbn [mbind result_bind]. apply IH.
  - cbn [Backend.toggles].
    destruct (Backend.crosses lat lon e.1 e.2) as [c|], (Backend.crosses lat lon e'.1 e'.2)
      as [c'|]; cbn [mbind result_bind]; try done.
    replace (if c' then negb (if c then negb inside else inside)
             else if c then negb inside else inside)
      with (if c then negb (if c' then negb inside else inside)
            else if c' then negb inside else inside)
      by (by destruct c, c', inside).
    apply agree_refl.
  - eapply agree_trans; [apply IH1|apply IH2].
Qed.

Lemma backend_consec_app p a b :
  Backend.consec p (a ++ b) = Backend.consec p a ++ Backend.consec (List.last a p) b.
Proof.
  revert p. induction a as [|v a IH]; intros p; [done|].
  cbn [app Backend.consec]. rewrite IH. do 3 f_equal.
  destruct a as [|w a]; [done|].
  transitivity (List.last (w :: a) p); [by apply last_nonempty|done].
Qed.

Lemma backend_edges_swap_blocks (t d : list Backend.vertex) :
  Backend.edges (d ++ t) ≡ₚ Backend.edges (t ++ d).
Proof.
  destruct (decide (t = [])) as [->|Ht]; [by rewrite app_nil_r|].
  destruct (decide (d = [])) as [->|Hd]; [by rewrite app_nil_r|].
  unfold Backend.edges. rewrite !backend_consec_app, !last_app_default.
  rewrite Permutation_app_comm. apply Permutation_app; apply reflexive_eq.
  - f_equal. by apply last_nonempty.
  - f_equal. by apply last_nonempty.
Qed.

Lemma backend_edges_rotate k polygon :
  Backend.edges (rotate k polygon) ≡ₚ Backend.edges polygon.
Proof.
  unfold rotate. rewrite backend_edges_swap_blocks. by rewrite take_drop.
Qed.

(** Walking a path backwards visits the flipped edges in reverse order. *)
Lemma backend_consec_reverse_path : forall l p,
  Backend.consec (List.last l p) (reverse (removelast (p :: l)))
  = reverse (map Backend.flip (Backend.consec p l)).
Proof.
  induction l as [|v l IH]; intros p; [done|].
  change (removelast (p :: v :: l)) with (p :: removelast (v :: l)).
  rewrite reverse_cons, backend_consec_app, last_cons_default, IH.
  cbn [Backend.consec map]. rewrite reverse_cons. f_equal.
  cbn [Backend.consec]. do 2 f_equal.
  destruct l as [|w l]; [done|].
  change (removelast (v :: w :: l)) with (v :: removelast (w :: l)).
  by rewrite reverse_cons, last_last.
Qed.

Lemma backend_edges_reverse polygon :
  Backend.edges (reverse polygon) ≡ₚ map Backend.flip (Backend.edges polygon).
Proof.
  destruct (decide (polygon = [])) as [->|Hne]; [done|].
  destruct (exists_last Hne) as (m & x & ->).
  pose (h := List.last (reverse m) x).
  assert (Hrev : Backend.edges (reverse (m ++ [x])) = (x, h) :: Backend.consec x (reverse m)).
  { unfold Backend.edges. rewrite reverse_snoc. cbn [Backend.consec]. do 2 f_equal.
    by rewrite last_cons_default. }
  assert (Hfwd : Backend.consec x (reverse m) ++ [(x, h)]
                 = reverse (map Backend.flip (Backend.edges (m ++ [x])))).
  { unfold Backend.edges. rewrite last_last.
    rewrite <- (backend_consec_reverse_path (m ++ [x]) x), last_last.
    change (x :: m ++ [x]) with ((x :: m) ++ [x]).
    by rewrite removelast_last, reverse_cons, backend_consec_app. }
  rewrite Hrev, <- (reverse_Permutation (map Backend.flip _)), <- Hfwd.
  apply Permutation_cons_append.
Qed.

Lemma toggles_flip lat lon es :
  Forall (fun e => Backend.crosses lat lon e.2 e.1 = Backend.crosses lat lon e.1 e.2) es ->
  forall inside,
    Backend.toggles lat lon (map Backend.flip es) inside = Backend.toggles lat lon es inside.
Proof.
  induction 1 as [|e es He _ IH]; intros inside; [done|].
  cbn [map Backend.toggles Backend.flip fst snd]. rewrite He.
  destruct (Backend.crosses lat lon e.1 e.2); [|done]. cbn [mbind result_bind]. apply IH.
Qed.

(** *** Exact values of doubles *)

Lemma digits2_pos_bounds m :
  2 ^ (Zpos (digits2_pos m) - 1) <= Zpos m < 2 ^ Zpos (digits2_pos m).
Proof.
  induction m as [m IH|m IH|]; cbn [digits2_pos]; [| |cbn; lia].
  - rewrite Pos2Z.inj_succ.
    replace (Z.succ (Z.pos (digits2_pos m)) - 1) with (Z.succ (Z.pos (digits2_pos m) - 1))
      by lia.
    rewrite !Z.pow_succ_r by lia. lia.
  - rewrite Pos2Z.inj_succ.
    replace (Z.succ (Z.pos (digits2_pos m)) - 1) with (Z.succ (Z.pos (digits2_pos m) - 1))
      by lia.
    rewrite !Z.pow_succ_r by lia. lia.
Qed.

Lemma iter_xO_value m k : Zpos (Pos.iter xO m k) = Zpos m * 2 ^ Zpos k.
Proof.
  induction k as [|k IH] using Pos.peano_ind.
  - cbn. lia.
  - rewrite Pos.iter_succ, Pos2Z.inj_xO, IH, Pos2Z.inj_succ, Z.pow_succ_r by lia. lia.
Qed.

(** A canonical mantissa is either full, or sits at the least exponent. *)
Lemma canonical_cases m e :
  canonical_mantissa prec emax m e = true ->
  -1074 <= e /\ Zpos (digits2_pos m) <= 53
  /\ (e = -1074 \/ Zpos (digits2_pos m) = 53).
Proof.
  unfold canonical_mantissa. intros H. apply Z.eqb_eq in H.
  unfold fexp, SpecFloat.emin, prec, emax in H. lia.
Qed.

Lemma canonical_lt m1 e1 m2 e2 :
  canonical_mantissa prec emax m1 e1 = true ->
  canonical_mantissa prec emax m2 e2 = true ->
  e1 < e2 ->
  Zpos m1 * 2 ^ (e1 + 1074) < Zpos m2 * 2 ^ (e2 + 1074).
Proof.
  intros H1 H2 Hlt.
  destruct (canonical_cases _ _ H1) as (He1 & Hd1 & _).
  destruct (canonical_cases _ _ H2) as (He2 & _ & [?|Hd2]); [lia|].
  pose proof (digits2_pos_bounds m1) as [_ Hm1].
  pose proof (digits2_pos_bounds m2) as [Hm2 _]. rewrite Hd2 in Hm2.
  assert (Hm1' : Zpos m1 < 2 ^ 53).
  { eapply Z.lt_le_trans; [exact Hm1|]. apply Z.pow_le_mono_r; lia. }
  assert (Hk : 2 * 2 ^ (e1 + 1074) <= 2 ^ (e2 + 1074)).
  { rewrite <- Z.pow_succ_r by lia. apply Z.pow_le_mono_r; lia. }
  assert (Hp : 0 < 2 ^ (e1 + 1074)) by (apply Z.pow_pos_nonneg; lia).
  change (2 ^ (53 - 1)) with 4503599627370496 in Hm2.
  change (2 ^ 53) with 9007199254740992 in Hm1'.
  nia.
Qed.

Lemma SFcompare_scaled (a b : spec_float) x y :
  valid_binary a = true -> valid_binary b = true ->
  Backend.scaled a = Some x -> Backend.scaled b = Some y ->
  SFcompare a b = Some (x ?= y).
Proof.
  intros Ha Hb Hx Hy.
  destruct a as [sa|sa| |sa ma ea], b as [sb|sb| |sb mb eb]; try done;
    cbn [Backend.scaled] in Hx, Hy; injection Hx as <-; injection Hy as <-.
  - done.
  - unfold FloatAxioms.valid_binary, valid_binary, bounded in Hb.
    apply andb_true_iff in Hb as [Hb _]. destruct (canonical_cases _ _ Hb) as (He & _).
    assert (0 < 2 ^ (eb + 1074)) by (apply Z.pow_pos_nonneg; lia).
    cbn [SFcompare]. f_equal. symmetry.
    destruct sb; cbn [cond_Zopp]; [apply Z.compare_gt_iff|apply Z.compare_lt_iff]; nia.
  - unfold FloatAxioms.valid_binary, valid_binary, bounded in Ha.
    apply andb_true_iff in Ha as [Ha _]. destruct (canonical_cases _ _ Ha) as (He & _).
    assert (0 < 2 ^ (ea + 1074)) by (apply Z.pow_pos_nonneg; lia).
    cbn [SFcompare]. f_equal. symmetry.
    destruct sa; cbn [cond_Zopp]; [apply Z.compare_lt_iff|apply Z.compare_gt_iff]; nia.
  - unfold FloatAxioms.valid_binary, valid_binary, bounded in Ha, Hb.
    apply andb_true_iff in Ha as [Ha _], Hb as [Hb _].
    destruct (canonical_cases _ _ Ha) as (Hea & _).
    destruct (canonical_cases _ _ Hb) as (Heb & _).
    assert (Hpa : 0 < 2 ^ (ea + 1074)) by (apply Z.pow_pos_nonneg; lia).
    assert (Hpb : 0 < 2 ^ (eb + 1074)) by (apply Z.pow_pos_nonneg; lia).
    cbn [SFcompare]. f_equal. symmetry.
    destruct sa, sb; cbn [cond_Zopp].
    + destruct (Z.compare_spec ea eb) as [->|Hlt|Hgt].
      * rewrite <- Zmult_compare_compat_r by lia.
        rewrite Pos.compare_cont_spec. cbn [Z.compare].
        by destruct (ma ?= mb)%positive.
      * apply Z.compare_gt_iff. pose proof (canonical_lt _ _ _ _ Ha Hb Hlt). lia.
      * apply Z.compare_lt_iff. pose proof (canonical_lt _ _ _ _ Hb Ha Hgt). lia.
    + apply Z.compare_lt_iff. nia.
    + apply Z.compare_gt_iff. nia.
    + destruct (Z.compare_spec ea eb) as [->|Hlt|Hgt].
      * rewrite <- Zmult_compare_compat_r by lia.
        rewrite Pos.compare_cont_spec. cbn [Z.compare].
        by destruct (ma ?= mb)%positive.
      * apply Z.compare_lt_iff. by apply canonical_lt.
      * apply Z.compare_gt_iff. by apply canonical_lt.
Qed.

(** *** Converting a small [int] *)

(** A mantissa of full width is not rounded. *)
Lemma binary_round_aux_full s m e :
  Zpos (digits2_pos m) = 53 -> -1074 <= e <= 971 ->
  binary_round_aux prec emax s (Zpos m) e loc_Exact = S754_finite s m e.
Proof.
  intros Hd He. unfold binary_round_aux, shr_fexp. cbn [Zdigits2]. rewrite Hd.
  assert (Hf : fexp prec emax (53 + e) - e = 0)
    by (unfold fexp, SpecFloat.emin, prec, emax; lia).
  rewrite Hf. cbn [shr shr_record_of_loc shr_m loc_of_shr_record round_nearest_even Zdigits2].
  rewrite Hd, Hf. cbn [shr shr_record_of_loc shr_m].
  assert ((e <=? emax - prec) = true) as -> by (unfold emax, prec; lia). done.
Qed.

(** An [int] below [2^53] in magnitude converts to the double of the same
    value. *)
Lemma binary_round_small s m :
  Zpos m < 2 ^ 53 ->
  exists m' e,
    binary_round prec emax s m 0 = S754_finite s m' e
    /\ bounded prec emax m' e = true
    /\ Zpos m' * 2 ^ (e + 1074) = Zpos m * 2 ^ 1074.
Proof.
  intros Hm. pose proof (digits2_pos_bounds m) as [Hlo _].
  assert (Hd : Zpos (digits2_pos m) <= 53).
  { destruct (Z.le_gt_cases (Zpos (digits2_pos m)) 53) as [?|Hgt]; [done|].
    exfalso. assert (2 ^ 53 <= 2 ^ (Zpos (digits2_pos m) - 1))
      by (apply Z.pow_le_mono_r; lia). lia. }
  unfold binary_round.
  assert (Hf : fexp prec emax (Zpos (digits2_pos m) + 0) = Zpos (digits2_pos m) - 53)
    by (unfold fexp, SpecFloat.emin, prec, emax; lia).
  rewrite Hf. unfold shl_align.
  destruct (Zpos (digits2_pos m) - 53 - 0) as [|k|k] eqn:Ek; [|lia|].
  - exists m, 0. rewrite binary_round_aux_full by lia.
    split; [done|]. split; [|done].
    unfold bounded, canonical_mantissa. apply andb_true_iff. split; [|done].
    apply Z.eqb_eq. unfold fexp, SpecFloat.emin, prec, emax. lia.
  - exists (Pos.iter xO m k), (Zpos (digits2_pos m) - 53).
    assert (Hfull : Zpos (digits2_pos (Pos.iter xO m k)) = 53)
      by (rewrite digits2_pos_iter_xO, Pos2Z.inj_add; lia).
    rewrite binary_round_aux_full by lia.
    split; [done|]. split.
    + unfold bounded, canonical_mantissa. apply andb_true_iff. split.
      * apply Z.eqb_eq. rewrite Hfull. unfold fexp, SpecFloat.emin, prec, emax. lia.
      * unfold emax, prec. lia.
    + rewrite iter_xO_value, <- Z.mul_assoc, <- Z.pow_add_r by lia.
      do 2 f_equal. lia.
Qed.

Lemma int_to_float_small z :
  Z.abs z < 2 ^ 53 ->
  exists f, Backend.int_to_float z = Ok f
            /\ Backend.scaled (Prim2SF f) = Some (z * 2 ^ 1074).
Proof.
  intros Hz. unfold Backend.int_to_float. destruct z as [|m|m]; cbn [binary_normalize].
  - exists (SF2Prim (S754_zero false)). split; [done|].
    rewrite Prim2SF_SF2Prim by done. done.
  - destruct (binary_round_small false m) as (m' & e & -> & Hb & Hv); [lia|].
    exists (SF2Prim (S754_finite false m' e)). split; [done|].
    rewrite Prim2SF_SF2Prim by done. cbn [Backend.scaled]. by rewrite Hv.
  - destruct (binary_round_small true m) as (m' & e & -> & Hb & Hv); [lia|].
    exists (SF2Prim (S754_finite true m' e)). split; [done|].
    rewrite Prim2SF_SF2Prim by done. cbn [Backend.scaled]. f_equal.
    change (Z.neg m') with (- Z.pos m'). change (Z.neg m) with (- Z.pos m). lia.
Qed.

(** The exact comparison of an [int] with a double, on scaled values. *)
Lemma compare_int_float_scaled z (l : float) y :
  Backend.scaled (Prim2SF l) = Some y ->
  Backend.compare_int_float z l = Some (z * 2 ^ 1074 ?= y).
Proof.
  unfold Backend.compare_int_float. pose proof (Prim2SF_valid l) as Hv.
  destruct (Prim2SF l) as [s|s| |s m e]; try done; cbn [Backend.scaled]; intros [= <-].
  - f_equal. rewrite (Zmult_compare_compat_r z 0 (2 ^ 1074)); [done|].
    apply Z.lt_gt, Z.pow_pos_nonneg; lia.
  - unfold FloatAxioms.valid_binary, valid_binary, bounded in Hv.
    apply andb_true_iff in Hv as [Hc _]. destruct (canonical_cases _ _ Hc) as (He & _).
    f_equal. destruct (0 <=? e) eqn:E0.
    + apply Z.leb_le in E0.
      rewrite (Zmult_compare_compat_r z _ (2 ^ 1074))
        by (apply Z.lt_gt, Z.pow_pos_nonneg; lia).
      by rewrite <- Z.mul_assoc, <- Z.pow_add_r by lia.
    + apply Z.leb_gt in E0.
      rewrite (Zmult_compare_compat_r (z * 2 ^ (- e)) _ (2 ^ (e + 1074)))
        by (apply Z.lt_gt, Z.pow_pos_nonneg; lia).
      rewrite <- Z.mul_assoc, <- Z.pow_add_r by lia.
      do 3 f_equal. lia.
Qed.

(** Comparing a small [int] with a double exactly, or after converting it:
    the guard and the arithmetic see the same number. *)
Lemma gt_int_converted z f (lat : float) :
  Z.abs z < 2 ^ 53 -> Backend.int_to_float z = Ok f ->
  Backend.gt (Backend.NumInt z) (Backend.NumFloat lat) = PrimFloat.ltb lat f.
Proof.
  intros Hz Hf. destruct (int_to_float_small z Hz) as (f' & Hf' & Hs).
  rewrite Hf in Hf'. injection Hf' as <-.
  unfold Backend.gt, Backend.lt. rewrite FloatAxioms.ltb_spec. unfold SFltb.
  destruct (Backend.scaled (Prim2SF lat)) as [y|] eqn:Ey.
  - rewrite (compare_int_float_scaled z lat y Ey).
    rewrite (SFcompare_scaled _ _ y (z * 2 ^ 1074)
               (Prim2SF_valid lat) (Prim2SF_valid f) Ey Hs).
    rewrite (Z.compare_antisym y). by destruct (y ?= z * 2 ^ 1074).
  - unfold Backend.compare_int_float.
    destruct (Prim2SF lat) as [s|s| |s m e]; try done;
      destruct (Prim2SF f) as [s'|s'| |s' m' e']; try done; by destruct s.
Qed.

(** *** Small [int]s among the coordinates *)

Lemma to_float_small a :
  Backend.small a = true -> exists f, Backend.to_float a = Ok f.
Proof.
  destruct a as [z|f]; [|by eexists]. cbn. intros Hz. apply Z.ltb_lt in Hz.
  destruct (int_to_float_small z) as (f & Hf & _); [|by eexists].
  change (2 ^ 52) with 4503599627370496 in Hz. change (2 ^ 53) with 9007199254740992. lia.
Qed.

Lemma sub_small a b :
  Backend.small a = true -> Backend.small b = true ->
  exists c f, Backend.sub a b = Ok c /\ Backend.to_float c = Ok f.
Proof.
  intros Ha Hb.
  destruct (to_float_small a Ha) as [fa Hfa], (to_float_small b Hb) as [fb Hfb].
  destruct a as [x|x], b as [y|y]; cbn [Backend.sub].
  - cbn in Ha, Hb. apply Z.ltb_lt in Ha, Hb.
    destruct (int_to_float_small (x - y)) as (f & Hf & _); [|by eexists _, f].
    change (2 ^ 52) with 4503599627370496 in Ha, Hb.
    change (2 ^ 53) with 9007199254740992. lia.
  - rewrite Hfa. cbn. by eexists _, _.
  - rewrite Hfb. cbn. by eexists _, _.
  - cbn. by eexists _, _.
Qed.

Lemma scaled_nonzero (f : float) v :
  Backend.scaled (Prim2SF f) = Some v -> v <> 0 -> PrimFloat.eqb f 0 = false.
Proof.
  rewrite FloatAxioms.eqb_spec. change (Prim2SF 0) with (S754_zero false).
  destruct (Prim2SF f) as [s|s| |s m e]; cbn; try done.
  - by intros [= <-].
  - by destruct s.
Qed.

(** With small [int]s among the latitudes the guard still keeps the
    divisor away from zero: an [int] below [2^53] is compared and converted
    to the same value. *)
Lemma straddles_small_divisor lat (pi pj : Backend.vertex) d f :
  Backend.small pi.1 = true -> Backend.small pj.1 = true ->
  Backend.straddles lat pi pj = true ->
  Backend.sub pj.1 pi.1 = Ok d -> Backend.to_float d = Ok f ->
  PrimFloat.eqb f 0 = false.
Proof.
  destruct pi as [[a|a] lon_i], pj as [[b|b] lon_j]; cbn [fst]; intros Ha Hb Hs Hd Hf.
  - cbn in Ha, Hb, Hd, Hf. apply Z.ltb_lt in Ha, Hb. injection Hd as <-. cbn in Hf.
    destruct (int_to_float_small (b - a)) as (f' & Hf' & Hv).
    { change (2 ^ 52) with 4503599627370496 in Ha, Hb.
      change (2 ^ 53) with 9007199254740992. lia. }
    rewrite Hf in Hf'. injection Hf' as <-.
    apply (scaled_nonzero f _ Hv).
    pose proof (straddles_int_divisor _ _ _ _ _ Hs).
    assert (0 < 2 ^ 1074) by (apply Z.pow_pos_nonneg; lia). nia.
  - cbn in Ha. apply Z.ltb_lt in Ha.
    assert (Ha' : Z.abs a < 2 ^ 53).
    { change (2 ^ 52) with 4503599627370496 in Ha.
      change (2 ^ 53) with 9007199254740992. lia. }
    destruct (int_to_float_small a Ha') as (fa & Hfa & _).
    cbn [Backend.sub Backend.to_float mbind result_bind] in Hd. rewrite Hfa in Hd.
    cbn [mbind result_bind] in Hd. injection Hd as <-. cbn in Hf. injection Hf as <-.
    unfold Backend.straddles in Hs. cbn [fst] in Hs.
    rewrite (gt_int_converted a fa lat Ha' Hfa), gt_float in Hs.
    destruct (PrimFloat.eqb (PrimFloat.sub b fa) 0) eqn:E; [|done].
    rewrite (float_sub_zero_compare fa b lat E) in Hs.
    by rewrite Bool.eqb_reflx in Hs.
  - cbn in Hb. apply Z.ltb_lt in Hb.
    assert (Hb' : Z.abs b < 2 ^ 53).
    { change (2 ^ 52) with 4503599627370496 in Hb.
      change (2 ^ 53) with 9007199254740992. lia. }
    destruct (int_to_float_small b Hb') as (fb & Hfb & _).
    cbn [Backend.sub Backend.to_float mbind result_bind] in Hd. rewrite Hfb in Hd.
    cbn [mbind result_bind] in Hd. injection Hd as <-. cbn in Hf. injection Hf as <-.
    unfold Backend.straddles in Hs. cbn [fst] in Hs.
    rewrite (gt_int_converted b fb lat Hb' Hfb), gt_float in Hs.
    destruct (PrimFloat.eqb (PrimFloat.sub fb a) 0) eqn:E; [|done].
    rewrite (float_sub_zero_compare a fb lat E) in Hs.
    by rewrite Bool.eqb_reflx in Hs.
  - cbn in Hd, Hf. injection Hd as <-. injection Hf as <-.
    by apply (straddles_float_divisor lat a b lon_i lon_j).
Qed.

Lemma crosses_small lat lon (pi pj : Backend.vertex) :
  Backend.small_vertex pi = true -> Backend.small_vertex pj = true ->
  exists c, Backend.crosses lat lon pi pj = Ok c.
Proof.
  unfold Backend.small_vertex. intros Hi Hj.
  apply andb_true_iff in Hi as [Hi1 Hi2], Hj as [Hj1 Hj2].
  unfold Backend.crosses.
  destruct (Backend.straddles lat pi pj) eqn:Hs; [|eauto].
  unfold Backend.x_cross.
  destruct (sub_small pj.2 pi.2 Hj2 Hi2) as (dlon & fdlon & -> & Hdlon).
  destruct (to_float_small pi.1 Hi1) as [lat_i ->].
  destruct (sub_small pj.1 pi.1 Hj1 Hi1) as (dlat & fdlat & Hsub & Hdlat).
  destruct (to_float_small pi.2 Hi2) as [lon_i Hlon].
  cbn [mbind result_bind]. rewrite Hdlon. cbn [mbind result_bind].
  rewrite Hsub. cbn [mbind result_bind]. rewrite Hdlat. cbn [mbind result_bind].
  rewrite (straddles_small_divisor lat pi pj dlat fdlat Hi1 Hj1 Hs Hsub Hdlat).
  rewrite Hlon. cbn [mbind result_bind]. eauto.
Qed.

Lemma consec_forall (P : Backend.vertex -> Prop) (l : list Backend.vertex) : forall p,
  P p -> Forall P l -> Forall (fun e => P e.1 /\ P e.2) (Backend.consec p l).
Proof.
  induction l as [|v l IH]; intros p Hp Hl; [constructor|].
  inversion Hl; subst. cbn [Backend.consec]. constructor; [done|]. by apply IH.
Qed.

Lemma edges_forall (P : Backend.vertex -> Prop) polygon :
  Forall P polygon -> Forall (fun e => P e.1 /\ P e.2) (Backend.edges polygon).
Proof.
  intros Hall. unfold Backend.edges.
  destruct (decide (polygon = [])) as [->|Hne]; [constructor|].
  apply consec_forall; [|done].
  destruct (exists_last Hne) as (prefix & v & ->). rewrite last_last.
  apply Forall_app in Hall as [_ Hv]. by inversion Hv.
Qed.

(** On coordinates that are [float]s or small [int]s the test returns a
    boolean. *)
Lemma point_in_polygon_small lat lon polygon :
  Forall (fun v => Backend.small_vertex v = true) polygon ->
  exists inside, Backend.point_in_polygon lat lon polygon = Ok inside.
Proof.
  intros Hall. rewrite point_in_polygon_toggles. apply toggles_ok.
  eapply Forall_impl; [apply (edges_forall _ _ Hall)|].
  intros e [H1 H2]. by apply crosses_small.
Qed.

(** *** The order of finite numbers *)

Lemma lt_rank a b x y :
  Backend.rank a = Some x -> Backend.rank b = Some y -> Backend.lt a b = (x <? y).
Proof.
  assert (HK : 2 ^ 1074 > 0) by (apply Z.lt_gt, Z.pow_pos_nonneg; lia).
  destruct a as [za|fa], b as [zb|fb]; cbn [Backend.rank Backend.lt]; intros Ha Hb.
  - injection Ha as <-. injection Hb as <-.
    unfold Z.ltb. by rewrite <- Zmult_compare_compat_r.
  - injection Ha as <-. rewrite (compare_int_float_scaled za fb y Hb). done.
  - injection Hb as <-. rewrite (compare_int_float_scaled zb fa x Ha).
    unfold Z.ltb. rewrite (Z.compare_antisym x). by destruct (x ?= zb * 2 ^ 1074).
  - rewrite FloatAxioms.ltb_spec. unfold SFltb.
    by rewrite (SFcompare_scaled _ _ x y (Prim2SF_valid fa) (Prim2SF_valid fb) Ha Hb).
Qed.

Lemma le_rank a b x y :
  Backend.rank a = Some x -> Backend.rank b = Some y -> Backend.le a b = (x <=? y).
Proof.
  assert (HK : 2 ^ 1074 > 0) by (apply Z.lt_gt, Z.pow_pos_nonneg; lia).
  destruct a as [za|fa], b as [zb|fb]; cbn [Backend.rank Backend.le]; intros Ha Hb.
  - injection Ha as <-. injection Hb as <-.
    unfold Z.leb. by rewrite <- Zmult_compare_compat_r.
  - injection Ha as <-. rewrite (compare_int_float_scaled za fb y Hb).
    unfold Z.leb. by destruct (za * 2 ^ 1074 ?= y).
  - injection Hb as <-. rewrite (compare_int_float_scaled zb fa x Ha).
    unfold Z.leb. rewrite (Z.compare_antisym x). by destruct (x ?= zb * 2 ^ 1074).
  - rewrite FloatAxioms.leb_spec. unfold SFleb.
    rewrite (SFcompare_scaled _ _ x y (Prim2SF_valid fa) (Prim2SF_valid fb) Ha Hb).
    unfold Z.leb. by destruct (x ?= y).
Qed.

Lemma finite_rank a : Backend.finite a = true -> exists x, Backend.rank a = Some x.
Proof. unfold Backend.finite. destruct (Backend.rank a); [eauto|done]. Qed.

(** A [float] that one finite number exceeds and another does not is
    finite itself. *)
Lemma between_finite (lat : float) p q :
  Backend.finite p = true -> Backend.finite q = true ->
  Backend.gt p (Backend.NumFloat lat) = true ->
  Backend.gt q (Backend.NumFloat lat) = false ->
  Backend.finite (Backend.NumFloat lat) = true.
Proof.
  unfold Backend.finite, Backend.gt. cbn [Backend.rank].
  intros Hp Hq Hgt Hle.
  destruct (Backend.scaled (Prim2SF lat)) eqn:El; [done|]. exfalso.
  destruct p as [zp|fp], q as [zq|fq]; cbn [Backend.rank Backend.lt] in *;
    rewrite ?FloatAxioms.ltb_spec in *;
    unfold Backend.compare_int_float, SFltb in *;
    destruct (Prim2SF lat) as [s|s| |s m e]; try done;
    repeat match goal with
           | H : context [Prim2SF ?f] |- _ =>
               destruct (Prim2SF f) as [?|?| |? ? ?]; try done
           end;
    by destruct s.
Qed.

Lemma foldl_min_rank : forall rest m0 r0,
  Backend.rank m0 = Some r0 ->
  Forall (fun x => Backend.finite x = true) rest ->
  exists rm,
    Backend.rank (foldl (fun m y => if Backend.lt y m then y else m) m0 rest) = Some rm
    /\ rm <= r0
    /\ Forall (fun x => exists rx, Backend.rank x = Some rx /\ rm <= rx) rest.
Proof.
  induction rest as [|y rest IH]; intros m0 r0 H0 Hall; cbn [foldl].
  - exists r0. split; [done|]. split; [lia|constructor].
  - inversion Hall as [|? ? Hy Hrest]; subst.
    destruct (finite_rank y Hy) as [ry Hry].
    rewrite (lt_rank y m0 ry r0 Hry H0).
    destruct (ry <? r0) eqn:E.
    + apply Z.ltb_lt in E.
      destruct (IH y ry Hry Hrest) as (rm & Hrm & Hle & Hres).
      exists rm. split; [done|]. split; [lia|].
      constructor; [by exists ry|done].
    + apply Z.ltb_ge in E.
      destruct (IH m0 r0 H0 Hrest) as (rm & Hrm & Hle & Hres).
      exists rm. split; [done|]. split; [done|].
      constructor; [exists ry; split; [done|lia]|done].
Qed.

Lemma foldl_max_rank : forall rest m0 r0,
  Backend.rank m0 = Some r0 ->
  Forall (fun x => Backend.finite x = true) rest ->
  exists rm,
    Backend.rank (foldl (fun m y => if Backend.gt y m then y else m) m0 rest) = Some rm
    /\ r0 <= rm
    /\ Forall (fun x => exists rx, Backend.rank x = Some rx /\ rx <= rm) rest.
Proof.
  induction rest as [|y rest IH]; intros m0 r0 H0 Hall; cbn [foldl].
  - exists r0. split; [done|]. split; [lia|constructor].
  - inversion Hall as [|? ? Hy Hrest]; subst.
    destruct (finite_rank y Hy) as [ry Hry].
    change (Backend.gt y m0) with (Backend.lt m0 y).
    rewrite (lt_rank m0 y r0 ry H0 Hry).
    destruct (r0 <? ry) eqn:E.
    + apply Z.ltb_lt in E.
      destruct (IH y ry Hry Hrest) as (rm & Hrm & Hle & Hres).
      exists rm. split; [done|]. split; [lia|].
      constructor; [by exists ry|done].
    + apply Z.ltb_ge in E.
      destruct (IH m0 r0 H0 Hrest) as (rm & Hrm & Hle & Hres).
      exists rm. split; [done|]. split; [done|].
      constructor; [exists ry; split; [done|lia]|done].
Qed.

(** Among finite numbers [min] and [max] are the extrema. *)
Lemma py_min_rank l m :
  Backend.py_min l = Ok m -> Forall (fun x => Backend.finite x = true) l ->
  exists rm, Backend.rank m = Some rm
             /\ Forall (fun x => exists rx, Backend.rank x = Some rx /\ rm <= rx) l.
Proof.
  destruct l as [|x rest]; [done|]. intros [= <-] Hall.
  inversion Hall as [|? ? Hx Hrest]; subst.
  destruct (finite_rank x Hx) as [rx Hrx].
  destruct (foldl_min_rank rest x rx Hrx Hrest) as (rm & Hrm & Hle & Hres).
  exists rm. split; [done|]. constructor; [by exists rx|done].
Qed.

Lemma py_max_rank l m :
  Backend.py_max l = Ok m -> Forall (fun x => Backend.finite x = true) l ->
  exists rm, Backend.rank m = Some rm
             /\ Forall (fun x => exists rx, Backend.rank x = Some rx /\ rx <= rm) l.
Proof.
  destruct l as [|x rest]; [done|]. intros [= <-] Hall.
  inversion Hall as [|? ? Hx Hrest]; subst.
  destruct (finite_rank x Hx) as [rx Hrx].
  destruct (foldl_max_rank rest x rx Hrx Hrest) as (rm & Hrm & Hle & Hres).
  exists rm. split; [done|]. constructor; [by exists rx|done].
Qed.

(** A walk that changes [inside] has met a straddling edge. *)
Lemma toggles_straddle lat lon es : forall inside r,
  Backend.toggles lat lon es inside = Ok r -> r <> inside ->
  exists e, e ∈ es /\ Backend.straddles lat e.1 e.2 = true.
Proof.
  induction es as [|e es IH]; intros inside r Hr Hne; cbn [Backend.toggles] in Hr.
  { injection Hr as <-. done. }
  destruct (Backend.straddles lat e.1 e.2) eqn:Hs.
  { exists e. split; [apply list_elem_of_here|done]. }
  unfold Backend.crosses in Hr. rewrite Hs in Hr. cbn [mbind result_bind] in Hr.
  destruct (IH _ _ Hr Hne) as (e' & He' & Hs').
  exists e'. split; [by apply list_elem_of_further|done].
Qed.

Lemma inside_straddles lat lon polygon :
  Backend.point_in_polygon lat lon polygon = Ok true ->
  exists e, e ∈ Backend.edges polygon /\ Backend.straddles lat e.1 e.2 = true.
Proof.
  rewrite point_in_polygon_toggles. intros Hin.
  by apply (toggles_straddle _ _ _ _ _ Hin).
Qed.

(** A point that the ray test classifies as inside lies within the
    latitudes of the box, when the vertex latitudes are finite. *)
Lemma inside_latitude lat lon coords b :
  Backend.bounding_box coords = Ok b ->
  Forall (fun v : Backend.vertex => Backend.finite v.1 = true) coords ->
  Backend.point_in_polygon lat lon coords = Ok true ->
  Backend.le (Backend.min_lat b) (Backend.NumFloat lat) = true
  /\ Backend.le (Backend.NumFloat lat) (Backend.max_lat b) = true.
Proof.
  intros Hb Hfin Hin.
  destruct (inside_straddles _ _ _ Hin) as (e & He & Hs).
  assert (Hends : (e.1 ∈ coords /\ Backend.finite e.1.1 = true)
                  /\ (e.2 ∈ coords /\ Backend.finite e.2.1 = true)).
  { apply (proj1 (Forall_forall _ _)
             (edges_forall (fun v => v ∈ coords /\ Backend.finite v.1 = true) coords
                (proj2 (Forall_forall _ _) (fun v Hv =>
                   conj Hv (proj1 (Forall_forall _ _) Hfin v Hv)))) e He). }
  assert (exists p q, p ∈ coords /\ q ∈ coords
            /\ Backend.finite p.1 = true /\ Backend.finite q.1 = true
            /\ Backend.gt p.1 (Backend.NumFloat lat) = true
            /\ Backend.gt q.1 (Backend.NumFloat lat) = false)
    as (p & q & Hp & Hq & Hfp & Hfq & Hgp & Hgq).
  { destruct Hends as [[H1 F1] [H2 F2]]. unfold Backend.straddles in Hs.
    destruct (Backend.gt e.1.1 (Backend.NumFloat lat)) eqn:E1,
             (Backend.gt e.2.1 (Backend.NumFloat lat)) eqn:E2; try done.
    - by exists e.1, e.2.
    - by exists e.2, e.1. }
  pose proof (between_finite lat p.1 q.1 Hfp Hfq Hgp Hgq) as Hfl.
  destruct (finite_rank _ Hfl) as [rl Hrl].
  destruct (finite_rank _ Hfp) as [rp Hrp].
  destruct (finite_rank _ Hfq) as [rq Hrq].
  unfold Backend.gt in Hgp, Hgq.
  rewrite (lt_rank _ _ rl rp Hrl Hrp) in Hgp. apply Z.ltb_lt in Hgp.
  rewrite (lt_rank _ _ rl rq Hrl Hrq) in Hgq. apply Z.ltb_ge in Hgq.
  unfold Backend.bounding_box in Hb.
  destruct (Backend.py_min (map fst coords)) as [lo_lat|] eqn:E1; [|done].
  destruct (Backend.py_max (map fst coords)) as [hi_lat|] eqn:E2; [|done].
  destruct (Backend.py_min (map snd coords)) as [lo_lon|] eqn:E3; [|done].
  destruct (Backend.py_max (map snd coords)) as [hi_lon|] eqn:E4; [|done].
  cbn [mbind result_bind] in Hb. injection Hb as <-.
  cbn [Backend.min_lat Backend.max_lat].
  assert (Hlats : Forall (fun x => Backend.finite x = true) (map fst coords))
    by (by apply Forall_fmap).
  destruct (py_min_rank _ _ E1 Hlats) as (rmin & Hrmin & Hmin).
  destruct (py_max_rank _ _ E2 Hlats) as (rmax & Hrmax & Hmax).
  assert (Hq' : q.1 ∈ map fst coords) by (by apply list_elem_of_fmap_2).
  assert (Hp' : p.1 ∈ map fst coords) by (by apply list_elem_of_fmap_2).
  destruct (proj1 (Forall_forall _ _) Hmin _ Hq') as (rq' & Hrq' & Hle1).
  destruct (proj1 (Forall_forall _ _) Hmax _ Hp') as (rp' & Hrp' & Hle2).
  rewrite Hrq in Hrq'. injection Hrq' as <-.
  rewrite Hrp in Hrp'. injection Hrp' as <-.
  rewrite (le_rank _ _ rmin rl Hrmin Hrl), (le_rank _ _ rl rmax Hrl Hrmax).
  split; apply Z.leb_le; lia.
Qed.

(** C10, as stated, fails on Python's numbers.  The guard compares an
    [int] with a [float] exactly, so it tells [2^53 + 1] from [2.0^53]; the
    subtraction then converts the [int], which rounds to [2.0^53], and the
    divisor is zero.  An [int] too large for a double makes the arithmetic
    raise [OverflowError]. *)
Lemma point_in_polygon_exception_counterexample :
  Backend.straddles 9007199254740992%float
    (Backend.NumInt 9007199254740993, Backend.NumInt 0)
    (Backend.NumFloat 9007199254740992%float, Backend.NumInt 1) = true
  /\ Backend.point_in_polygon 9007199254740992%float 0.5%float rounded_latitudes
     = Raise ZeroDivisionError
  /\ Backend.point_in_polygon 1%float 0.5%float huge_latitude = Raise OverflowError
  /\ ~ (forall lat lon polygon,
          exists inside, Backend.point_in_polygon lat lon polygon = Ok inside).
Proof.
  assert (H : Backend.point_in_polygon 9007199254740992%float 0.5%float rounded_latitudes
              = Raise ZeroDivisionError) by (vm_compute; reflexivity).
  split; [vm_compute; reflexivity|]. split; [exact H|].
  split; [vm_compute; reflexivity|].
  intros Hall.
  destruct (Hall 9007199254740992%float 0.5%float rounded_latitudes) as [inside Hin].
  congruence.
Qed.

(** C10, amended.  [point_in_polygon] terminates on every point and every
    vertex list, with a boolean, a [ZeroDivisionError] or an
    [OverflowError]; the indices stay in range.  The division is reached
    only under the straddle guard.  Between two [float] latitudes the guard
    forces a divisor that is not zero, and between two [int] latitudes a
    difference that is not zero.  When every [int] among the latitudes is
    below [2^52] in magnitude, the guard forces the divisor, as the division
    takes it, to be not zero; so on a vertex list whose coordinates are
    [float]s, whatever they are, or [int]s below [2^52] in magnitude, the
    test returns a boolean. *)
Theorem point_in_polygon_float_total (lat lon : float) (polygon : list Backend.vertex) :
  ((exists inside, Backend.point_in_polygon lat lon polygon = Ok inside)
   \/ Backend.point_in_polygon lat lon polygon = Raise ZeroDivisionError
   \/ Backend.point_in_polygon lat lon polygon = Raise OverflowError)
  /\ (forall pi pj : Backend.vertex,
        Backend.straddles lat pi pj = false -> Backend.crosses lat lon pi pj = Ok false)
  /\ (forall (a b : float) (lon_i lon_j : Backend.number),
        Backend.straddles lat (Backend.NumFloat a, lon_i) (Backend.NumFloat b, lon_j) = true ->
        PrimFloat.eqb (PrimFloat.sub b a) 0 = false)
  /\ (forall (a b : Z) (lon_i lon_j : Backend.number),
        Backend.straddles lat (Backend.NumInt a, lon_i) (Backend.NumInt b, lon_j) = true ->
        b - a <> 0)
  /\ (forall (pi pj : Backend.vertex) (d : Backend.number) (f : float),
        Backend.small pi.1 = true -> Backend.small pj.1 = true ->
        Backend.straddles lat pi pj = true ->
        Backend.sub pj.1 pi.1 = Ok d -> Backend.to_float d = Ok f ->
        PrimFloat.eqb f 0 = false)
  /\ (forall pi pj : Backend.vertex,
        Backend.small_vertex pi = true -> Backend.small_vertex pj = true ->
        exists c, Backend.crosses lat lon pi pj = Ok c)
  /\ (Forall (fun v => Backend.small_vertex v = true) polygon ->
      exists inside, Backend.point_in_polygon lat lon polygon = Ok inside).
Proof.
  split; [rewrite point_in_polygon_toggles; apply toggles_outcome|].
  split; [intros pi pj Hs; unfold Backend.crosses; by rewrite Hs|].
  split; [apply straddles_float_divisor|].
  split; [apply straddles_int_divisor|].
  split; [apply straddles_small_divisor|].
  split; [apply crosses_small|].
  apply point_in_polygon_small.
Qed.

(** C7, as stated, fails on doubles.  The point (1, 0.3333333333333333) is
    off the boundary of the triangle (0, 0), (3, 1), (3, -1): it lies on
    none of the lines through its edges.  The edge from (0, 0) to (3, 1)
    meets latitude 1 at a third; computed from (0, 0) the crossing longitude
    rounds to 0.3333333333333333, computed from (3, 1) to
    0.33333333333333337, and only the second lies east of the point. *)
Lemma reversal_counterexample :
  (3 <= length thin_triangle)%nat
  /\ Backend.off_boundary 1%float 0.3333333333333333%float thin_triangle
  /\ Backend.point_in_polygon 1%float 0.3333333333333333%float thin_triangle = Ok true
  /\ Backend.point_in_polygon 1%float 0.3333333333333333%float (reverse thin_triangle)
     = Ok false
  /\ ~ (forall lat lon polygon,
          (3 <= length polygon)%nat -> Backend.off_boundary lat lon polygon ->
          Backend.point_in_polygon lat lon (reverse polygon)
          = Backend.point_in_polygon lat lon polygon).
Proof.
  assert (Hlen : (3 <= length thin_triangle)%nat) by (cbn; lia).
  assert (Hoff : Backend.off_boundary 1%float 0.3333333333333333%float thin_triangle).
  { unfold Backend.off_boundary, thin_triangle, Backend.edges.
    cbn [List.last Backend.consec].
    repeat constructor; intros H; vm_compute in H;
      apply Z.eqb_eq in H; vm_compute in H; discriminate H. }
  assert (H1 : Backend.point_in_polygon 1%float 0.3333333333333333%float thin_triangle
               = Ok true) by (vm_compute; reflexivity).
  assert (H2 : Backend.point_in_polygon 1%float 0.3333333333333333%float
                 (reverse thin_triangle) = Ok false) by (vm_compute; reflexivity).
  split; [done|]. split; [done|]. split; [done|]. split; [done|].
  intros Hall. specialize (Hall _ _ _ Hlen Hoff). congruence.
Qed.

(** C7, amended.  Rotating the vertex list leaves the outcome of
    [point_in_polygon] unchanged, for every vertex list and every point:
    both runs return the same boolean or both raise; on coordinates that
    are [float]s or [int]s below [2^52] in magnitude both return the same
    boolean.  Reversing the vertex list visits the
    same edges from the other end, so the outcome is unchanged whenever the
    crossing test of each edge answers alike from both ends; rounding can
    make the two answers differ for a point close to an edge. *)
Theorem point_in_polygon_rotation (lat lon : float) (polygon : list Backend.vertex)
    (k : nat) :
  agree (Backend.point_in_polygon lat lon (rotate k polygon))
        (Backend.point_in_polygon lat lon polygon)
  /\ (Forall (fun v => Backend.small_vertex v = true) polygon ->
      Backend.point_in_polygon lat lon (rotate k polygon)
      = Backend.point_in_polygon lat lon polygon)
  /\ (Forall (fun e => Backend.crosses lat lon e.2 e.1 = Backend.crosses lat lon e.1 e.2)
        (Backend.edges polygon) ->
      agree (Backend.point_in_polygon lat lon (reverse polygon))
            (Backend.point_in_polygon lat lon polygon)).
Proof.
  assert (Hrot : agree (Backend.point_in_polygon lat lon (rotate k polygon))
                       (Backend.point_in_polygon lat lon polygon)).
  { rewrite !point_in_polygon_toggles. apply toggles_perm, backend_edges_rotate. }
  split; [exact Hrot|]. split.
  - intros Hall.
    destruct (point_in_polygon_small lat lon polygon Hall) as [b Hb].
    destruct (point_in_polygon_small lat lon (rotate k polygon)) as [b' Hb'].
    { unfold rotate. apply Forall_app. split.
      - by apply Forall_drop.
      - by apply Forall_take. }
    by apply (agree_ok _ _ b' b).
  - intros Hflip. rewrite !point_in_polygon_toggles.
    eapply agree_trans; [apply toggles_perm, backend_edges_reverse|].
    rewrite toggles_flip by done. apply agree_refl.
Qed.

(** *** The bounding box *)

Lemma generators_in_bounds_candidates b rows :
  Backend.generators_in_bounds b rows
  = List.filter (Backend.in_box b) (Backend.candidates rows).
Proof.
  unfold Backend.generators_in_bounds, Backend.candidates.
  induction rows as [|row rows IH]; [done|]. cbn [omap list_omap].
  destruct (Backend.located row) as [[la lo]|]; [|exact IH].
  destruct (Backend.positive_capacity row).
  - rewrite andb_true_r. cbn [List.filter].
    change (Backend.in_box b (Backend.to_generator row la lo))
      with (Backend.in_bounds b la lo).
    destruct (Backend.in_bounds b la lo); [by rewrite IH|exact IH].
  - rewrite andb_false_r. exact IH.
Qed.

(** The exact test of one generator does not depend on the others, so it
    commutes with any selection made beforehand. *)
Lemma filter_in_polygon_filter coords (P : Backend.Generator -> bool) : forall gs members,
  Backend.filter_in_polygon coords gs = Ok members ->
  Backend.filter_in_polygon coords (List.filter P gs) = Ok (List.filter P members).
Proof.
  induction gs as [|g gs IH]; intros members H; cbn [Backend.filter_in_polygon] in H.
  { by injection H as <-. }
  destruct (Backend.point_in_polygon (Backend.lat g) (Backend.lon g) coords) as [keep|] eqn:Ek;
    [|done].
  destruct (Backend.filter_in_polygon coords gs) as [kept|] eqn:Er; [|done].
  cbn [mbind result_bind] in H. injection H as <-.
  specialize (IH kept eq_refl). cbn [List.filter].
  destruct (P g) eqn:Ep.
  - cbn [Backend.filter_in_polygon]. rewrite Ek, IH. cbn [mbind result_bind].
    destruct keep; [|done]. cbn [List.filter]. by rewrite Ep.
  - rewrite IH. destruct keep; [|done]. cbn [List.filter]. by rewrite Ep.
Qed.

Lemma filter_in_polygon_inv coords : forall gs members,
  Backend.filter_in_polygon coords gs = Ok members ->
  Forall (fun g => g ∈ gs
            /\ Backend.point_in_polygon (Backend.lat g) (Backend.lon g) coords = Ok true)
    members.
Proof.
  induction gs as [|g gs IH]; intros members H; cbn [Backend.filter_in_polygon] in H.
  { injection H as <-. constructor. }
  destruct (Backend.point_in_polygon (Backend.lat g) (Backend.lon g) coords) as [keep|] eqn:Ek;
    [|done].
  destruct (Backend.filter_in_polygon coords gs) as [kept|] eqn:Er; [|done].
  cbn [mbind result_bind] in H. injection H as <-.
  assert (Hkept : Forall (fun g' => g' ∈ g :: gs
            /\ Backend.point_in_polygon (Backend.lat g') (Backend.lon g') coords = Ok true)
            kept).
  { eapply Forall_impl; [apply (IH kept eq_refl)|].
    intros g' [Hin Hp]. split; [by apply list_elem_of_further|done]. }
  destruct keep; [|done]. constructor; [|done].
  split; [apply list_elem_of_here|done].
Qed.

Lemma filter_in_polygon_small coords gs :
  Forall (fun v => Backend.small_vertex v = true) coords ->
  exists members, Backend.filter_in_polygon coords gs = Ok members.
Proof.
  intros Hall. induction gs as [|g gs [kept IH]]; [by eexists|].
  cbn [Backend.filter_in_polygon].
  destruct (point_in_polygon_small (Backend.lat g) (Backend.lon g) coords Hall) as [keep ->].
  rewrite IH. cbn [mbind result_bind]. eauto.
Qed.

(** C6, as stated, fails on doubles.  The easternmost vertex of the
    triangle lies at longitude 0.3; at latitude 51 the crossing longitude
    of the edge from (52, -10.1) to that vertex is computed as
    0.3000000000000007, so a generator at longitude 0.3000000000000003,
    east of every vertex, passes the ray test.  The exact test alone keeps it; the bounding box
    drops it first. *)
Lemma bounding_box_prefilter_counterexample :
  Backend.point_in_polygon 51%float 0.3000000000000003%float eastern_triangle = Ok true
  /\ (exists b, Backend.bounding_box eastern_triangle = Ok b
        /\ Backend.max_lon b = Backend.NumFloat 0.3%float
        /\ Backend.in_bounds b 51%float 0.3000000000000003%float = false)
  /\ Backend.exact_members eastern_triangle [eastern_row]
     = Ok [Backend.to_generator eastern_row 51%float 0.3000000000000003%float]
  /\ Backend.polygon_members eastern_triangle [eastern_row] = Ok []
  /\ ~ (forall lat lon coords b,
          Backend.bounding_box coords = Ok b ->
          Backend.point_in_polygon lat lon coords = Ok true ->
          Backend.in_bounds b lat lon = true)
  /\ ~ (forall coords rows,
          Backend.polygon_members coords rows = Backend.exact_members coords rows).
Proof.
  assert (H1 : Backend.point_in_polygon 51%float 0.3000000000000003%float eastern_triangle
               = Ok true) by (vm_compute; reflexivity).
  assert (H2 : exists b, Backend.bounding_box eastern_triangle = Ok b
        /\ Backend.max_lon b = Backend.NumFloat 0.3%float
        /\ Backend.in_bounds b 51%float 0.3000000000000003%float = false).
  { eexists. split; [reflexivity|]. split; vm_compute; reflexivity. }
  assert (H3 : Backend.exact_members eastern_triangle [eastern_row]
     = Ok [Backend.to_generator eastern_row 51%float 0.3000000000000003%float])
    by (vm_compute; reflexivity).
  assert (H4 : Backend.polygon_members eastern_triangle [eastern_row] = Ok [])
    by (vm_compute; reflexivity).
  split; [done|]. split; [done|]. split; [done|]. split; [done|]. split.
  - intros Hall. destruct H2 as (b & Hb & _ & Hout).
    rewrite (Hall _ _ _ _ Hb H1) in Hout. done.
  - intros Hall. rewrite Hall, H3 in H4. done.
Qed.

(** C6, amended.  A point that the ray test classifies as inside lies
    within the latitudes of the vertex bounding box, when the vertex
    latitudes are finite; its longitude need not lie within the box.
    Restricting the candidates to the box before the exact test never adds
    a member and never changes the verdict on a candidate inside the box:
    whenever the exact test alone classifies all candidates, the two-stage
    filter returns those of its members that lie in the box, in the same
    order.  Every generator it returns is a candidate, lies in the box and
    is classified inside by the ray test.  On coordinates that are [float]s
    or [int]s below [2^52] in magnitude both filters return.  On an empty
    vertex list there is no box: the two-stage filter raises [ValueError],
    where the exact test alone finds no member. *)
Theorem bounding_box_prefilter_subset (coords : list Backend.vertex)
    (rows : list Backend.capacity_row) :
  (forall lat lon b,
     Backend.bounding_box coords = Ok b ->
     Forall (fun v : Backend.vertex => Backend.finite v.1 = true) coords ->
     Backend.point_in_polygon lat lon coords = Ok true ->
     Backend.le (Backend.min_lat b) (Backend.NumFloat lat) = true
     /\ Backend.le (Backend.NumFloat lat) (Backend.max_lat b) = true)
  /\ (forall b members,
        Backend.bounding_box coords = Ok b ->
        Backend.exact_members coords rows = Ok members ->
        Backend.polygon_members coords rows = Ok (List.filter (Backend.in_box b) members))
  /\ (forall b found,
        Backend.bounding_box coords = Ok b ->
        Backend.polygon_members coords rows = Ok found ->
        Forall (fun g =>
                  g ∈ Backend.candidates rows
                  /\ Backend.in_bounds b (Backend.lat g) (Backend.lon g) = true
                  /\ Backend.point_in_polygon (Backend.lat g) (Backend.lon g) coords
                     = Ok true) found)
  /\ (coords <> [] -> Forall (fun v => Backend.small_vertex v = true) coords ->
      exists b members,
        Backend.bounding_box coords = Ok b
        /\ Backend.exact_members coords rows = Ok members
        /\ Backend.polygon_members coords rows = Ok (List.filter (Backend.in_box b) members))
  /\ (coords = [] ->
      Backend.polygon_members coords rows = Raise ValueError
      /\ Backend.exact_members coords rows = Ok []).
Proof.
  assert (Hsub : forall b members,
     Backend.bounding_box coords = Ok b ->
     Backend.exact_members coords rows = Ok members ->
     Backend.polygon_members coords rows = Ok (List.filter (Backend.in_box b) members)).
  { intros b members Hb Hex. unfold Backend.polygon_members. rewrite Hb.
    cbn [mbind result_bind]. rewrite generators_in_bounds_candidates.
    by apply filter_in_polygon_filter. }
  split; [intros lat lon b; apply inside_latitude|].
  split; [exact Hsub|]. split; [|split].
  - intros b found Hb Hfound. unfold Backend.polygon_members in Hfound.
    rewrite Hb in Hfound. cbn [mbind result_bind] in Hfound.
    rewrite generators_in_bounds_candidates in Hfound.
    eapply Forall_impl; [apply (filter_in_polygon_inv _ _ _ Hfound)|].
    intros g [Hin Hp]. apply list_elem_of_In, List.filter_In in Hin as [Hin Hbox].
    split; [by apply list_elem_of_In|]. done.
  - intros Hne Hall.
    destruct coords as [|v coords]; [done|].
    destruct (filter_in_polygon_small (v :: coords) (Backend.candidates rows) Hall)
      as [members Hm].
    eexists _, members. split; [reflexivity|]. split; [exact Hm|].
    by apply Hsub.
  - intros ->. split; [done|].
    unfold Backend.exact_members.
    induction (Backend.candidates rows) as [|g gs IH]; [done|].
    cbn [Backend.filter_in_polygon]. rewrite IH. done.
Qed.

(** C6 amended, on the eastern triangle: the generator the exact test
    keeps is outside the box, and the two-stage filter returns none. *)
Lemma bounding_box_prefilter_subset_witness :
  Backend.polygon_members eastern_triangle [eastern_row] = Ok [].
Proof.
  refine (proj1 (proj2 (bounding_box_prefilter_subset eastern_triangle [eastern_row]))
            _ _ eq_refl eq_refl).
Defined.

(** ** Record mapping *)


Lemma falsy_at_truthy (data : gmap string pyval) k :
  falsy_at data k <-> truthy (dict_get data k PyNone) = false.
Proof.
  unfold falsy_at, dict_get. destruct (data !! k) as [v|]; split.
  - intros [?|(v' & [= <-] & Hv)]; done.
  - intros Hv. right. eauto.
  - done.
  - intros _. by left.
Qed.



Lemma optional_float_field_falsy (data : gmap string pyval) k :
  falsy_at data k -> optional_float_field data k = Ok None.
Proof. unfold optional_float_field. intros H. apply falsy_at_truthy in H. by rewrite H. Qed.

Lemma optional_float_field_truthy (data : gmap string pyval) k v :
  data !! k = Some v -> truthy v = true ->
  optional_float_field data k = (f ← py_float v; Ok (Some f)).
Proof.
  unfold optional_float_field, dict_get, dict_getitem. intros -> Hv. by rewrite Hv.
Qed.

Lemma optional_float_field_none (data : gmap string pyval) k :
  optional_float_field data k = Ok None <-> falsy_at data k.
Proof.
  split; [|apply optional_float_field_falsy].
  unfold optional_float_field. rewrite falsy_at_truthy.
  destruct (truthy (dict_get data k PyNone)); [|done].
  destruct (dict_getitem data k) as [v|]; [|done]. cbn.
  by destruct (py_float v).
Qed.


Lemma generator_from_dict_inv data e :
  GeneratorCapacity.from_dict data = Ok e ->
  (float_field data "nameplate-capacity-mw" = Ok (GeneratorCapacity.nameplate_capacity_mw e)
   /\ float_field data "net-summer-capacity-mw" = Ok (GeneratorCapacity.net_summer_capacity_mw e)
   /\ float_field data "net-winter-capacity-mw" = Ok (GeneratorCapacity.net_winter_capacity_mw e)
   /\ optional_year_field data "operating-year-month" = Ok (GeneratorCapacity.operating_year e)
   /\ optional_float_field data "latitude" = Ok (GeneratorCapacity.latitude e)
   /\ optional_float_field data "longitude" = Ok (GeneratorCapacity.longitude e))
  /\ (GeneratorCapacity.period e = dict_get data "period" (PyStr "")
      /\ GeneratorCapacity.state e = dict_get data "stateid" (PyStr "")
      /\ GeneratorCapacity.state_description e = dict_get data "stateName" (PyStr "")
      /\ GeneratorCapacity.sector e = dict_get data "sector" (PyStr "")
      /\ GeneratorCapacity.sector_description e = dict_get data "sectorName" (PyStr "")
      /\ GeneratorCapacity.entity_id e = dict_get data "entityid" (PyStr "")
      /\ GeneratorCapacity.entity_name e = dict_get data "entityName" (PyStr "")
      /\ GeneratorCapacity.plant_id e = dict_get data "plantid" (PyStr "")
      /\ GeneratorCapacity.plant_name e = dict_get data "plantName" (PyStr "")
      /\ GeneratorCapacity.generator_id e = dict_get data "generatorid" (PyStr "")
      /\ GeneratorCapacity.technology e = dict_get data "technology" (PyStr "")
      /\ GeneratorCapacity.energy_source e = dict_get data "energy_source_code" (PyStr "")
      /\ GeneratorCapacity.energy_source_description e
         = dict_get data "energy_source_desc" (PyStr "")
      /\ GeneratorCapacity.prime_mover e = dict_get data "prime_mover_code" (PyStr "")
      /\ GeneratorCapacity.status e = dict_get data "status" (PyStr "")).
Proof.
  unfold GeneratorCapacity.from_dict.
  destruct (float_field data "nameplate-capacity-mw") as [f1|]; [|done].
  destruct (float_field data "net-summer-capacity-mw") as [f2|]; [|done].
  destruct (float_field data "net-winter-capacity-mw") as [f3|]; [|done].
  destruct (optional_year_field data "operating-year-month") as [y|]; [|done].
  destruct (optional_float_field data "latitude") as [la|]; [|done].
  destruct (optional_float_field data "longitude") as [lo|]; [|done].
  cbn. intros [= <-]. cbn. repeat split.
Qed.





(** C3, as stated, fails: a numeric coordinate 0 is falsy, so it is mapped
    to [None] although the key is present. *)
Lemma zero_coordinate_counterexample :
  equator_row !! "latitude" = Some (PyInt 0)
  /\ (exists e, GeneratorCapacity.from_dict equator_row = Ok e
                /\ GeneratorCapacity.latitude e = None)
  /\ ~ (forall data e,
          GeneratorCapacity.from_dict data = Ok e ->
          (GeneratorCapacity.latitude e = None <-> data !! "latitude" = None)).
Proof.
  assert (Hk : equator_row !! "latitude" = Some (PyInt 0)) by reflexivity.
  split; [done|]. split.
  - eexists. split; reflexivity.
  - intros H.
    destruct (GeneratorCapacity.from_dict equator_row) as [e|] eqn:He; [|done].
    assert (Hla : GeneratorCapacity.latitude e = None).
    { vm_compute in He. injection He as <-. reflexivity. }
    apply (H _ _ He) in Hla. congruence.
Qed.

(** C3, amended.  A coordinate is [None] exactly when its raw key is
    missing or holds a falsy value (null, a numeric zero, an empty string);
    a truthy value is converted by [float].  So a zero coordinate survives
    only as text (["0"], ["0.0"]): the number 0 is mapped to [None]. *)
Theorem coordinates_none_iff_falsy (data : gmap string pyval) (e : GeneratorCapacity.t) :
  GeneratorCapacity.from_dict data = Ok e ->
  (GeneratorCapacity.latitude e = None <-> falsy_at data "latitude")
  /\ (GeneratorCapacity.longitude e = None <-> falsy_at data "longitude")
  /\ (forall v, data !! "latitude" = Some v -> truthy v = true ->
        exists f, py_float v = Ok f /\ GeneratorCapacity.latitude e = Some f)
  /\ (forall v, data !! "longitude" = Some v -> truthy v = true ->
        exists f, py_float v = Ok f /\ GeneratorCapacity.longitude e = Some f)
  /\ (data !! "latitude" = Some (PyStr "0") -> GeneratorCapacity.latitude e = Some (PFin 0))
  /\ (data !! "latitude" = Some (PyInt 0) -> GeneratorCapacity.latitude e = None).
Proof.
  intros He. apply generator_from_dict_inv in He as [(_ & _ & _ & _ & Hla & Hlo) _].
  assert (Htruthy : forall k o v,
    optional_float_field data k = Ok o -> data !! k = Some v -> truthy v = true ->
    exists f, py_float v = Ok f /\ o = Some f).
  { intros k o v Ho Hk Hv. rewrite (optional_float_field_truthy _ _ _ Hk Hv) in Ho.
    destruct (py_float v) as [f|]; [|done]. injection Ho as <-. eauto. }
  split; [|split; [|split; [|split; [|split]]]].
  - rewrite <- optional_float_field_none, Hla. split; congruence.
  - rewrite <- optional_float_field_none, Hlo. split; congruence.
  - intros v. by apply Htruthy.
  - intros v. by apply Htruthy.
  - intros Hk. destruct (Htruthy _ _ _ Hla Hk eq_refl) as (f & Hf & ->).
    by injection Hf as <-.
  - intros Hk. assert (Hf : falsy_at data "latitude") by (right; eauto).
    apply optional_float_field_none in Hf. congruence.
Qed.

(** C3 amended, on a row at latitude 0 (a number) and longitude "0" (text). *)
Lemma coordinates_none_iff_falsy_witness :
  exists e,
    GeneratorCapacity.from_dict equator_row = Ok e
    /\ GeneratorCapacity.latitude e = None
    /\ GeneratorCapacity.longitude e = Some (PFin 0).
Proof.
  eexists. split; [reflexivity|].
  pose proof (coordinates_none_iff_falsy equator_row _ eq_refl) as (_ & _ & _ & Hlo & _ & Hla).
  split; [exact (Hla eq_refl)|].
  destruct (Hlo (PyStr "0") eq_refl eq_refl) as (f & Hf & Hl).
  injection Hf as <-. exact Hl.
Defined.

(** * Further properties of the modelled code *)

(** ** Retry and backoff, continued *)

Lemma retry_trace_sleep_transport send k :
  (forall i, 0 <= i < Z.of_nat k -> send i = RequestException) ->
  total_sleep (retry_trace send 0 k) = Z.of_nat k.
Proof.
  induction k as [|k IH]; intros Hall; [done|].
  rewrite retry_trace_S, total_sleep_app, IH by (intros i Hi; apply Hall; lia).
  rewrite Z.add_0_l, (Hall (Z.of_nat k)) by lia. cbn. lia.
Qed.

(** X1. When every attempt fails in the transport, [_request] sleeps one
    second after each attempt but the last and then raises
    [EIARequestError] (without a status code): [max_retries] requests and
    [max_retries - 1] seconds in all. *)
Theorem transport_failures_exhaust (cfg : EIAConfig) (send : Z -> attempt_outcome) :
  1 <= max_retries cfg ->
  (forall i, 0 <= i < max_retries cfg -> send i = RequestException) ->
  fst (_request cfg send) = Raise (EIARequestError None)
  /\ total_sleep (snd (_request cfg send)) = max_retries cfg - 1
  /\ Z.of_nat (request_count (snd (_request cfg send))) = max_retries cfg.
Proof.
  intros Hmr Hall.
  pose (k := Z.to_nat (max_retries cfg - 1)).
  assert (Hk : Z.of_nat k = max_retries cfg - 1) by (unfold k; lia).
  rewrite (request_after_retries cfg send k); cycle 1.
  { intros i Hi. rewrite Hall by lia. done. }
  { lia. }
  cbn [_request_loop]. rewrite (Hall (Z.of_nat k)) by lia.
  assert (Hlast : (Z.of_nat k <? max_retries cfg - 1) = false) by lia.
  rewrite Hlast. cbn [fst snd]. split; [done|].
  rewrite total_sleep_app, request_count_app, retry_trace_request_count.
  rewrite retry_trace_sleep_transport by (intros i Hi; apply Hall; lia).
  cbn. lia.
Qed.

(** X1, at the default configuration: three failed attempts, two seconds. *)
Lemma transport_failures_exhaust_witness :
  fst (_request (EIAConfig_default "key") (fun _ => RequestException))
    = Raise (EIARequestError None)
  /\ total_sleep (snd (_request (EIAConfig_default "key") (fun _ => RequestException))) = 2.
Proof.
  assert (H1 : 1 <= max_retries (EIAConfig_default "key")) by (cbn; lia).
  pose proof (transport_failures_exhaust (EIAConfig_default "key")
                (fun _ => RequestException) H1 (fun _ _ => eq_refl)) as (Ha & Hb & _).
  exact (conj Ha Hb).
Defined.

Lemma request_loop_final_invalid_json send mr attempt rest tr status :
  send attempt = InvalidJSONResponse status -> 400 <= status -> status <> 429 ->
  _request_loop send mr (attempt :: rest) tr =
    (_handle_response_invalid_json status, tr ++ [EvRequest attempt]).
Proof.
  intros Hs Hge Hne. cbn [_request_loop]. rewrite Hs.
  unfold _handle_response_invalid_json.
  destruct (status =? 401); [done|].
  destruct (status =? 429) eqn:E; [apply Z.eqb_eq in E; done|].
  destruct (status =? 404); [done|].
  destruct (status >=? 400) eqn:E400; [done|lia].
Qed.

Lemma request_loop_invalid_json_success send mr attempt rest tr status :
  send attempt = InvalidJSONResponse status -> status < 400 ->
  _request_loop send mr (attempt :: rest) tr =
    if attempt <? mr - 1
    then _request_loop send mr rest (tr ++ [EvRequest attempt; EvSleep 1])
    else (Raise (EIARequestError None), tr ++ [EvRequest attempt]).
Proof.
  intros Hs Hlt. cbn [_request_loop]. rewrite Hs.
  unfold _handle_response_invalid_json.
  destruct (status =? 401) eqn:E1; [lia|]. destruct (status =? 429) eqn:E2; [lia|].
  destruct (status =? 404) eqn:E3; [lia|]. destruct (status >=? 400) eqn:E4; [lia|].
  destruct (attempt <? mr - 1); [|done].
  by rewrite <- app_assoc.
Qed.

(** X2. After any run of retried attempts (rate limits, transport failures
    or successes whose body is not JSON), the first response that is
    neither a 429 nor a success with a body that is not JSON ends the
    request at once with the verdict of [_handle_response]: the decoded
    body below 400, [EIADataNotFoundError] for 404, and [EIARequestError]
    carrying the status for any other status from 400 up except 401,
    whether or not the body is JSON.  Nothing is requested or slept
    afterwards.  A response below 400 whose body is not JSON is not such a
    verdict: the error of [response.json()] is answered like a failed
    transport call, with a sleep of one second and the next attempt, or on
    the last attempt with [EIARequestError] without a status. *)
Theorem first_final_response_decides (cfg : EIAConfig) (send : Z -> attempt_outcome)
    (k : nat) :
  (forall i, 0 <= i < Z.of_nat k -> retried (send i) = true) ->
  Z.of_nat k < max_retries cfg ->
  (forall status body,
     send (Z.of_nat k) = HttpResponse status body -> status <> 429 ->
     _request cfg send
       = (_handle_response status body, retry_trace send 0 k ++ [EvRequest (Z.of_nat k)])
     /\ (status < 400 -> fst (_request cfg send) = Ok body)
     /\ (status = 404 -> fst (_request cfg send) = Raise EIADataNotFoundError)
     /\ (400 <= status -> status <> 401 -> status <> 404 ->
         fst (_request cfg send) = Raise (EIARequestError (Some status))))
  /\ (forall status,
        send (Z.of_nat k) = InvalidJSONResponse status -> 400 <= status -> status <> 429 ->
        _request cfg send
          = (_handle_response_invalid_json status,
             retry_trace send 0 k ++ [EvRequest (Z.of_nat k)])
        /\ (status = 404 -> fst (_request cfg send) = Raise EIADataNotFoundError)
        /\ (status <> 401 -> status <> 404 ->
            fst (_request cfg send) = Raise (EIARequestError (Some status))))
  /\ (forall status,
        send (Z.of_nat k) = InvalidJSONResponse status -> status < 400 ->
        retried (send (Z.of_nat k)) = true
        /\ (Z.of_nat k < max_retries cfg - 1 ->
            _request cfg send
              = _request_loop send (max_retries cfg)
                  (seqZ (Z.of_nat k + 1) (max_retries cfg - Z.of_nat k - 1))
                  (retry_trace send 0 k ++ [EvRequest (Z.of_nat k); EvSleep 1]))
        /\ (Z.of_nat k = max_retries cfg - 1 ->
            _request cfg send
              = (Raise (EIARequestError None),
                 retry_trace send 0 k ++ [EvRequest (Z.of_nat k)]))).
Proof.
  intros Hall Hk.
  rewrite (request_after_retries cfg send k) by done.
  split; [|split].
  - intros status body Hs Hne.
    rewrite (request_loop_final _ _ _ _ _ _ _ Hs) by done.
    split; [done|]. cbn [fst]. unfold _handle_response.
    split; [|split].
    + intros Hlt.
      destruct (status =? 401) eqn:E1; [lia|]. destruct (status =? 429) eqn:E2; [lia|].
      destruct (status =? 404) eqn:E3; [lia|]. by destruct (status >=? 400) eqn:E4; [lia|].
    + by intros ->.
    + intros Hge H401 H404.
      destruct (status =? 401) eqn:E1; [lia|]. destruct (status =? 429) eqn:E2; [lia|].
      destruct (status =? 404) eqn:E3; [lia|]. by destruct (status >=? 400) eqn:E4; [|lia].
  - intros status Hs Hge Hne.
    rewrite (request_loop_final_invalid_json _ _ _ _ _ _ Hs) by done.
    split; [done|]. cbn [fst]. unfold _handle_response_invalid_json.
    split.
    + by intros ->.
    + intros H401 H404.
      destruct (status =? 401) eqn:E1; [lia|]. destruct (status =? 429) eqn:E2; [lia|].
      destruct (status =? 404) eqn:E3; [lia|]. by destruct (status >=? 400) eqn:E4; [|lia].
  - intros status Hs Hlt.
    rewrite (request_loop_invalid_json_success _ _ _ _ _ _ Hs) by done.
    split; [|split].
    + rewrite Hs. cbn [retried].
      assert ((status <? 400) = true) as -> by lia. apply orb_true_r.
    + intros Hlast. by assert ((Z.of_nat k <? max_retries cfg - 1) = true) as -> by lia.
    + intros Hlast. by assert ((Z.of_nat k <? max_retries cfg - 1) = false) as -> by lia.
Qed.

(** X2, at the default configuration: a 200 whose body is not JSON is slept
    on and retried, and the 500 that follows decides. *)
Lemma first_final_response_decides_witness :
  _request (EIAConfig_default "key")
    (fun i => if i =? 0 then InvalidJSONResponse 200 else HttpResponse 500 PyNone)
  = (Raise (EIARequestError (Some 500)), [EvRequest 0; EvSleep 1; EvRequest 1]).
Proof.
  assert (Hall : forall i, 0 <= i < Z.of_nat 1 ->
    retried ((fun i => if i =? 0 then InvalidJSONResponse 200 else HttpResponse 500 PyNone) i)
      = true).
  { intros i Hi. assert (i = 0) as -> by lia. reflexivity. }
  assert (Hk : Z.of_nat 1 < max_retries (EIAConfig_default "key")) by reflexivity.
  refine (proj1 (proj1 (first_final_response_decides (EIAConfig_default "key")
    (fun i => if i =? 0 then InvalidJSONResponse 200 else HttpResponse 500 PyNone)
    1 Hall Hk) 500 PyNone eq_refl _)).
  discriminate.
Defined.

Lemma backoff_le send i : 0 <= i -> 0 <= backoff (send i) i <= 2 ^ i.
Proof.
  intros Hi. unfold backoff. pose proof (Z.pow_pos_nonneg 2 i ltac:(lia) Hi).
  destruct (send i) as [sc body|sc|]; [lia| |lia].
  destruct (sc =? 429); lia.
Qed.

(** Whatever the outcomes, the loop over attempts [a, a + n) adds at most
    [n] requests and sleeps less than the backoff budget left. *)
Lemma request_loop_bounds send mr (n : nat) : forall a tr,
  0 <= a -> a + Z.of_nat n = mr ->
  exists tr',
    snd (_request_loop send mr (seqZ a (Z.of_nat n)) tr) = tr ++ tr'
    /\ (request_count tr' <= n)%nat
    /\ 0 <= total_sleep tr'
    /\ total_sleep tr' + 2 ^ a <= 2 ^ Z.max (mr - 1) a.
Proof.
  induction n as [|n IH]; intros a tr Ha Hsum.
  - exists []. cbn. rewrite app_nil_r. split; [done|]. split; [done|]. split; [done|].
    replace (Z.max (mr - 1) a) with a by lia. lia.
  - rewrite seqZ_cons by lia.
    replace (Z.pred (Z.of_nat (S n))) with (Z.of_nat n) by lia.
    assert (Hmax : Z.max (mr - 1) a = mr - 1) by lia.
    assert (Hstop : forall r : result pyval,
      exists tr', snd (r, tr ++ [EvRequest a]) = tr ++ tr'
        /\ (request_count tr' <= S n)%nat /\ 0 <= total_sleep tr'
        /\ total_sleep tr' + 2 ^ a <= 2 ^ Z.max (mr - 1) a).
    { intros r. exists [EvRequest a]. split; [done|]. split; [cbn; lia|]. split; [done|].
      cbn. rewrite Hmax. apply Z.pow_le_mono_r; lia. }
    assert (Hgo : forall s, 0 <= s <= 2 ^ a -> a < mr - 1 ->
      exists tr',
        snd (_request_loop send mr (seqZ (Z.succ a) (Z.of_nat n))
               ((tr ++ [EvRequest a]) ++ [EvSleep s])) = tr ++ tr'
        /\ (request_count tr' <= S n)%nat /\ 0 <= total_sleep tr'
        /\ total_sleep tr' + 2 ^ a <= 2 ^ Z.max (mr - 1) a).
    { intros s Hs Hlt.
      destruct (IH (Z.succ a) ((tr ++ [EvRequest a]) ++ [EvSleep s]))
        as (tr' & Htr & Hc & H0 & Hsl); [lia..|].
      exists ([EvRequest a; EvSleep s] ++ tr'). rewrite Htr.
      split; [by rewrite <- !app_assoc|].
      rewrite request_count_app, total_sleep_app.
      split; [cbn; lia|]. split; [cbn; lia|].
      replace (Z.max (mr - 1) (Z.succ a)) with (mr - 1) in Hsl by lia.
      rewrite Hmax. rewrite Z.pow_succ_r in Hsl by lia. cbn. lia. }
    cbn [_request_loop].
    pose proof (Z.pow_pos_nonneg 2 a ltac:(lia) Ha) as Hpow.
    destruct (send a) as [status body|status|].
    + destruct (_handle_response status body) as [r|e]; [apply Hstop|].
      destruct e; try apply Hstop.
      destruct (a <? mr - 1) eqn:E; [|apply Hstop].
      apply Hgo; lia.
    + destruct (_handle_response_invalid_json status) as [r|e]; [apply Hstop|].
      destruct e; try apply Hstop;
        (destruct (a <? mr - 1) eqn:E; [|apply Hstop]); apply Hgo; lia.
    + destruct (a <? mr - 1) eqn:E; [|apply Hstop].
      apply Hgo; lia.
Qed.

(** X3. Whatever the transport does, [_request] makes at most
    [max_retries] requests and sleeps at most [2^(max_retries - 1) - 1]
    seconds in total; with [max_retries <= 0] it makes no request at all
    and returns [None]. *)
Theorem request_effort_bounded (cfg : EIAConfig) (send : Z -> attempt_outcome) :
  (Z.of_nat (request_count (snd (_request cfg send))) <= Z.max 0 (max_retries cfg))
  /\ (1 <= max_retries cfg ->
      total_sleep (snd (_request cfg send)) <= 2 ^ (max_retries cfg - 1) - 1)
  /\ (max_retries cfg <= 0 -> _request cfg send = (Ok PyNone, [])).
Proof.
  unfold _request, py_range. split; [|split].
  - destruct (Z.le_gt_cases (max_retries cfg) 0) as [Hle|Hgt].
    + rewrite seqZ_nil by lia. cbn. lia.
    + destruct (request_loop_bounds send (max_retries cfg) (Z.to_nat (max_retries cfg)) 0 [])
        as (tr' & Htr & Hc & _); [lia..|].
      rewrite Z2Nat.id in Htr by lia. rewrite Htr. cbn [app]. lia.
  - intros Hmr.
    destruct (request_loop_bounds send (max_retries cfg) (Z.to_nat (max_retries cfg)) 0 [])
      as (tr' & Htr & _ & _ & Hs); [lia..|].
    rewrite Z2Nat.id in Htr by lia. rewrite Htr. cbn [app].
    replace (Z.max (max_retries cfg - 1) 0) with (max_retries cfg - 1) in Hs by lia.
    cbn in Hs. lia.
  - intros Hle. by rewrite seqZ_nil by lia.
Qed.

(** X3, at the default configuration under constant rate limiting. *)
Lemma request_effort_bounded_witness :
  total_sleep (snd (_request (EIAConfig_default "key") (fun _ => HttpResponse 429 PyNone)))
    <= 2 ^ (3 - 1) - 1.
Proof.
  refine (proj1 (proj2 (request_effort_bounded (EIAConfig_default "key")
                          (fun _ => HttpResponse 429 PyNone))) _).
  cbn. lia.
Defined.

(** ** Query construction, continued *)

Lemma list_ascii_of_string_app a b :
  list_ascii_of_string (a +:+ b) = list_ascii_of_string a ++ list_ascii_of_string b.
Proof. induction a as [|c a IH]; [done|]. cbn. by rewrite <- IH. Qed.

Lemma list_ascii_of_string_inj a b :
  list_ascii_of_string a = list_ascii_of_string b -> a = b.
Proof.
  intros H. rewrite <- (string_of_list_ascii_of_string a), H.
  apply string_of_list_ascii_of_string.
Qed.

Lemma string_app_inj_r x y s : x +:+ s = y +:+ s -> x = y.
Proof.
  intros H. apply list_ascii_of_string_inj.
  apply (f_equal list_ascii_of_string) in H.
  rewrite !list_ascii_of_string_app in H. by apply app_inv_tail in H.
Qed.

Lemma facet_key_eqb n n' : String.eqb (facet_key n') (facet_key n) = String.eqb n' n.
Proof.
  destruct (String.eqb_spec n' n) as [->|Hne]; [apply String.eqb_refl|].
  apply String.eqb_neq. intros H. apply Hne.
  unfold facet_key in H. apply (inj (String.app "facets[")) in H.
  by apply string_app_inj_r in H.
Qed.

Lemma lookup_param_columns k q :
  k = "data[]" -> lookup_param k (columns_part q) = map QStr (default [] (data_columns q)).
Proof.
  intros ->. unfold lookup_param, columns_part.
  induction (default [] (data_columns q)) as [|c cs IH]; [done|].
  cbn [map List.filter fst]. cbn. by rewrite <- IH.
Qed.

Lemma lookup_param_facets n q :
  lookup_param (facet_key n) (facets_part q)
  = map QStr (facet_values n (default [] (facets q))).
Proof.
  unfold facets_part, facet_values.
  induction (default [] (facets q)) as [|[n' vs] fs IH]; [done|].
  cbn [flat_map fst snd]. rewrite lookup_param_app, IH, List.map_app. f_equal.
  unfold lookup_param, facet_pairs. cbn [fst snd].
  change ("facets[" +:+ n' +:+ "][]") with (facet_key n').
  destruct (String.eqb n' n) eqn:E.
  - induction vs as [|v vs IHv]; [done|].
    cbn [map List.filter fst]. rewrite facet_key_eqb, E. cbn. by rewrite <- IHv.
  - induction vs as [|v vs IHv]; [done|].
    cbn [map List.filter fst]. by rewrite facet_key_eqb, E.
Qed.

Lemma lookup_param_option_pair k k' s :
  lookup_param k (option_pair k' s)
  = if String.eqb k' k
    then match str_truthy s with Some v => [QStr v] | None => [] end
    else [].
Proof.
  unfold lookup_param, option_pair.
  destruct (str_truthy s); cbn; by destruct (String.eqb k' k).
Qed.

(** The lookup of a key splits over the parts of the query. *)
Lemma lookup_param_parts cfg q length offset params k :
  get_data_params cfg q length offset = Ok params ->
  exists sorted,
    sort_part q = Ok sorted
    /\ lookup_param k params
       = lookup_param k [("api_key", QStr (api_key cfg))]
         ++ lookup_param k (columns_part q)
         ++ lookup_param k (facets_part q)
         ++ lookup_param k (period_part q)
         ++ lookup_param k sorted
         ++ lookup_param k (length_part cfg length)
         ++ lookup_param k (offset_part offset).
Proof.
  unfold get_data_params. destruct (sort_part q) as [sorted|] eqn:Es; [|done].
  cbn. intros [= <-]. exists sorted. split; [done|].
  change (("api_key", QStr (api_key cfg)) :: ?l) with ([("api_key", QStr (api_key cfg))] ++ l).
  by rewrite !lookup_param_app.
Qed.

(** X4. Reading the emitted pairs back gives the filter that was passed:
    [api_key] appears exactly once, whatever its value; the [data[]]
    values are the projected columns in order; the values under
    [facets[<name>][]] are the values of that facet in order; and
    [frequency], [start], [end] and [offset] appear once with their value
    when it is truthy and not at all otherwise. *)
Theorem get_data_params_round_trip cfg q length offset params :
  get_data_params cfg q length offset = Ok params ->
  lookup_param "api_key" params = [QStr (api_key cfg)]
  /\ lookup_param "data[]" params = map QStr (default [] (data_columns q))
  /\ (forall n, lookup_param (facet_key n) params
                = map QStr (facet_values n (default [] (facets q))))
  /\ lookup_param "frequency" params
     = match str_truthy (frequency q) with Some v => [QStr v] | None => [] end
  /\ lookup_param "start" params
     = match str_truthy (start q) with Some v => [QStr v] | None => [] end
  /\ lookup_param "end" params
     = match str_truthy (end_ q) with Some v => [QStr v] | None => [] end
  /\ lookup_param "offset" params = if offset =? 0 then [] else [QInt offset].
Proof.
  intros Hp.
  assert (Hparts := fun k => lookup_param_parts cfg q length offset params k Hp).
  assert (Hperiod : forall k, stage k = 3%nat ->
    lookup_param k params = lookup_param k (period_part q)).
  { intros k Hk. destruct (Hparts k) as (sorted & Es & ->).
    rewrite (lookup_param_other_stage k 0 [_]) by (repeat constructor; lia).
    rewrite (lookup_param_other_stage k 1 _ (stage_columns q)) by lia.
    rewrite (lookup_param_other_stage k 2 _ (stage_facets q)) by lia.
    rewrite (lookup_param_other_stage k 4 _ (stage_sort _ _ _ Es)) by lia.
    rewrite (lookup_param_other_stage k 5 _ (stage_length cfg length)) by lia.
    rewrite (lookup_param_other_stage k 5 _ (stage_offset offset)) by lia.
    by rewrite !app_nil_r. }
  split; [|split; [|split; [|split; [|split; [|split]]]]].
  - destruct (Hparts "api_key") as (sorted & Es & ->).
    rewrite (lookup_param_other_stage _ 1 _ (stage_columns q)) by done.
    rewrite (lookup_param_other_stage _ 2 _ (stage_facets q)) by done.
    rewrite (lookup_param_other_stage _ 3 _ (stage_period q)) by done.
    rewrite (lookup_param_other_stage _ 4 _ (stage_sort _ _ _ Es)) by done.
    rewrite (lookup_param_other_stage _ 5 _ (stage_length cfg length)) by done.
    by rewrite (lookup_param_other_stage _ 5 _ (stage_offset offset)).
  - destruct (Hparts "data[]") as (sorted & Es & ->).
    rewrite (lookup_param_other_stage _ 2 _ (stage_facets q)) by done.
    rewrite (lookup_param_other_stage _ 3 _ (stage_period q)) by done.
    rewrite (lookup_param_other_stage _ 4 _ (stage_sort _ _ _ Es)) by done.
    rewrite (lookup_param_other_stage _ 5 _ (stage_length cfg length)) by done.
    rewrite (lookup_param_other_stage _ 5 _ (stage_offset offset)) by done.
    rewrite lookup_param_columns by done. by rewrite !app_nil_r.
  - intros n. destruct (Hparts (facet_key n)) as (sorted & Es & ->).
    rewrite (lookup_param_other_stage _ 0 [_]) by (repeat constructor; done).
    rewrite (lookup_param_other_stage _ 1 _ (stage_columns q)) by done.
    rewrite (lookup_param_other_stage _ 3 _ (stage_period q)) by done.
    rewrite (lookup_param_other_stage _ 4 _ (stage_sort _ _ _ Es)) by done.
    rewrite (lookup_param_other_stage _ 5 _ (stage_length cfg length)) by done.
    rewrite (lookup_param_other_stage _ 5 _ (stage_offset offset)) by done.
    rewrite lookup_param_facets. by rewrite !app_nil_r.
  - rewrite Hperiod by done. unfold period_part.
    rewrite !lookup_param_app, !lookup_param_option_pair. cbn. by rewrite app_nil_r.
  - rewrite Hperiod by done. unfold period_part.
    rewrite !lookup_param_app, !lookup_param_option_pair. cbn. by rewrite app_nil_r.
  - rewrite Hperiod by done. unfold period_part.
    rewrite !lookup_param_app, !lookup_param_option_pair. cbn. done.
  - rewrite (get_data_params_paging _ _ _ _ _ _ Hp) by done.
    unfold length_part, offset_part.
    destruct length as [l|]; [destruct (l =? 0)|]; by destruct (offset =? 0).
Qed.

(** X4, on the example query. *)
Lemma get_data_params_round_trip_witness :
  exists params,
    get_data_params (EIAConfig_default "key") example_query (Some 100) 7 = Ok params
    /\ lookup_param (facet_key "stateid") params = [QStr "CA"; QStr "TX"]
    /\ lookup_param "offset" params = [QInt 7].
Proof.
  eexists. split; [reflexivity|].
  pose proof (get_data_params_round_trip (EIAConfig_default "key") example_query
                (Some 100) 7 _ eq_refl) as (_ & _ & Hf & _ & _ & _ & Ho).
  exact (conj (Hf "stateid") Ho).
Defined.

Lemma sort_column_key_eqb i j :
  String.eqb (sort_column_key i) (sort_column_key j) = Nat.eqb i j.
Proof.
  destruct (Nat.eqb_spec i j) as [->|Hne]; [apply String.eqb_refl|].
  apply String.eqb_neq. intros H. apply Hne. unfold sort_column_key in H.
  apply (inj (String.app "sort[")) in H. apply string_app_inj_r in H.
  by apply (inj pretty) in H.
Qed.

Lemma sort_direction_key_eqb i j :
  String.eqb (sort_direction_key i) (sort_direction_key j) = Nat.eqb i j.
Proof.
  destruct (Nat.eqb_spec i j) as [->|Hne]; [apply String.eqb_refl|].
  apply String.eqb_neq. intros H. apply Hne. unfold sort_direction_key in H.
  apply (inj (String.app "sort[")) in H. apply string_app_inj_r in H.
  by apply (inj pretty) in H.
Qed.

Lemma sort_keys_distinct i j : sort_column_key i <> sort_direction_key j.
Proof.
  unfold sort_column_key, sort_direction_key. intros H.
  apply (inj (String.app "sort[")) in H.
  apply (f_equal list_ascii_of_string) in H.
  rewrite !list_ascii_of_string_app in H.
  apply (f_equal (@rev ascii)) in H. rewrite !rev_app_distr in H.
  cbn in H. discriminate.
Qed.

(** The pairs of the sort entries numbered from [k] on, read back by
    index. *)
Lemma sort_params_lookup : forall entries k ps,
  sort_params k entries = Ok ps ->
  forall i,
    lookup_param (sort_column_key i) ps
    = (if decide (k <= i)%nat
       then match entries !! (i - k)%nat with
            | Some s => [QStr (default "" (s !! "column"))]
            | None => []
            end
       else [])
    /\ lookup_param (sort_direction_key i) ps
       = (if decide (k <= i)%nat
          then match entries !! (i - k)%nat with
               | Some s => [QStr (default "desc" (s !! "direction"))]
               | None => []
               end
          else []).
Proof.
  induction entries as [|s rest IH]; intros k ps Hps i; cbn in Hps.
  - injection Hps as <-. by destruct (decide (k <= i)%nat).
  - unfold sort_pairs in Hps. destruct (s !! "column") as [column|] eqn:Ec; [|done].
    cbn in Hps. destruct (sort_params (S k) rest) as [qs|] eqn:Eqs; [|done].
    cbn in Hps. injection Hps as <-.
    destruct (IH _ _ Eqs i) as [IHc IHd].
    change (?a :: ?b :: qs) with ([a; b] ++ qs).
    rewrite !lookup_param_app, IHc, IHd.
    unfold lookup_param. cbn [List.filter map fst snd].
    change ("sort[" +:+ pretty k +:+ "][column]") with (sort_column_key k).
    change ("sort[" +:+ pretty k +:+ "][direction]") with (sort_direction_key k).
    rewrite sort_column_key_eqb, sort_direction_key_eqb.
    assert (Hcd : String.eqb (sort_direction_key k) (sort_column_key i) = false).
    { apply String.eqb_neq. intros H. by apply (sort_keys_distinct i k). }
    assert (Hdc : String.eqb (sort_column_key k) (sort_direction_key i) = false).
    { apply String.eqb_neq. apply sort_keys_distinct. }
    rewrite Hcd, Hdc.
    destruct (Nat.eqb_spec k i) as [<-|Hne].
    + rewrite Nat.sub_diag. cbn [lookup list_lookup].
      destruct (decide (k <= k)%nat); [|lia].
      destruct (decide (S k <= k)%nat); [lia|]. by rewrite Ec.
    + destruct (decide (k <= i)%nat) as [Hle|Hgt].
      * destruct (decide (S k <= i)%nat); [|lia].
        replace (i - k)%nat with (S (i - S k)) by lia. done.
      * destruct (decide (S k <= i)%nat); [lia|]. done.
Qed.

Lemma sort_params_ok : forall entries k,
  sort_params k entries
  = (if forallb has_column entries
     then sort_params k entries
     else Raise KeyError)
  /\ is_ok (sort_params k entries) = forallb has_column entries.
Proof.
  induction entries as [|s rest IH]; intros k; [done|].
  cbn [sort_params forallb]. unfold sort_pairs, has_column at 1 3.
  destruct (s !! "column") as [c|] eqn:Ec.
  - rewrite bool_decide_eq_true_2 by eauto. cbn [andb mbind result_bind].
    destruct (IH (S k)) as [IH1 IH2].
    destruct (forallb has_column rest).
    + split; [done|]. by destruct (sort_params (S k) rest).
    + rewrite IH1. done.
  - rewrite bool_decide_eq_false_2 by (intros [? ?]; done). done.
Qed.

Lemma sort_params_columns entries k ps (j : nat) s :
  sort_params k entries = Ok ps -> entries !! j = Some s -> is_Some (s !! "column").
Proof.
  intros Hps Hj. destruct (sort_params_ok entries k) as [_ Hok].
  rewrite Hps in Hok. symmetry in Hok. rewrite forallb_forall in Hok.
  apply list_elem_of_lookup_2, list_elem_of_In in Hj.
  specialize (Hok s Hj). unfold has_column in Hok. by apply bool_decide_eq_true in Hok.
Qed.

(** X5. The sort order reads back by index: when the pairs are built, the
    value under [sort[i][column]] is the column of the [i]-th sort entry and
    the value under [sort[i][direction]] its direction, ["desc"] when the
    entry gives none; indices beyond the list have no pair. *)
Theorem get_data_sort_round_trip cfg q length offset params (i : nat) :
  get_data_params cfg q length offset = Ok params ->
  match default [] (sort q) !! i with
  | Some s =>
      exists column,
        s !! "column" = Some column
        /\ lookup_param (sort_column_key i) params = [QStr column]
        /\ lookup_param (sort_direction_key i) params
           = [QStr (default "desc" (s !! "direction"))]
  | None =>
      lookup_param (sort_column_key i) params = []
      /\ lookup_param (sort_direction_key i) params = []
  end.
Proof.
  intros Hp.
  assert (Hsorted : forall k, stage k = 4%nat ->
    exists sorted, sort_part q = Ok sorted /\ lookup_param k params = lookup_param k sorted).
  { intros k Hk. destruct (lookup_param_parts _ _ _ _ _ k Hp) as (sorted & Es & ->).
    exists sorted. split; [done|].
    rewrite (lookup_param_other_stage k 0 [_]) by (repeat constructor; lia).
    rewrite (lookup_param_other_stage k 1 _ (stage_columns q)) by lia.
    rewrite (lookup_param_other_stage k 2 _ (stage_facets q)) by lia.
    rewrite (lookup_param_other_stage k 3 _ (stage_period q)) by lia.
    rewrite (lookup_param_other_stage k 5 _ (stage_length cfg length)) by lia.
    rewrite (lookup_param_other_stage k 5 _ (stage_offset offset)) by lia.
    by rewrite !app_nil_r. }
  destruct (Hsorted (sort_column_key i) eq_refl) as (sorted & Es & ->).
  destruct (Hsorted (sort_direction_key i) eq_refl) as (sorted' & Es' & ->).
  assert (sorted' = sorted) as -> by congruence.
  destruct (sort_params_lookup _ _ _ Es i) as [Hc Hd].
  rewrite Hc, Hd, Nat.sub_0_r. cbn [decide decide_rel].
  destruct (decide (0 <= i)%nat); [|lia].
  destruct (default [] (sort q) !! i) as [s|] eqn:Ei; [|done].
  assert (Hcol : is_Some (s !! "column")) by (by eapply sort_params_columns).
  destruct Hcol as [column Hcol]. exists column. by rewrite Hcol.
Qed.

(** X5, on the example query. *)
Lemma get_data_sort_round_trip_witness :
  exists params,
    get_data_params (EIAConfig_default "key") example_query (Some 100) 7 = Ok params
    /\ lookup_param (sort_column_key 0) params = [QStr "period"]
    /\ lookup_param (sort_direction_key 0) params = [QStr "desc"].
Proof.
  eexists. split; [reflexivity|].
  destruct (get_data_sort_round_trip (EIAConfig_default "key") example_query
              (Some 100) 7 _ 0 eq_refl) as (column & Hcol & Hc & Hd).
  injection Hcol as <-. exact (conj Hc Hd).
Defined.

(** X6. The only way [get_data] fails before sending is a sort entry
    without ["column"]: the pairs are built exactly when every sort entry
    has one, and otherwise [KeyError] is raised and no request is made. *)
Theorem get_data_key_error cfg (tp : transport) q length offset :
  is_ok (get_data_params cfg q length offset) = forallb has_column (default [] (sort q))
  /\ (forallb has_column (default [] (sort q)) = false ->
      get_data_params cfg q length offset = Raise KeyError
      /\ get_data cfg tp q length offset = (Raise KeyError, [])).
Proof.
  unfold get_data, get_data_params, sort_part.
  destruct (sort_params_ok (default [] (sort q)) 0) as [H1 H2].
  split.
  - rewrite <- H2. by destruct (sort_params 0 (default [] (sort q))).
  - intros Hf. rewrite Hf in H1. by rewrite H1.
Qed.


(** X6, on a sort entry that has a direction only. *)
Lemma get_data_key_error_witness :
  get_data (EIAConfig_default "key") (mock_transport []) columnless_sort_query None 0
    = (Raise KeyError, []).
Proof.
  exact (proj2 (proj2 (get_data_key_error (EIAConfig_default "key") (mock_transport [])
                         columnless_sort_query None 0) eq_refl)).
Defined.

Lemma rev_app_app s1 : forall s2 acc,
  String.rev_app (s1 +:+ s2) acc = String.rev_app s2 (String.rev_app s1 acc).
Proof. induction s1 as [|c s1 IH]; intros s2 acc; [done|]. cbn. apply IH. Qed.

Lemma rev_app_acc s : forall acc, String.rev_app s acc = String.rev_app s "" +:+ acc.
Proof.
  induction s as [|c s IH]; intros acc; [done|].
  cbn. rewrite (IH (String c acc)), (IH (String c "")).
  generalize (String.rev_app s ""). intros r.
  induction r as [|d r IHr]; [done|].
  change (String d r +:+ String c acc) with (String d (r +:+ String c acc)).
  rewrite IHr. done.
Qed.

Lemma string_rev_app s1 s2 : String.rev (s1 +:+ s2) = String.rev s2 +:+ String.rev s1.
Proof. unfold String.rev. by rewrite rev_app_app, rev_app_acc. Qed.

Lemma startswith_app pre s : startswith (pre +:+ s) pre = true.
Proof.
  induction pre as [|c pre IH]; [done|].
  change (String c pre +:+ s) with (String c (pre +:+ s)).
  cbn [startswith]. by rewrite Ascii.eqb_refl, IH.
Qed.

Lemma endswith_app s suffix : endswith (s +:+ suffix) suffix = true.
Proof. unfold endswith. rewrite string_rev_app. apply startswith_app. Qed.

Lemma lstrip_char_idem c s : lstrip_char c (lstrip_char c s) = lstrip_char c s.
Proof.
  induction s as [|a s IH]; [done|]. cbn.
  destruct (Ascii.eqb a c) eqn:E; [done|]. cbn. by rewrite E.
Qed.

Lemma lstrip_char_stripped c s :
  startswith (lstrip_char c s) (String c "") = false.
Proof.
  induction s as [|a s IH]; [done|]. cbn [lstrip_char].
  destruct (Ascii.eqb a c) eqn:E; [done|]. cbn [startswith].
  by rewrite Ascii.eqb_sym, E.
Qed.

(** X7. The request path is normalised: [get_data] always addresses an
    endpoint that ends in ["/data"], appending it only when missing, so
    passing the normalised endpoint again changes nothing; and [_build_url]
    ignores leading slashes of the endpoint, so the URL never has a doubled
    slash after the base. *)
Theorem request_path_normalised (cfg : EIAConfig) (r : string) :
  endswith (get_data_endpoint r) "/data" = true
  /\ get_data_endpoint (get_data_endpoint r) = get_data_endpoint r
  /\ get_data_endpoint (r +:+ "/data") = r +:+ "/data"
  /\ _build_url cfg ("/" +:+ r) = _build_url cfg r
  /\ (exists rest, _build_url cfg r = base_url cfg +:+ "/" +:+ rest
                   /\ startswith rest "/" = false).
Proof.
  assert (H1 : endswith (get_data_endpoint r) "/data" = true).
  { unfold get_data_endpoint. destruct (endswith r "/data") eqn:E; [done|].
    apply endswith_app. }
  split; [done|]. split; [|split; [|split]].
  - unfold get_data_endpoint at 1. by rewrite H1.
  - unfold get_data_endpoint. by rewrite endswith_app.
  - unfold _build_url. change ("/" +:+ r) with (String "/" r). reflexivity.
  - exists (lstrip_char "/" r). split; [done|]. apply lstrip_char_stripped.
Qed.
(** ** Pagination, continued *)

Lemma length_list_ascii_of_string s :
  length (list_ascii_of_string s) = String.length s.
Proof. induction s as [|c s IH]; [done|]. cbn. by rewrite IH. Qed.

Lemma py_iter_len data items :
  py_iter data = Ok items -> py_len data = Ok (Z.of_nat (length items)).
Proof.
  destruct data; try done; intros [= <-]; cbn [py_len]; do 2 f_equal;
    rewrite ?length_map, ?length_list_ascii_of_string, ?length_map_to_list; done.
Qed.

Lemma truthy_items data items :
  truthy data = true -> py_iter data = Ok items -> items <> [].
Proof.
  destruct data; try done; cbn [truthy py_iter]; intros Ht [= <-].
  - destruct s; cbn in *; done.
  - by destruct l.
  - apply negb_true_iff, bool_decide_eq_false in Ht.
    intros Hnil. apply Ht. apply map_to_list_empty_iff.
    by destruct (map_to_list m).
Qed.

Lemma yield_page_count maxr : forall items t new t' ret,
  yield_page maxr t items = (new, t', ret) ->
  t' = t + Z.of_nat (length new) /\ (ret = false -> new = items).
Proof.
  induction items as [|record rest IH]; intros t new t' ret; cbn [yield_page].
  - intros [= <- <- <-]. split; [cbn; lia|done].
  - destruct (cap_reached maxr (t + 1)).
    + intros [= <- <- <-]. split; [cbn; lia|done].
    + destruct (yield_page maxr (t + 1) rest) as [[ys t1] r1] eqn:E.
      intros [= <- <- <-]. destruct (IH _ _ _ _ E) as [-> Hall].
      split; [cbn [length]; lia|]. intros Hr. by rewrite Hall.
Qed.

Lemma yield_page_cap_bound m : m <> 0 -> forall items t new t' ret,
  0 <= t < Z.max 1 m ->
  yield_page (Some m) t items = (new, t', ret) ->
  t' <= Z.max 1 m /\ (ret = false -> t' < Z.max 1 m).
Proof.
  intros Hm. induction items as [|record rest IH]; intros t new t' ret Ht;
    cbn [yield_page].
  - intros [= <- <- <-]. lia.
  - unfold cap_reached at 1. destruct (negb (m =? 0) && (m <=? t + 1)) eqn:Ecap.
    + intros [= <- <- <-]. split; [lia|done].
    + destruct (yield_page (Some m) (t + 1) rest) as [[ys t1] r1] eqn:E.
      intros [= <- <- <-].
      apply andb_false_iff in Ecap as [Ecap|Ecap].
      { apply negb_false_iff, Z.eqb_eq in Ecap. done. }
      apply Z.leb_gt in Ecap.
      apply (IH (t + 1) ys t1 r1); [lia|done].
Qed.

(** What every run of the shared loop satisfies, whatever the pages are. *)
Lemma page_loop_run page_at ps maxr : forall fuel o t ys log run,
  page_loop fuel page_at ps maxr o t ys log = Some run ->
  exists new offs,
    yielded run = ys ++ new
    /\ page_requests run = log ++ map (fun o => (o, ps)) (o :: offs)
    /\ steps_from (Z.max 1 ps) o offs
    /\ (forall m, maxr = Some m -> m <> 0 -> 0 <= t < Z.max 1 m ->
          t + Z.of_nat (length new) <= Z.max 1 m
          /\ t + Z.of_nat (length offs) * ps < Z.max 1 m).
Proof.
  induction fuel as [|fuel IH]; intros o t ys log run; [done|].
  cbn [page_loop].
  assert (Hstop : forall new r,
    (forall m, maxr = Some m -> m <> 0 -> 0 <= t < Z.max 1 m ->
       t + Z.of_nat (length new) <= Z.max 1 m) ->
    stop (ys ++ new) r (log ++ [(o, ps)]) = Some run ->
    exists new offs,
      yielded run = ys ++ new
      /\ page_requests run = log ++ map (fun o => (o, ps)) (o :: offs)
      /\ steps_from (Z.max 1 ps) o offs
      /\ (forall m, maxr = Some m -> m <> 0 -> 0 <= t < Z.max 1 m ->
            t + Z.of_nat (length new) <= Z.max 1 m
            /\ t + Z.of_nat (length offs) * ps < Z.max 1 m)).
  { intros new r Hcap [= <-]. exists new, []. cbn.
    repeat split; try done.
    - by apply Hcap.
    - lia. }
  assert (Hstop0 : forall r,
    stop ys r (log ++ [(o, ps)]) = Some run ->
    exists new offs,
      yielded run = ys ++ new
      /\ page_requests run = log ++ map (fun o => (o, ps)) (o :: offs)
      /\ steps_from (Z.max 1 ps) o offs
      /\ (forall m, maxr = Some m -> m <> 0 -> 0 <= t < Z.max 1 m ->
            t + Z.of_nat (length new) <= Z.max 1 m
            /\ t + Z.of_nat (length offs) * ps < Z.max 1 m)).
  { intros r Hr. apply (Hstop [] r); [cbn; lia|]. by rewrite app_nil_r. }
  destruct (page_at o) as [[data more]|e]; [|by apply Hstop0].
  destruct (negb (truthy data)) eqn:Etruthy; [by apply Hstop0|].
  apply negb_false_iff in Etruthy.
  destruct (py_iter data) as [items|e] eqn:Eiter; [|by apply Hstop0].
  rewrite (py_iter_len _ _ Eiter).
  pose proof (truthy_items _ _ Etruthy Eiter) as Hne.
  destruct (yield_page maxr t items) as [[new t'] returned] eqn:Ey.
  destruct (yield_page_count _ _ _ _ _ _ Ey) as [Ht' Hall].
  assert (Hcap : forall m, maxr = Some m -> m <> 0 -> 0 <= t < Z.max 1 m ->
            t' <= Z.max 1 m /\ (returned = false -> t' < Z.max 1 m)).
  { intros m -> Hm Ht. by apply (yield_page_cap_bound m Hm items t new). }
  destruct returned.
  { apply Hstop. intros m Hm Hm0 Ht. destruct (Hcap m Hm Hm0 Ht). lia. }
  destruct (negb more || (Z.of_nat (length items) <? ps)) eqn:Econt.
  { apply Hstop. intros m Hm Hm0 Ht. destruct (Hcap m Hm Hm0 Ht). lia. }
  apply orb_false_iff in Econt as [_ Hfull]. apply Z.ltb_ge in Hfull.
  specialize (Hall eq_refl). subst new.
  assert (0 < Z.of_nat (length items)) by (destruct items; [done|cbn; lia]).
  intros Hrun. destruct (IH _ _ _ _ _ Hrun) as (new' & offs' & Hy & Hp & Hs & Hc).
  exists (items ++ new'), ((o + Z.of_nat (length items)) :: offs').
  split; [by rewrite Hy, app_assoc|].
  split; [by rewrite Hp, <- app_assoc|].
  split; [cbn [steps_from]; split; [lia|done]|].
  intros m Hm Hm0 Ht. destruct (Hcap m Hm Hm0 Ht) as [_ Hlt].
  specialize (Hlt eq_refl).
  destruct (Hc m Hm Hm0 ltac:(lia)) as [Hc1 Hc2].
  rewrite length_app. cbn [length]. split; [lia|nia].
Qed.

(** Either fetcher is the shared loop from offset 0. *)
Lemma fetcher_run_page_loop ps maxr run :
  fetcher_run ps maxr run ->
  exists fuel page_at, page_loop fuel page_at ps maxr 0 0 [] [] = Some run.
Proof.
  intros [(fuel & f & Hrun)|(fuel & cfg & tp & q & Hps & Hrun)].
  - unfold paginate in Hrun. rewrite paginate_loop_page_loop in Hrun. eauto.
  - unfold get_all_data in Hrun. rewrite get_all_data_loop_page_loop, Hps in Hrun.
    eauto.
Qed.

Lemma steps_from_lookup gap : forall offs prev (i : nat) o,
  0 <= gap -> steps_from gap prev offs -> offs !! i = Some o ->
  prev + (Z.of_nat i + 1) * gap <= o.
Proof.
  induction offs as [|x offs IH]; intros prev i o Hgap Hs Hi; [done|].
  destruct Hs as [Hx Hs]. destruct i as [|i].
  - injection Hi as <-. lia.
  - cbn in Hi. specialize (IH _ _ _ Hgap Hs Hi). nia.
Qed.

Lemma steps_from_drop gap : forall offs prev (i : nat) o,
  steps_from gap prev offs -> (prev :: offs) !! i = Some o ->
  steps_from gap o (drop i offs).
Proof.
  induction offs as [|x offs IH]; intros prev i o Hs Hi.
  - by rewrite drop_nil.
  - destruct i as [|i]; [by injection Hi as <-|].
    destruct Hs as [_ Hs]. apply (IH x i o Hs Hi).
Qed.

(** The run of [paginate] over seven records in pages of two under a cap
    of five. *)
Lemma paginate_seven_records :
  paginate 8 (mock_fetch seven_records) 2 (Some 5) =
    Some {| yielded := map PyInt [1; 2; 3; 4; 5];
            finished := Ok ();
            page_requests := [(0, 2); (2, 2); (4, 2)] |}.
Proof.
  unfold paginate. rewrite paginate_loop_page_loop.
  apply (page_loop_mock_scenario seven_records 2 (Some 5)
           (fun offset => response ← mock_fetch seven_records offset 2;
                          paginate_page response offset)
           ltac:(lia)
           ltac:(intros o _; eexists; split;
                 [apply paginate_page_mock|by apply mock_has_more_end])
           (PyInt 1) (PyInt 2) (PyInt 3) (PyInt 4) (PyInt 5) (PyInt 6) (PyInt 7) 5
           [] [] eq_refl eq_refl eq_refl).
Qed.

(** X8. A cap other than 0 bounds every run of [paginate] and of
    [get_all_data], whatever the source answers: at most
    [max(1, max_records)] records are yielded (a negative cap lets one
    record through), and the page requests number at most
    [ceil(max(1, max_records) / page_size)]. *)
Theorem capped_run_bounds (ps m : Z) (run : fetch_run (Z * Z)) :
  m <> 0 ->
  fetcher_run ps (Some m) run ->
  Z.of_nat (length (yielded run)) <= Z.max 1 m
  /\ (Z.of_nat (length (page_requests run)) - 1) * ps < Z.max 1 m.
Proof.
  intros Hm Hrun. apply fetcher_run_page_loop in Hrun as (fuel & page_at & Hrun).
  apply page_loop_run in Hrun as (new & offs & Hy & Hp & _ & Hc).
  destruct (Hc m eq_refl Hm ltac:(lia)) as [Hc1 Hc2].
  rewrite Hy, Hp. cbn [app length map]. rewrite length_map. split; [lia|].
  replace (Z.of_nat (S (length offs)) - 1) with (Z.of_nat (length offs)) by lia.
  lia.
Qed.

Lemma capped_run_bounds_witness :
  let run := {| yielded := map PyInt [1; 2; 3; 4; 5];
                finished := Ok ();
                page_requests := [(0, 2); (2, 2); (4, 2)] |} in
  Z.of_nat (length (yielded run)) <= Z.max 1 5
  /\ (Z.of_nat (length (page_requests run)) - 1) * 2 < Z.max 1 5.
Proof.
  intros run. apply (capped_run_bounds 2 5 run); [lia|].
  left. exists 8%nat, (mock_fetch seven_records).
  apply paginate_seven_records.
Defined.

(** X9. The page requests of every run of [paginate] and of
    [get_all_data] start at offset 0, all ask for [page_size] records, and
    their offsets advance by at least [max(1, page_size)] from one request
    to the next: no page is requested twice, whatever the source answers. *)
Theorem page_requests_advance (ps : Z) (maxr : option Z) (run : fetch_run (Z * Z)) :
  fetcher_run ps maxr run ->
  page_requests run !! 0%nat = Some (0, ps)
  /\ Forall (fun r => r.2 = ps) (page_requests run)
  /\ (forall (i j : nat) ri rj,
        (i < j)%nat ->
        page_requests run !! i = Some ri -> page_requests run !! j = Some rj ->
        ri.1 + Z.of_nat (j - i) * Z.max 1 ps <= rj.1).
Proof.
  intros Hrun. apply fetcher_run_page_loop in Hrun as (fuel & page_at & Hrun).
  apply page_loop_run in Hrun as (new & offs & _ & Hp & Hs & _).
  rewrite Hp. cbn [app]. split; [done|]. split.
  - apply Forall_forall. intros r Hr. apply list_elem_of_fmap in Hr as (o & -> & _). done.
  - intros i j ri rj Hij Hi Hj.
    rewrite list_lookup_fmap in Hi, Hj.
    destruct ((0 :: offs) !! i) as [oi|] eqn:Ei; [|done]. injection Hi as <-.
    destruct ((0 :: offs) !! j) as [oj|] eqn:Ej; [|done]. injection Hj as <-.
    cbn [fst].
    pose proof (steps_from_drop _ _ _ _ _ Hs Ei) as Hd.
    assert (Hl : drop i offs !! (j - i - 1)%nat = Some oj).
    { rewrite lookup_drop. destruct j as [|j]; [lia|]. cbn in Ej.
      rewrite <- Ej. f_equal. lia. }
    pose proof (steps_from_lookup (Z.max 1 ps) _ _ _ _ ltac:(lia) Hd Hl). nia.
Qed.

Lemma page_requests_advance_witness :
  let run := {| yielded := map PyInt [1; 2; 3; 4; 5];
                finished := Ok ();
                page_requests := [(0, 2); (2, 2); (4, 2)] |} in
  page_requests run !! 0%nat = Some (0, 2)
  /\ Forall (fun r => r.2 = 2) (page_requests run)
  /\ (forall (i j : nat) ri rj,
        (i < j)%nat ->
        page_requests run !! i = Some ri -> page_requests run !! j = Some rj ->
        ri.1 + Z.of_nat (j - i) * Z.max 1 2 <= rj.1).
Proof.
  intros run. apply (page_requests_advance 2 (Some 5) run).
  left. exists 8%nat, (mock_fetch seven_records).
  apply paginate_seven_records.
Defined.
Lemma page_loop_terminates page_at ps m :
  m <> 0 -> forall fuel o t ys log,
  0 <= t < Z.max 1 m -> Z.max 1 m - t <= Z.of_nat fuel * ps ->
  is_Some (page_loop fuel page_at ps (Some m) o t ys log).
Proof.
  intros Hm. induction fuel as [|fuel IH]; intros o t ys log Ht Hfuel; [lia|].
  cbn [page_loop]. unfold stop.
  destruct (page_at o) as [[data more]|e]; [|done].
  destruct (negb (truthy data)); [done|].
  destruct (py_iter data) as [items|e] eqn:Eiter; [|done].
  rewrite (py_iter_len _ _ Eiter).
  destruct (yield_page (Some m) t items) as [[new t'] returned] eqn:Ey.
  destruct (yield_page_count _ _ _ _ _ _ Ey) as [Ht' Hall].
  destruct (yield_page_cap_bound m Hm _ _ _ _ _ Ht Ey) as [_ Hlt].
  destruct returned; [done|].
  destruct (negb more || (Z.of_nat (length items) <? ps)) eqn:Econt; [done|].
  apply orb_false_iff in Econt as [_ Hfull]. apply Z.ltb_ge in Hfull.
  specialize (Hall eq_refl). subst new. specialize (Hlt eq_refl).
  apply IH; lia.
Qed.

(** X10. A cap other than 0 makes both fetchers end, whatever the source
    answers: [ceil(max(1, max_records) / page_size)] iterations of
    [while True] are always enough. *)
Theorem capped_fetch_terminates (ps m : Z) (fuel : nat) :
  m <> 0 -> Z.max 1 m <= Z.of_nat fuel * ps ->
  (forall fetch_func, is_Some (paginate fuel fetch_func ps (Some m)))
  /\ (forall cfg tp q,
        page_size cfg = ps -> is_Some (get_all_data fuel cfg tp q (Some m))).
Proof.
  intros Hm Hfuel. split.
  - intros f. unfold paginate. rewrite paginate_loop_page_loop.
    apply page_loop_terminates; lia.
  - intros cfg tp q Hps. unfold get_all_data.
    rewrite get_all_data_loop_page_loop, Hps.
    apply page_loop_terminates; lia.
Qed.

Lemma capped_fetch_terminates_witness :
  (forall fetch_func, is_Some (paginate 3 fetch_func 2 (Some 5)))
  /\ (forall cfg tp q,
        page_size cfg = 2 -> is_Some (get_all_data 3 cfg tp q (Some 5))).
Proof. apply (capped_fetch_terminates 2 5 3); lia. Defined.

Lemma yield_page_uncapped maxr : maxr = None \/ maxr = Some 0 ->
  forall items t,
  yield_page maxr t items = (items, t + Z.of_nat (length items), false).
Proof.
  intros Hmaxr. induction items as [|record rest IH]; intros t.
  - cbn. by rewrite Z.add_0_r.
  - cbn [yield_page].
    assert (cap_reached maxr (t + 1) = false) as -> by (by destruct Hmaxr as [-> | ->]).
    rewrite IH. do 2 f_equal. cbn [length]. lia.
Qed.

Lemma page_loop_full_pages page_at ps maxr :
  0 < ps -> maxr = None \/ maxr = Some 0 ->
  (forall o, exists items,
     page_at o = Ok (PyList items, true) /\ ps <= Z.of_nat (length items)) ->
  forall fuel o t ys log, page_loop fuel page_at ps maxr o t ys log = None.
Proof.
  intros Hps Hmaxr Hpages.
  induction fuel as [|fuel IH]; intros o t ys log; [done|].
  cbn [page_loop]. destruct (Hpages o) as (items & -> & Hlen).
  destruct items as [|r items]; [cbn in Hlen; lia|].
  cbn [truthy negb py_iter py_len].
  rewrite (yield_page_uncapped maxr Hmaxr).
  cbn [negb orb].
  assert ((Z.of_nat (length (r :: items)) <? ps) = false) as -> by (apply Z.ltb_ge; lia).
  apply IH.
Qed.

Lemma body_with_data_data items :
  (resp ← py_get (body_with_data items) "response" (PyDict ∅);
   py_get resp "data" (PyList [])) = Ok (PyList items).
Proof.
  unfold body_with_data. cbn [py_get]. unfold dict_get. rewrite lookup_singleton_eq.
  cbn [mbind result_bind py_get]. unfold dict_get. by rewrite lookup_singleton_eq.
Qed.

(** X11. [get_all_data] ends only on an empty or a short page: against a
    source that answers every request with a full page (one that ignores
    the offset, say), a fetch without a cap never ends, and
    [max_records=0] is no cap either. *)
Theorem uncapped_full_pages_never_end (cfg : EIAConfig) (q : query)
    (items : list pyval) (maxr : option Z) :
  1 <= max_retries cfg -> is_ok (sort_part q) = true ->
  0 < page_size cfg <= Z.of_nat (length items) ->
  maxr = None \/ maxr = Some 0 ->
  forall fuel,
    get_all_data fuel cfg (constant_transport (body_with_data items)) q maxr = None.
Proof.
  intros Hmr Hsort Hps Hmaxr fuel.
  unfold get_all_data. rewrite get_all_data_loop_page_loop.
  apply page_loop_full_pages; [lia|done|].
  intros o. exists items. split; [|lia].
  unfold get_data.
  destruct (get_data_params cfg q (Some (page_size cfg)) o) as [params|] eqn:Ep.
  - rewrite (request_immediate _ _ (body_with_data items)); [|done..].
    cbn [fst mbind result_bind].
    pose proof (body_with_data_data items) as Hd.
    destruct (py_get (body_with_data items) "response" (PyDict ∅)) as [resp|]; [|done].
    cbn [mbind result_bind] in *. by rewrite Hd.
  - unfold get_data_params in Ep. by destruct (sort_part q).
Qed.

Lemma uncapped_full_pages_never_end_witness :
  get_all_data 1000 (EIAConfig_default "key")
    (constant_transport (body_with_data (replicate 5000 (PyInt 1))))
    example_query (Some 0) = None.
Proof.
  apply (uncapped_full_pages_never_end (EIAConfig_default "key") example_query
           (replicate 5000 (PyInt 1)) (Some 0)).
  - cbn. lia.
  - reflexivity.
  - rewrite length_replicate. cbn. lia.
  - by right.
Defined.

(** ** Collecting and batching *)

Lemma collect_all_loop_yields max_items tail : forall items acc,
  (forall k, item_limit max_items = Some k -> (length acc < k)%nat) ->
  collect_all_loop (yields items tail) max_items acc =
    match item_limit max_items with
    | Some k =>
        if (k <=? length acc + length items)%nat
        then Ok (take k (acc ++ items))
        else collect_all_loop tail max_items (acc ++ items)
    | None => collect_all_loop tail max_items (acc ++ items)
    end.
Proof.
  induction items as [|item items IH]; intros acc Hacc.
  - cbn [yields foldr length]. rewrite app_nil_r.
    destruct (item_limit max_items) as [k|]; [|done].
    specialize (Hacc k eq_refl).
    by assert ((k <=? length acc + 0)%nat = false) as -> by (apply Nat.leb_gt; lia).
  - cbn [yields foldr collect_all_loop]. fold (yields items tail).
    assert (Hlen : length (acc ++ [item]) = S (length acc))
      by (rewrite length_app; cbn; lia).
    assert (Happ : (acc ++ [item]) ++ items = acc ++ item :: items)
      by (by rewrite <- app_assoc).
    destruct (cap_reached max_items (Z.of_nat (length (acc ++ [item])))) eqn:Ecap.
    + destruct max_items as [m|]; [|done]. cbn in Ecap.
      apply andb_true_iff in Ecap as [Em Ecap].
      apply negb_true_iff in Em. apply Z.leb_le in Ecap.
      unfold item_limit in *. rewrite Em in *.
      specialize (Hacc _ eq_refl).
      assert (Hk : Z.to_nat (Z.max 1 m) = S (length acc)) by lia.
      rewrite Hk. cbn [length].
      assert ((S (length acc) <=? length acc + S (length items))%nat = true) as ->
        by (apply Nat.leb_le; lia).
      rewrite <- Happ, take_app_length'; done.
    + rewrite IH, Happ, Hlen; cbn [length].
      * destruct (item_limit max_items) as [k|]; [|done].
        by replace (S (length acc) + length items)%nat
          with (length acc + S (length items))%nat by lia.
      * intros k Hk. specialize (Hacc k Hk).
        destruct max_items as [m|]; [|done]. unfold item_limit in Hk.
        destruct (m =? 0) eqn:Em; [done|]. injection Hk as <-.
        cbn in Ecap. rewrite Em in Ecap. cbn in Ecap.
        apply Z.leb_gt in Ecap. lia.
Qed.

(** X12. [collect_all] returns the first [max(1, max_items)] items of the
    generator as soon as it has them, so a failure the generator would meet
    later stays unseen; short of that many items, or with [max_items]
    absent or 0, it returns everything the generator yields, or raises what
    the generator raises. *)
Theorem collect_all_prefix {R} (run : fetch_run R) (max_items : option Z) :
  collect_all (run_generator run) max_items =
    match item_limit max_items with
    | Some k =>
        if (k <=? length (yielded run))%nat then Ok (take k (yielded run))
        else _ ← finished run; Ok (yielded run)
    | None => _ ← finished run; Ok (yielded run)
    end.
Proof.
  unfold collect_all, run_generator.
  rewrite collect_all_loop_yields.
  - cbn [app length Nat.add].
    by destruct (item_limit max_items) as [k|], (finished run) as [[]|e].
  - intros k Hk. unfold item_limit in Hk. destruct max_items as [m|]; [|done].
    destruct (m =? 0); [done|]. injection Hk as <-. cbn. lia.
Qed.




(** ** Polygon analytics, continued *)

Lemma Qltb_compat a b c : (b == c)%Q -> Qltb a b = Qltb a c.
Proof. intros H. unfold Qltb. f_equal. by apply Qleb_comp. Qed.

Ltac qle_facts :=
  repeat match goal with
  | H : Qle_bool _ _ = true |- _ => apply Qle_bool_iff in H
  | H : Qle_bool ?a ?b = false |- _ =>
      apply (f_equal negb) in H; change (Qgtb a b = true) in H;
      apply Qgtb_true in H
  end.

(** X14. On an axis-aligned rectangle the test is half-open: a point is
    inside exactly when [min_lat <= lat < max_lat] and
    [min_lon <= lon < max_lon].  The bounding box of the rectangle is the
    rectangle itself, so the points of its northern and eastern sides pass
    the bounding-box filter and are then classified as outside. *)
Theorem rectangle_half_open (b : bounds) (la lo : Q) :
  (min_lat b < max_lat b)%Q -> (min_lon b < max_lon b)%Q ->
  point_in_polygon la lo (rectangle b) =
    Ok (Qle_bool (min_lat b) la && Qltb la (max_lat b)
        && Qle_bool (min_lon b) lo && Qltb lo (max_lon b))
  /\ (exists b', bounding_box (rectangle b) = Ok b'
                 /\ in_bounds b' la lo = in_bounds b la lo)
  /\ point_in_polygon (max_lat b) lo (rectangle b) = Ok false
  /\ point_in_polygon la (max_lon b) (rectangle b) = Ok false.
Proof.
  intros Hlat Hlon.
  assert (Hformula : forall la lo,
    point_in_polygon la lo (rectangle b) =
      Ok (Qle_bool (min_lat b) la && Qltb la (max_lat b)
          && Qle_bool (min_lon b) lo && Qltb lo (max_lon b))).
  { clear la lo. intros la lo.
    rewrite point_in_polygon_edges. f_equal.
    unfold rectangle, edges, odd_crossings. cbn [List.last consec foldr].
    unfold crossing. cbn [fst snd]. unfold straddles. cbn [fst snd].
    assert (Hw : (x_cross la (max_lat b, min_lon b) (min_lat b, min_lon b)
                  == min_lon b)%Q).
    { unfold x_cross. cbn [fst snd]. field. lra. }
    assert (He : (x_cross la (min_lat b, max_lon b) (max_lat b, max_lon b)
                  == max_lon b)%Q).
    { unfold x_cross. cbn [fst snd]. field. lra. }
    rewrite (Qltb_compat _ _ _ Hw), (Qltb_compat _ _ _ He).
    unfold Qgtb, Qltb.
    destruct (Qle_bool (min_lat b) la) eqn:E1, (Qle_bool (max_lat b) la) eqn:E2,
             (Qle_bool (min_lon b) lo) eqn:E3, (Qle_bool (max_lon b) lo) eqn:E4;
      try reflexivity; exfalso; qle_facts; lra. }
  split; [apply Hformula|]. split; [|split].
  - exists b. split; [|done].
    unfold bounding_box, rectangle. cbn [map fst snd py_min py_max foldl].
    assert (F1 : Qltb (max_lat b) (min_lat b) = false) by (apply Qltb_false; lra).
    assert (F2 : Qltb (min_lat b) (min_lat b) = false) by (apply Qltb_false; lra).
    assert (F3 : Qltb (min_lat b) (max_lat b) = true) by (by apply Qltb_true).
    assert (F4 : Qltb (max_lat b) (max_lat b) = false) by (apply Qltb_false; lra).
    assert (F5 : Qltb (max_lon b) (min_lon b) = false) by (apply Qltb_false; lra).
    assert (F6 : Qltb (min_lon b) (min_lon b) = false) by (apply Qltb_false; lra).
    assert (F7 : Qltb (min_lon b) (max_lon b) = true) by (by apply Qltb_true).
    assert (F8 : Qltb (max_lon b) (max_lon b) = false) by (apply Qltb_false; lra).
    repeat (progress (rewrite ?F1, ?F2, ?F3, ?F4, ?F5, ?F6, ?F7, ?F8; cbv iota)).
    cbn. by destruct b.
  - rewrite Hformula.
    assert (Qltb (max_lat b) (max_lat b) = false) as -> by (apply Qltb_false; lra).
    by rewrite andb_false_r.
  - rewrite Hformula.
    assert (Qltb (max_lon b) (max_lon b) = false) as -> by (apply Qltb_false; lra).
    by rewrite andb_false_r.
Qed.

Lemma rectangle_half_open_witness :
  let b := {| min_lat := 30; max_lat := 40; min_lon := -100; max_lon := -90 |} in
  point_in_polygon 40 (-95) (rectangle b) =
    Ok (Qle_bool (min_lat b) 40 && Qltb 40 (max_lat b)
        && Qle_bool (min_lon b) (-95) && Qltb (-95) (max_lon b))
  /\ (exists b', bounding_box (rectangle b) = Ok b'
                 /\ in_bounds b' 40 (-95) = in_bounds b 40 (-95))
  /\ point_in_polygon (max_lat b) (-95) (rectangle b) = Ok false
  /\ point_in_polygon 40 (max_lon b) (rectangle b) = Ok false.
Proof.
  intros b. apply (rectangle_half_open b 40 (-95)); reflexivity.
Defined.

(** X15. A vertex list of fewer than two vertices contains no point: the
    test never raises on it and always answers [False].  With two vertices
    this is no longer so on doubles: the single edge is tested once from
    each end, the two crossing longitudes can round apart, and a point
    between them is classified inside. *)
Theorem degenerate_polygon_empty (la lo : float) :
  Backend.point_in_polygon la lo [] = Ok false
  /\ (forall v, Backend.point_in_polygon la lo [v] = Ok false)
  /\ Backend.point_in_polygon 1%float 0.3333333333333333%float
       [(Backend.NumInt 0, Backend.NumInt 0); (Backend.NumInt 3, Backend.NumInt 1)]
     = Ok true.
Proof.
  split; [done|]. split; [|vm_compute; reflexivity].
  intros v. rewrite point_in_polygon_toggles.
  unfold Backend.edges. cbn [List.last Backend.consec Backend.toggles fst snd].
  unfold Backend.crosses, Backend.straddles. by rewrite Bool.eqb_reflx.
Qed.





Lemma backend_generators_in_bounds_inv b rows :
  Forall (fun g =>
            Backend.gt (Backend.NumFloat (Backend.capacity_mw g)) (Backend.NumInt 0) = true
            /\ Backend.in_bounds b (Backend.lat g) (Backend.lon g) = true
            /\ Backend.truthy (Backend.lat g) = true
            /\ Backend.truthy (Backend.lon g) = true
            /\ exists row, row ∈ rows
                 /\ Backend.row_latitude row = Some (Backend.lat g)
                 /\ Backend.row_longitude row = Some (Backend.lon g)
                 /\ g = Backend.to_generator row (Backend.lat g) (Backend.lon g))
         (Backend.generators_in_bounds b rows).
Proof.
  unfold Backend.generators_in_bounds. induction rows as [|row rows IH]; [constructor|].
  cbn [omap list_omap].
  assert (IH' : Forall (fun g =>
            Backend.gt (Backend.NumFloat (Backend.capacity_mw g)) (Backend.NumInt 0) = true
            /\ Backend.in_bounds b (Backend.lat g) (Backend.lon g) = true
            /\ Backend.truthy (Backend.lat g) = true
            /\ Backend.truthy (Backend.lon g) = true
            /\ exists row', row' ∈ row :: rows
                 /\ Backend.row_latitude row' = Some (Backend.lat g)
                 /\ Backend.row_longitude row' = Some (Backend.lon g)
                 /\ g = Backend.to_generator row' (Backend.lat g) (Backend.lon g))
         (omap (fun g =>
            match Backend.located g with
            | Some (la, lo) =>
                if Backend.in_bounds b la lo && Backend.positive_capacity g
                then Some (Backend.to_generator g la lo) else None
            | None => None
            end) rows)).
  { eapply Forall_impl; [exact IH|].
    intros g (H1 & H2 & H3 & H4 & row' & Hin & Hrest).
    repeat split; try done. exists row'. split; [by apply list_elem_of_further|done]. }
  destruct (Backend.located row) as [[la lo]|] eqn:Eloc; [|done].
  destruct (Backend.in_bounds b la lo && Backend.positive_capacity row) eqn:Ekeep; [|done].
  constructor; [|done].
  apply andb_true_iff in Ekeep as [Hin Hcap].
  unfold Backend.located in Eloc.
  destruct (Backend.row_latitude row) as [la'|] eqn:Ela; [|done].
  destruct (Backend.row_longitude row) as [lo'|] eqn:Elo; [|done].
  destruct (Backend.truthy la' && Backend.truthy lo') eqn:Enz; [|done].
  injection Eloc as -> ->.
  apply andb_true_iff in Enz as [Hla Hlo].
  cbn [Backend.to_generator Backend.capacity_mw Backend.lat Backend.lon].
  split; [done|]. split; [done|]. split; [done|]. split; [done|].
  exists row. split; [apply list_elem_of_here|]. done.
Qed.

Lemma backend_source_counts gs :
  (length (Backend.of_source "SUN" gs) + length (Backend.of_source "WND" gs) <= length gs)%nat
  /\ (Forall (fun g => Backend.energy_source g = "SUN" \/ Backend.energy_source g = "WND") gs ->
      (length (Backend.of_source "SUN" gs) + length (Backend.of_source "WND" gs)
       = length gs)%nat).
Proof.
  induction gs as [|g gs [IH1 IH2]]; [done|].
  unfold Backend.of_source in *. cbn [List.filter].
  destruct (String.eqb (Backend.energy_source g) "SUN") eqn:Es.
  - apply String.eqb_eq in Es. rewrite Es. cbn [String.eqb Ascii.eqb Bool.eqb length].
    split; [lia|]. intros Hall. inversion Hall; subst. specialize (IH2 ltac:(done)). lia.
  - destruct (String.eqb (Backend.energy_source g) "WND") eqn:Ew; cbn [length].
    + split; [lia|]. intros Hall. inversion Hall; subst. specialize (IH2 ltac:(done)). lia.
    + split; [lia|]. intros Hall. inversion Hall as [|? ? [Hs|Hw] ?]; subst.
      * rewrite Hs in Es. done.
      * rewrite Hw in Ew. done.
Qed.

(** X17. The analytics of a polygon are consistent with the generators
    they summarise.  Every selected generator stems from a fetched row
    with truthy coordinates, has a capacity above zero, lies within the
    vertex bounding box and is classified inside by the ray test; the list
    returned for display is the first 100 of them; the solar and wind
    counts together never exceed the total, and make it up exactly when
    every fetched row is solar or wind; and no more states are listed than
    generators. *)
Theorem polygon_analytics_consistent (coords : list Backend.vertex)
    (rows : list Backend.capacity_row) (a : Backend.PolygonAnalytics.t) :
  Backend.get_polygon_analytics coords rows = Ok a ->
  exists b filtered,
    Backend.bounding_box coords = Ok b
    /\ Backend.polygon_members coords rows = Ok filtered
    /\ Backend.PolygonAnalytics.total_generators a = length filtered
    /\ Backend.PolygonAnalytics.generators a = take 100 filtered
    /\ Forall (fun g =>
                 Backend.gt (Backend.NumFloat (Backend.capacity_mw g)) (Backend.NumInt 0) = true
                 /\ Backend.in_bounds b (Backend.lat g) (Backend.lon g) = true
                 /\ Backend.point_in_polygon (Backend.lat g) (Backend.lon g) coords = Ok true
                 /\ Backend.truthy (Backend.lat g) = true
                 /\ Backend.truthy (Backend.lon g) = true
                 /\ exists row, row ∈ rows
                      /\ Backend.row_latitude row = Some (Backend.lat g)
                      /\ Backend.row_longitude row = Some (Backend.lon g)
                      /\ g = Backend.to_generator row (Backend.lat g) (Backend.lon g))
              filtered
    /\ (Backend.PolygonAnalytics.solar_count a + Backend.PolygonAnalytics.wind_count a
          <= Backend.PolygonAnalytics.total_generators a)%nat
    /\ (size (Backend.PolygonAnalytics.states a)
          <= Backend.PolygonAnalytics.total_generators a)%nat
    /\ (Forall (fun row => Backend.row_energy_source row = "SUN"
                           \/ Backend.row_energy_source row = "WND") rows ->
        (Backend.PolygonAnalytics.solar_count a + Backend.PolygonAnalytics.wind_count a
           = Backend.PolygonAnalytics.total_generators a)%nat).
Proof.
  unfold Backend.get_polygon_analytics.
  destruct (Backend.polygon_members coords rows) as [filtered|] eqn:Hmem; [|done].
  cbn [mbind result_bind]. intros [= <-].
  unfold Backend.polygon_members in Hmem.
  destruct (Backend.bounding_box coords) as [b|] eqn:Hb; [|done].
  cbn [mbind result_bind] in Hmem.
  exists b, filtered.
  split; [done|]. split; [done|].
  split; [done|]. split; [done|].
  assert (Hinv : Forall (fun g =>
                 Backend.gt (Backend.NumFloat (Backend.capacity_mw g)) (Backend.NumInt 0) = true
                 /\ Backend.in_bounds b (Backend.lat g) (Backend.lon g) = true
                 /\ Backend.point_in_polygon (Backend.lat g) (Backend.lon g) coords = Ok true
                 /\ Backend.truthy (Backend.lat g) = true
                 /\ Backend.truthy (Backend.lon g) = true
                 /\ exists row, row ∈ rows
                      /\ Backend.row_latitude row = Some (Backend.lat g)
                      /\ Backend.row_longitude row = Some (Backend.lon g)
                      /\ g = Backend.to_generator row (Backend.lat g) (Backend.lon g))
              filtered).
  { eapply Forall_impl; [apply (filter_in_polygon_inv _ _ _ Hmem)|].
    intros g [Hg Hp].
    pose proof (proj1 (Forall_forall _ _) (backend_generators_in_bounds_inv b rows) g Hg)
      as (H1 & H2 & H3 & H4 & H5).
    done. }
  split; [done|].
  destruct (backend_source_counts filtered) as [Hcount Hexact].
  cbn [Backend.summarise Backend.PolygonAnalytics.solar_count
       Backend.PolygonAnalytics.wind_count Backend.PolygonAnalytics.total_generators
       Backend.PolygonAnalytics.states].
  split; [done|].
  split.
  { clear. induction filtered as [|g gs IH];
      [cbn [map list_to_set length]; by rewrite size_empty|].
    cbn [map list_to_set length]. rewrite size_union_alt, size_singleton.
    etrans; [|apply le_n_S, IH].
    apply le_n_S, subseteq_size. intros x Hx.
    by apply elem_of_difference in Hx as [? _]. }
  intros Hrows. apply Hexact.
  eapply Forall_impl; [exact Hinv|].
  intros g (_ & _ & _ & _ & _ & row & Hrow & _ & _ & ->).
  cbn [Backend.to_generator Backend.energy_source].
  by apply (proj1 (Forall_forall _ _) Hrows).
Qed.

(** X17, on the eastern triangle with a generator inside it. *)
Lemma polygon_analytics_consistent_witness :
  exists b filtered,
    Backend.bounding_box eastern_triangle = Ok b
    /\ Backend.polygon_members eastern_triangle [inner_row] = Ok filtered
    /\ length filtered = 1%nat.
Proof.
  destruct (polygon_analytics_consistent eastern_triangle [inner_row]
              (Backend.summarise [Backend.to_generator inner_row 51.5%float 0.1%float]))
    as (b & filtered & H1 & H2 & H3 & _).
  { vm_compute. reflexivity. }
  exists b, filtered. split; [done|]. split; [done|]. by rewrite <- H3.
Defined.

(** ** Record mapping, continued *)

(** X18. The enumeration and its codes: [get_by_code] inverts [value], it
    finds a member only for that member's own code, and
    [FuelTypeData.is_renewable] holds of a record exactly when its fuel
    type is the code of one of [all_renewable]; nuclear and other are
    not among them, and a fuel type that is a list or a dict makes the
    property raise [TypeError]. *)
Theorem renewable_source_codes :
  (forall s, RenewableSource.get_by_code (PyStr (RenewableSource.value s)) = Some s)
  /\ (forall code s,
        RenewableSource.get_by_code code = Some s ->
        code = PyStr (RenewableSource.value s))
  /\ (forall x,
        FuelTypeData_is_renewable x =
          (match FuelTypeData.fuel_type x with
           | PyList _ | PyDict _ => Raise TypeError
           | code =>
               Ok (match RenewableSource.get_by_code code with
                   | Some s => bool_decide (s ∈ RenewableSource.all_renewable)
                   | None => false
                   end)
           end))
  /\ (RenewableSource.NUCLEAR ∉ RenewableSource.all_renewable)
  /\ (RenewableSource.OTHER ∉ RenewableSource.all_renewable).
Proof.
  split; [by intros []|]. split; [|split; [|split]].
  - intros code s H. unfold RenewableSource.get_by_code in H.
    apply List.find_some in H as [_ H].
    destruct code; try done. cbn in H. apply String.eqb_eq in H. by rewrite H.
  - intros x. unfold FuelTypeData_is_renewable.
    destruct (FuelTypeData.fuel_type x) as [| | | |code| |]; try done.
    f_equal. unfold RenewableSource.get_by_code.
    destruct (List.find _ RenewableSource.members) as [s|] eqn:Efind.
    + apply List.find_some in Efind as [_ H]. cbn in H.
      apply String.eqb_eq in H. subst code. by destruct s.
    + pose proof (List.find_none _ _ Efind) as Hnone.
      apply not_true_is_false. intros Hex.
      apply existsb_exists in Hex as (s & _ & Hs).
      rewrite Hnone in Hs; [done|]. destruct s; cbn; tauto.
  - intros H. repeat (apply elem_of_cons in H as [H|H]; [done|]).
    by apply elem_of_nil in H.
  - intros H. repeat (apply elem_of_cons in H as [H|H]; [done|]).
    by apply elem_of_nil in H.
Qed.

(** X19. [from_dict] does not invert [to_dict]: the dictionary written
    by [to_dict] uses attribute names where [from_dict] reads the wire
    names.  Of a generation record only the period, the respondent and
    the value come back; of a capacity record only the period, the
    technology and the non-zero coordinates, while the capacities come
    back as 0.0 and the operating year as [None]. *)
Theorem to_dict_from_dict_lossy :
  (forall x,
     FuelTypeData.from_dict (FuelTypeData_to_dict x) =
       Ok {| FuelTypeData.period := FuelTypeData.period x;
             FuelTypeData.respondent := FuelTypeData.respondent x;
             FuelTypeData.respondent_name := PyStr "";
             FuelTypeData.fuel_type := PyStr "";
             FuelTypeData.fuel_type_description := PyStr "";
             FuelTypeData.value := float_or_zero (FuelTypeData.value x);
             FuelTypeData.units := PyStr "megawatthours";
             FuelTypeData.raw_data := FuelTypeData_to_dict x |})
  /\ (forall x,
        GeneratorCapacity.from_dict (GeneratorCapacity_to_dict x) =
          Ok {| GeneratorCapacity.period := GeneratorCapacity.period x;
                GeneratorCapacity.state := PyStr "";
                GeneratorCapacity.state_description := PyStr "";
                GeneratorCapacity.sector := PyStr "";
                GeneratorCapacity.sector_description := PyStr "";
                GeneratorCapacity.entity_id := PyStr "";
                GeneratorCapacity.entity_name := PyStr "";
                GeneratorCapacity.plant_id := PyStr "";
                GeneratorCapacity.plant_name := PyStr "";
                GeneratorCapacity.generator_id := PyStr "";
                GeneratorCapacity.technology := GeneratorCapacity.technology x;
                GeneratorCapacity.energy_source := PyStr "";
                GeneratorCapacity.energy_source_description := PyStr "";
                GeneratorCapacity.prime_mover := PyStr "";
                GeneratorCapacity.nameplate_capacity_mw := PFin 0;
                GeneratorCapacity.net_summer_capacity_mw := PFin 0;
                GeneratorCapacity.net_winter_capacity_mw := PFin 0;
                GeneratorCapacity.status := PyStr "";
                GeneratorCapacity.operating_year := None;
                GeneratorCapacity.latitude := truthy_float (GeneratorCapacity.latitude x);
                GeneratorCapacity.longitude := truthy_float (GeneratorCapacity.longitude x);
                GeneratorCapacity.raw_data := GeneratorCapacity_to_dict x |}).
Proof.
  split.
  - intros x. unfold FuelTypeData.from_dict, float_field, float_or_zero.
    assert (Hv : dict_get (FuelTypeData_to_dict x) "value" (PyInt 0)
                 = PyFloat (FuelTypeData.value x)) by reflexivity.
    rewrite Hv. unfold py_or. cbn [truthy].
    destruct (float_truthy (FuelTypeData.value x)); reflexivity.
  - intros x.
    unfold GeneratorCapacity.from_dict, float_field, optional_year_field,
      optional_float_field, truthy_float.
    assert (H1 : dict_get (GeneratorCapacity_to_dict x) "nameplate-capacity-mw" (PyInt 0)
                 = PyInt 0) by reflexivity.
    assert (H2 : dict_get (GeneratorCapacity_to_dict x) "net-summer-capacity-mw" (PyInt 0)
                 = PyInt 0) by reflexivity.
    assert (H3 : dict_get (GeneratorCapacity_to_dict x) "net-winter-capacity-mw" (PyInt 0)
                 = PyInt 0) by reflexivity.
    assert (H4 : dict_get (GeneratorCapacity_to_dict x) "operating-year-month" PyNone
                 = PyNone) by reflexivity.
    assert (H5 : dict_get (GeneratorCapacity_to_dict x) "latitude" PyNone
                 = py_optional_float (GeneratorCapacity.latitude x)) by reflexivity.
    assert (H6 : dict_get (GeneratorCapacity_to_dict x) "longitude" PyNone
                 = py_optional_float (GeneratorCapacity.longitude x)) by reflexivity.
    assert (H7 : dict_getitem (GeneratorCapacity_to_dict x) "latitude"
                 = Ok (py_optional_float (GeneratorCapacity.latitude x))) by reflexivity.
    assert (H8 : dict_getitem (GeneratorCapacity_to_dict x) "longitude"
                 = Ok (py_optional_float (GeneratorCapacity.longitude x))) by reflexivity.
    rewrite H1, H2, H3, H4, H5, H6, H7, H8.
    destruct (GeneratorCapacity.latitude x) as [la|],
             (GeneratorCapacity.longitude x) as [lo|];
      cbn [py_optional_float truthy py_or py_float mbind result_bind Z.eqb negb];
      repeat match goal with |- context [float_truthy ?f] => destruct (float_truthy f) end;
      reflexivity.
Qed.


Lemma digit_not_space c d : digit_value c = Some d -> is_space c = false.
Proof.
  destruct c as [[] [] [] [] [] [] [] []]; cbn; intros [= <-]; done.
Qed.

Lemma read_sign_digit c d cs :
  digit_value c = Some d -> read_sign (c :: cs) = (false, c :: cs).
Proof.
  destruct c as [[] [] [] [] [] [] [] []]; cbn; intros [= <-]; done.
Qed.

(** X21. The operating year is read from the first four characters of
    ["operating-year-month"]: a string that starts with four digits gives
    the year they spell, whatever follows them, and a missing, [None] or
    empty value gives [None]; but a non-zero number raises [TypeError],
    for a number cannot be sliced, and then no capacity record is built. *)
Theorem operating_year_prefix (data : gmap string pyval) :
  (forall c1 c2 c3 c4 d1 d2 d3 d4 rest,
     data !! "operating-year-month"
       = Some (PyStr (String c1 (String c2 (String c3 (String c4 rest))))) ->
     digit_value c1 = Some d1 -> digit_value c2 = Some d2 ->
     digit_value c3 = Some d3 -> digit_value c4 = Some d4 ->
     optional_year_field data "operating-year-month"
       = Ok (Some (four_digits d1 d2 d3 d4)))
  /\ (falsy_at data "operating-year-month" ->
      optional_year_field data "operating-year-month" = Ok None)
  /\ (forall n, n <> 0 ->
        data !! "operating-year-month" = Some (PyInt n) ->
        optional_year_field data "operating-year-month" = Raise TypeError
        /\ is_ok (GeneratorCapacity.from_dict data) = false).
Proof.
  split; [|split].
  - intros c1 c2 c3 c4 d1 d2 d3 d4 rest Hdata H1 H2 H3 H4.
    unfold optional_year_field, dict_get, dict_getitem. rewrite Hdata.
    cbn [truthy String.eqb negb mbind result_bind py_slice_to String.substring].
    assert (Hsub : String.substring 0 0 rest = "") by (by destruct rest).
    rewrite Hsub. cbn [py_int]. unfold parse_int.
    cbn [list_ascii_of_string]. unfold strip. cbn [lstrip].
    rewrite (digit_not_space _ _ H1). cbn [rev app lstrip].
    rewrite (digit_not_space _ _ H4). cbn [rev app].
    rewrite (read_sign_digit _ _ _ H1).
    cbn [read_digits read_more_digits]. rewrite H1.
    cbn [read_more_digits]. rewrite H2, H3, H4.
    cbn [mbind result_bind]. do 2 f_equal.
    unfold digits_value, four_digits. cbn [foldl]. lia.
  - intros Hfalsy. unfold optional_year_field.
    by rewrite (proj1 (falsy_at_truthy _ _) Hfalsy).
  - intros n Hn Hdata.
    assert (Hyear : optional_year_field data "operating-year-month" = Raise TypeError).
    { unfold optional_year_field, dict_get, dict_getitem. rewrite Hdata.
      cbn [truthy]. by assert (negb (n =? 0) = true) as -> by lia. }
    split; [done|].
    unfold GeneratorCapacity.from_dict. rewrite Hyear.
    destruct (float_field data "nameplate-capacity-mw"); [|done].
    destruct (float_field data "net-summer-capacity-mw"); [|done].
    by destruct (float_field data "net-winter-capacity-mw").
Qed.

(** ** Model conversion *)

Lemma convert_all_ok {T} (from_dict : gmap string pyval -> result T) items models :
  converted from_dict items models -> convert_all from_dict items = Ok models.
Proof.
  induction 1 as [|item model items models Hitem _ IH]; [done|].
  cbn [convert_all]. by rewrite Hitem, IH.
Qed.

Lemma convert_all_bad {T} (from_dict : gmap string pyval -> result T)
    pre models bad post e :
  converted from_dict pre models -> model_from_dict from_dict bad = Raise e ->
  convert_all from_dict (pre ++ bad :: post) = Raise e.
Proof.
  intros Hpre Hbad. induction Hpre as [|item model items models Hitem _ IH].
  - cbn [app convert_all]. by rewrite Hbad.
  - cbn [app convert_all]. by rewrite Hitem, IH.
Qed.

Lemma convert_each_ok {T} (from_dict : gmap string pyval -> result T)
    items models finish :
  converted from_dict items models ->
  convert_each from_dict items finish = (models, finish).
Proof.
  induction 1 as [|item model items models Hitem _ IH]; [done|].
  cbn [convert_each]. by rewrite Hitem, IH.
Qed.

Lemma convert_each_bad {T} (from_dict : gmap string pyval -> result T)
    pre models bad post e finish :
  converted from_dict pre models -> model_from_dict from_dict bad = Raise e ->
  convert_each from_dict (pre ++ bad :: post) finish = (models, Raise e).
Proof.
  intros Hpre Hbad. induction Hpre as [|item model items models Hitem _ IH].
  - cbn [app convert_each]. by rewrite Hbad.
  - cbn [app convert_each]. by rewrite Hitem, IH.
Qed.

Lemma get_all_data_mock_run cfg records q maxr fuel :
  is_ok (sort_part q) = true -> 1 <= max_retries cfg -> 0 < page_size cfg ->
  (forall m, maxr = Some m -> 0 < m) -> (length records < fuel)%nat ->
  exists log,
    get_all_data fuel cfg (mock_transport records) q maxr =
      Some {| yielded := take (expected_count records maxr) records;
              finished := Ok ();
              page_requests := log |}.
Proof.
  intros Hsort Hmr Hps Hcap Hfuel.
  unfold get_all_data. rewrite get_all_data_loop_page_loop.
  destruct (page_loop_mock records (page_size cfg) maxr
              (fun offset =>
                 response ← (get_data cfg (mock_transport records) q
                               (Some (page_size cfg)) offset).1;
                 resp ← py_get response "response" (PyDict ∅);
                 data ← py_get resp "data" (PyList []);
                 Ok (data, true))
              Hps Hcap
              ltac:(intros o _; exists true; split;
                    [by apply get_all_data_page_mock|done])
              (length records) fuel 0 [] []
              Hfuel ltac:(lia) ltac:(lia) Hcap) as [log Hrun].
  exists log. change (Z.of_nat 0) with 0 in Hrun. rewrite Hrun.
  cbn [app drop]. by rewrite Nat.sub_0_r.
Qed.

(** X22. One record that does not convert costs [_fetch_data] the whole
    page, but [_fetch_all_data] only what follows it.  When every record of
    the page converts, [_fetch_data] returns the models in order, with the
    page length as page size (and as total, if the response names none);
    when one does not, it raises that record's exception and returns
    nothing.  Over a source of finitely many records, [_fetch_all_data]
    yields the models of the records before the first that does not
    convert, and only then raises its exception. *)
Theorem conversion_page_or_prefix {T} (from_dict : gmap string pyval -> result T)
    (cfg : EIAConfig) (q : query) (pre post : list pyval) (models : list T) :
  is_ok (sort_part q) = true -> 1 <= max_retries cfg -> 0 < page_size cfg ->
  converted from_dict pre models ->
  (forall limit offset,
     _fetch_data cfg (constant_transport (body_with_data pre)) from_dict q limit offset =
       Ok {| mp_data := models;
             mp_total := PyInt (Z.of_nat (length pre));
             mp_offset := offset;
             mp_page_size := Z.of_nat (length pre);
             mp_request_info := PyDict ∅ |})
  /\ (forall bad e, model_from_dict from_dict bad = Raise e ->
        (forall limit offset,
           _fetch_data cfg (constant_transport (body_with_data (pre ++ bad :: post)))
             from_dict q limit offset = Raise e)
        /\ (forall fuel maxr,
              (length (pre ++ bad :: post) < fuel)%nat ->
              (forall m, maxr = Some m -> Z.of_nat (length pre) < m) ->
              _fetch_all_data fuel cfg (mock_transport (pre ++ bad :: post))
                from_dict q maxr = Some (models, Raise e))).
Proof.
  intros Hsort Hmr Hps Hpre.
  assert (Hget : forall items limit offset,
    (get_data cfg (constant_transport (body_with_data items)) q limit offset).1
      = Ok (body_with_data items)).
  { intros items limit offset. unfold get_data.
    destruct (get_data_params cfg q limit offset) as [params|] eqn:Ep.
    - by rewrite (request_immediate _ _ (body_with_data items)).
    - unfold get_data_params in Ep. by destruct (sort_part q). }
  assert (Hfetch : forall items limit offset,
    _fetch_data cfg (constant_transport (body_with_data items)) from_dict q limit offset =
      models ← convert_all from_dict items;
      Ok {| mp_data := models;
            mp_total := PyInt (Z.of_nat (length items));
            mp_offset := offset;
            mp_page_size := Z.of_nat (length items);
            mp_request_info := PyDict ∅ |}).
  { intros items limit offset.
    assert (H1 : py_get (body_with_data items) "response" (PyDict ∅)
                 = Ok (PyDict {[ "data" := PyList items ]}))
      by (unfold body_with_data, py_get, dict_get; by rewrite lookup_singleton_eq).
    assert (H2 : forall d, py_get (PyDict {[ "data" := PyList items ]}) "data" d
                           = Ok (PyList items))
      by (intros d; unfold py_get, dict_get; by rewrite lookup_singleton_eq).
    assert (H3 : forall d, py_get (PyDict {[ "data" := PyList items ]}) "total" d = Ok d)
      by (intros d; unfold py_get, dict_get; by rewrite lookup_singleton_ne).
    assert (H4 : py_get (body_with_data items) "request" (PyDict ∅) = Ok (PyDict ∅))
      by (unfold body_with_data, py_get, dict_get; by rewrite lookup_singleton_ne).
    unfold _fetch_data. rewrite Hget. cbn [mbind result_bind].
    rewrite H1. cbn [mbind result_bind]. rewrite H2. cbn [mbind result_bind py_len].
    rewrite H3. cbn [mbind result_bind py_iter].
    destruct (convert_all from_dict items) as [ms|]; [|done].
    cbn [mbind result_bind]. by rewrite H4. }
  split.
  - intros limit offset. by rewrite Hfetch, (convert_all_ok _ _ _ Hpre).
  - intros bad e Hbad. split.
    + intros limit offset. by rewrite Hfetch, (convert_all_bad _ _ _ _ _ _ Hpre Hbad).
    + intros fuel maxr Hfuel Hcap. unfold _fetch_all_data.
      destruct (get_all_data_mock_run cfg (pre ++ bad :: post) q maxr fuel
                  Hsort Hmr Hps ltac:(intros m Hm; specialize (Hcap m Hm); lia) Hfuel)
        as [log ->].
      cbn [yielded finished]. f_equal.
      assert (Hk : (length pre < expected_count (pre ++ bad :: post) maxr)%nat).
      { unfold expected_count. destruct maxr as [m|].
        - specialize (Hcap m eq_refl). rewrite length_app. cbn [length]. lia.
        - rewrite length_app. cbn [length]. lia. }
      rewrite take_app_ge by lia.
      destruct (expected_count (pre ++ bad :: post) maxr - length pre)%nat
        as [|k] eqn:Ek; [lia|].
      cbn [take]. by apply convert_each_bad.
Qed.

Lemma conversion_page_or_prefix_witness :
  exists models,
    _fetch_data small_page_config
      (constant_transport
         (body_with_data [PyDict sparse_generation_row; PyDict unparseable_generation_row]))
      FuelTypeData.from_dict example_query None 0 = Raise ValueError
    /\ _fetch_all_data 3 small_page_config
         (mock_transport [PyDict sparse_generation_row; PyDict unparseable_generation_row])
         FuelTypeData.from_dict example_query None = Some (models, Raise ValueError)
    /\ length models = 1%nat.
Proof.
  eexists.
  destruct (conversion_page_or_prefix FuelTypeData.from_dict small_page_config
              example_query [PyDict sparse_generation_row] [] _
              eq_refl ltac:(cbn; lia) ltac:(cbn; lia)
              ltac:(constructor; [reflexivity|constructor])) as [_ H].
  destruct (H (PyDict unparseable_generation_row) ValueError eq_refl) as [H1 H2].
  split; [exact (H1 None 0)|]. split.
  - apply H2; [cbn; lia|done].
  - reflexivity.
Defined.

Lemma request_no_attempts cfg send :
  max_retries cfg <= 0 -> _request cfg send = (Ok PyNone, []).
Proof.
  intros Hmr. unfold _request, py_range, seqZ.
  by replace (Z.to_nat (max_retries cfg)) with 0%nat by lia.
Qed.

(** X23. A client configured with [max_retries] of 0 or less sends
    nothing: [_request] falls out of its loop and returns [None], so
    [get_data] returns [None] without a request, and [get_all_data] and
    [_fetch_data], which call [.get] on that result, fail with
    [AttributeError]. *)
Theorem zero_retries_no_request (cfg : EIAConfig) (tp : transport) (q : query) :
  max_retries cfg <= 0 -> is_ok (sort_part q) = true ->
  (forall length offset, get_data cfg tp q length offset = (Ok PyNone, []))
  /\ (forall fuel maxr,
        get_all_data (S fuel) cfg tp q maxr =
          Some {| yielded := [];
                  finished := Raise AttributeError;
                  page_requests := [(0, page_size cfg)] |})
  /\ (forall T (from_dict : gmap string pyval -> result T) limit offset,
        _fetch_data cfg tp from_dict q limit offset = Raise AttributeError).
Proof.
  intros Hmr Hsort.
  assert (Hget : forall length offset, get_data cfg tp q length offset = (Ok PyNone, [])).
  { intros length offset. unfold get_data.
    destruct (get_data_params cfg q length offset) as [params|] eqn:Ep.
    - by apply request_no_attempts.
    - unfold get_data_params in Ep. by destruct (sort_part q). }
  split; [done|]. split.
  - intros fuel maxr. unfold get_all_data. cbn [get_all_data_loop].
    by rewrite Hget.
  - intros T from_dict limit offset. unfold _fetch_data. by rewrite Hget.
Qed.

Lemma zero_retries_no_request_witness :
  get_data {| api_key := "key"; base_url := "https://api.eia.gov/v2";
              timeout := 30; max_retries := 0; page_size := 5000 |}
    (mock_transport seven_records) example_query None 0 = (Ok PyNone, []).
Proof.
  exact (proj1 (zero_retries_no_request
                  {| api_key := "key"; base_url := "https://api.eia.gov/v2";
                     timeout := 30; max_retries := 0; page_size := 5000 |}
                  (mock_transport seven_records) example_query
                  ltac:(cbn; lia) eq_refl) None 0).
Defined.

(** ** Pagination: the requests of a fetch without a cap *)

(** The shared loop over the pages of the mock source, without a cap.
    With [tested] the page carries the [has_more] of [paginate]; without
    it, none is looked at, as in [get_all_data]. *)
Lemma page_loop_mock_log records (P : nat) (tested : bool) page_at :
  (0 < P)%nat ->
  (forall o : nat,
     page_at (Z.of_nat o) =
       Ok (PyList (mock_page records (Z.of_nat o) (Z.of_nat P)),
           if tested
           then Z.of_nat o + Z.of_nat (length (mock_page records (Z.of_nat o) (Z.of_nat P)))
                <? Z.of_nat (length records)
           else true)) ->
  let J := ((length records - (if tested then 1 else 0)) / P)%nat in
  forall (n fuel j : nat) t ys log,
  (J - j <= n)%nat -> (n < fuel)%nat -> (j <= J)%nat ->
  page_loop fuel page_at (Z.of_nat P) None (Z.of_nat (j * P)) t ys log =
    Some {| yielded := ys ++ drop (j * P) records;
            finished := Ok ();
            page_requests :=
              log ++ map (fun i => (Z.of_nat i * Z.of_nat P, Z.of_nat P))
                         (seq j (J + 1 - j)) |}.
Proof.
  intros HP Hpage J.
  set (total := length records) in *. set (d := (if tested then 1 else 0)%nat) in *.
  assert (Hd : (d <= 1)%nat) by (unfold d; destruct tested; lia).
  assert (HJ1 : (J * P <= total - d)%nat).
  { unfold J. rewrite Nat.mul_comm. apply Nat.Div0.mul_div_le. }
  assert (HJ2 : (total - d < (J + 1) * P)%nat).
  { unfold J. rewrite Nat.mul_comm, Nat.add_1_r. apply Nat.mul_succ_div_gt. lia. }
  induction n as [|n IH]; intros fuel j t ys log Hn Hfuel Hj.
  all: destruct fuel as [|fuel]; [lia|].
  all: cbn [page_loop]; rewrite Hpage.
  all: unfold mock_page; rewrite !Nat2Z.id.
  all: set (o := (j * P)%nat) in *.
  all: assert (Ho : (o <= total - d)%nat) by (unfold o; nia).
  all: assert (Hlen : length (take P (drop o records)) = (P `min` (total - o))%nat)
         by (by rewrite length_take, length_drop).
  all: destruct (take P (drop o records)) as [|r page] eqn:Epage.
  1,3: (* an empty page: the offset is the end of the records *)
    cbn [length] in Hlen;
    assert (HoN : o = total) by lia;
    assert (HjJ : j = J) by (unfold o in *; nia);
    cbn [truthy negb]; unfold stop; do 2 f_equal;
    [ rewrite HoN; unfold total; by rewrite drop_all, app_nil_r
    | replace (J + 1 - j)%nat with 1%nat by lia; cbn [seq map];
      unfold o; by rewrite Nat2Z.inj_mul ].
  all: cbn [truthy negb py_iter py_len].
  all: rewrite (yield_page_uncapped None (or_introl eq_refl)).
  all: rewrite <- Epage in *; clear Epage r page.
  all: rewrite Hlen.
  all: destruct (decide (j = J)) as [HjJ|HjJ]; [|try lia].
  1,2: (* the last page *)
    assert (Hlast : (total - o <= P)%nat \/ (tested = false /\ (total - o < P)%nat))
      by (unfold o, d in *; destruct tested; nia);
    assert (negb (if tested
                  then Z.of_nat o + Z.of_nat (P `min` (total - o)) <? Z.of_nat total
                  else true)
            || (Z.of_nat (P `min` (total - o)) <? Z.of_nat P) = true) as ->
      by (destruct tested;
          [ apply orb_true_iff; left; apply negb_true_iff, Z.ltb_ge; lia
          | apply orb_true_iff; right; apply Z.ltb_lt; lia ]);
    unfold stop; do 2 f_equal;
    [ f_equal; apply take_ge; rewrite length_drop; fold total; unfold d in *;
      destruct tested; lia
    | replace (J + 1 - j)%nat with 1%nat by lia; cbn [seq map];
      unfold o; by rewrite Nat2Z.inj_mul ].
  (* a full page with more to come *)
  assert (Hnext : ((j + 1) * P <= total - d)%nat) by nia.
  assert (negb (if tested
                then Z.of_nat o + Z.of_nat (P `min` (total - o)) <? Z.of_nat total
                else true)
          || (Z.of_nat (P `min` (total - o)) <? Z.of_nat P) = false) as ->.
  { apply orb_false_iff. split.
    - apply negb_false_iff. unfold d in *. destruct tested; [|done].
      apply Z.ltb_lt. unfold o. lia.
    - apply Z.ltb_ge. unfold o. lia. }
  replace (Z.of_nat o + Z.of_nat (P `min` (total - o))) with (Z.of_nat ((j + 1) * P))
    by (unfold o; lia).
  rewrite (IH fuel (j + 1)%nat) by lia.
  do 2 f_equal.
  - rewrite <- app_assoc. f_equal.
    replace ((j + 1) * P)%nat with (o + P)%nat by (unfold o; lia).
    by rewrite <- drop_drop, take_drop.
  - rewrite <- app_assoc. f_equal.
    replace (J + 1 - j)%nat with (S (J + 1 - (j + 1))) by lia.
    cbn [seq map]. unfold o. rewrite Nat2Z.inj_mul, Nat.add_1_r. done.
Qed.

(** X24. Without a cap, against a source of finitely many records served
    in slices, both fetchers yield every record and request consecutive
    pages from offset 0; [paginate], which stops when the source reports
    no more, requests [ceil(n / page_size)] pages (one when there are no
    records), while [get_all_data], which stops only on a short or empty
    page, requests [floor(n / page_size) + 1]: one more request, for an
    empty page, whenever the page size divides a non-zero count. *)
Theorem uncapped_request_log (records : list pyval) (ps : Z) (fuel : nat) :
  0 < ps -> (length records < fuel)%nat ->
  paginate fuel (mock_fetch records) ps None
    = full_run records ps ((length records - 1) / Z.to_nat ps + 1)
  /\ paginate fuel (mock_fetch_typed records) ps None
     = full_run records ps ((length records - 1) / Z.to_nat ps + 1)
  /\ (forall cfg q,
        page_size cfg = ps -> 1 <= max_retries cfg -> is_ok (sort_part q) = true ->
        get_all_data fuel cfg (mock_transport records) q None
          = full_run records ps (length records / Z.to_nat ps + 1)).
Proof.
  intros Hps Hfuel.
  assert (HP : (0 < Z.to_nat ps)%nat) by lia.
  assert (Eps : Z.of_nat (Z.to_nat ps) = ps) by lia.
  assert (Hrun : forall tested page_at,
    (forall o : nat,
       page_at (Z.of_nat o) =
         Ok (PyList (mock_page records (Z.of_nat o) ps),
             if tested : bool
             then Z.of_nat o + Z.of_nat (length (mock_page records (Z.of_nat o) ps))
                  <? Z.of_nat (length records)
             else true)) ->
    page_loop fuel page_at ps None 0 0 [] [] =
      full_run records ps
        ((length records - (if tested then 1 else 0)) / Z.to_nat ps + 1)).
  { intros tested page_at Hpage.
    pose proof (page_loop_mock_log records (Z.to_nat ps) tested page_at HP
                  ltac:(rewrite Eps; exact Hpage)
                  ((length records - (if tested then 1 else 0)) / Z.to_nat ps)
                  fuel 0 0 [] []) as H.
    cbv zeta in H. rewrite Eps in H. cbn [Nat.mul app] in H.
    change (Z.of_nat 0) with 0 in H.
    rewrite drop_0, (Nat.sub_0_r (_ + 1)) in H. unfold full_run, first_pages.
    apply H; [lia| |lia].
    eapply Nat.le_lt_trans; [|exact Hfuel].
    etrans; [apply Nat.Div0.div_le_upper_bound with (q := length records)|done].
    nia. }
  split; [|split].
  - unfold paginate. rewrite paginate_loop_page_loop.
    apply (Hrun true). intros o. apply paginate_page_mock.
  - unfold paginate. rewrite paginate_loop_page_loop.
    apply (Hrun true). intros o. apply paginate_page_mock_typed.
  - intros cfg q Hcfg Hmr Hsort. unfold get_all_data.
    rewrite get_all_data_loop_page_loop, Hcfg.
    rewrite (Hrun false); [by rewrite Nat.sub_0_r|].
    intros o. rewrite <- Hcfg.
    apply get_all_data_page_mock; (done || lia).
Qed.

Lemma uncapped_request_log_witness :
  paginate 5 (mock_fetch (map PyInt [1; 2; 3; 4])) 2 None
    = full_run (map PyInt [1; 2; 3; 4]) 2 2
  /\ paginate 5 (mock_fetch_typed (map PyInt [1; 2; 3; 4])) 2 None
     = full_run (map PyInt [1; 2; 3; 4]) 2 2
  /\ (forall cfg q,
        page_size cfg = 2 -> 1 <= max_retries cfg -> is_ok (sort_part q) = true ->
        get_all_data 5 cfg (mock_transport (map PyInt [1; 2; 3; 4])) q None
          = full_run (map PyInt [1; 2; 3; 4]) 2 3).
Proof.
  apply (uncapped_request_log (map PyInt [1; 2; 3; 4]) 2 5); [lia|cbn; lia].
Defined.

(** ** Configuration and aggregation *)

(** X25. [EIAConfig.from_env] agrees with the dataclass defaults: with
    only the key set it builds the configuration that [EIAConfig(api_key)]
    builds.  It fails when the key is unset or empty, and it never raises
    anything but [ValueError]; the numbers are not validated, so
    ["EIA_MAX_RETRIES=0"] is accepted. *)
Theorem from_env_defaults (env : gmap string string) :
  (forall key,
     env !! "EIA_API_KEY" = Some key -> key <> "" ->
     env !! "EIA_BASE_URL" = None -> env !! "EIA_TIMEOUT" = None ->
     env !! "EIA_MAX_RETRIES" = None -> env !! "EIA_PAGE_SIZE" = None ->
     from_env env = Ok (EIAConfig_default key))
  /\ (env !! "EIA_API_KEY" = None \/ env !! "EIA_API_KEY" = Some "" ->
      from_env env = Raise ValueError)
  /\ (is_ok (from_env env) = false -> from_env env = Raise ValueError)
  /\ (forall key,
        env !! "EIA_API_KEY" = Some key -> key <> "" ->
        env !! "EIA_TIMEOUT" = None -> env !! "EIA_MAX_RETRIES" = Some "0" ->
        env !! "EIA_PAGE_SIZE" = None ->
        exists cfg, from_env env = Ok cfg /\ max_retries cfg = 0).
Proof.
  split; [|split; [|split]].
  - intros key Hkey Hne H1 H2 H3 H4. unfold from_env, getenv.
    rewrite Hkey, H1, H2, H3, H4.
    apply String.eqb_neq in Hne. rewrite Hne. reflexivity.
  - unfold from_env. by intros [-> | ->].
  - unfold from_env. destruct (env !! "EIA_API_KEY") as [key|]; [|done].
    destruct (String.eqb key ""); [done|].
    assert (Hint : forall s, py_int (PyStr s) = Raise ValueError \/ is_ok (py_int (PyStr s)) = true).
    { intros s. cbn [py_int]. destruct (parse_int s); auto. }
    destruct (Hint (getenv env "EIA_TIMEOUT" "30")) as [-> | H1]; [done|].
    destruct (py_int (PyStr (getenv env "EIA_TIMEOUT" "30"))); [|done].
    cbn [mbind result_bind].
    destruct (Hint (getenv env "EIA_MAX_RETRIES" "3")) as [-> | H2]; [done|].
    destruct (py_int (PyStr (getenv env "EIA_MAX_RETRIES" "3"))); [|done].
    cbn [mbind result_bind].
    destruct (Hint (getenv env "EIA_PAGE_SIZE" "5000")) as [-> | H3]; [done|].
    destruct (py_int (PyStr (getenv env "EIA_PAGE_SIZE" "5000"))); done.
  - intros key Hkey Hne H1 H2 H3. unfold from_env, getenv.
    rewrite Hkey, H1, H2, H3.
    apply String.eqb_neq in Hne. rewrite Hne. by eexists.
Qed.

Lemma capacity_total_snoc rows g :
  capacity_total (rows ++ [g]) = (capacity_total rows + row_nameplate_capacity_mw g)%Q.
Proof. unfold capacity_total. by rewrite foldl_app. Qed.

Lemma capacity_entry_snoc rows g :
  capacity_entry (rows ++ [g])
  = Some (default 0%Q (capacity_entry rows) + row_nameplate_capacity_mw g)%Q.
Proof.
  destruct rows as [|r rows]; [done|].
  cbn [app capacity_entry default]. f_equal.
  apply (capacity_total_snoc (r :: rows)).
Qed.

Lemma summary_entry_snoc rows g state key :
  row_energy_source g <> "total" ->
  summary_entry (get_state_renewable_summary (rows ++ [g])) state key
  = if counts_towards state key g
    then Some (default 0%Q (summary_entry (get_state_renewable_summary rows) state key)
               + row_nameplate_capacity_mw g)%Q
    else summary_entry (get_state_renewable_summary rows) state key.
Proof.
  intros Hnt. unfold get_state_renewable_summary. rewrite foldl_app. cbn [foldl].
  set (S := foldl summary_step ∅ rows).
  unfold summary_step, summary_entry, counts_towards.
  destruct (String.eqb (row_state g) state) eqn:Es; cbn [andb].
  - apply String.eqb_eq in Es. subst state.
    rewrite lookup_insert_eq. cbn [mbind option_bind].
    assert (Hinner : forall k, default ∅ (S !! row_state g) !! k
                               = (S !! row_state g) ≫= (fun m => m !! k)).
    { intros k. destruct (S !! row_state g); [done|]. apply lookup_empty. }
    unfold add_capacity.
    destruct (String.eqb key "total") eqn:Et.
    + apply String.eqb_eq in Et. subst key. rewrite orb_true_r.
      rewrite lookup_insert_eq, lookup_insert_ne by done. by rewrite Hinner.
    + apply String.eqb_neq in Et. rewrite orb_false_r.
      rewrite lookup_insert_ne by done.
      destruct (String.eqb (row_energy_source g) key) eqn:Ek.
      * apply String.eqb_eq in Ek. subst key.
        rewrite lookup_insert_eq. by rewrite Hinner.
      * apply String.eqb_neq in Ek. rewrite lookup_insert_ne by done.
        by rewrite Hinner.
  - apply String.eqb_neq in Es. by rewrite lookup_insert_ne.
Qed.

(** X26. The aggregation by state is exact.  When no generator carries
    the energy source ["total"], the entry [summary[state][source]] is the
    sum, in order and from 0, of the capacities of the generators of that
    state and source, [summary[state]["total"]] is the sum over all
    generators of the state, and an entry is absent exactly when no
    generator counts towards it. *)
Theorem state_summary_exact (rows : list capacity_row) (state key : string) :
  Forall (fun g => row_energy_source g <> "total") rows ->
  summary_entry (get_state_renewable_summary rows) state key
  = capacity_entry (List.filter (counts_towards state key) rows).
Proof.
  induction rows as [|g rows IH] using rev_ind; intros Hnt; [done|].
  apply List.Forall_app in Hnt as [Hrows Hg]. inversion Hg as [|? ? Hg' _]; subst.
  rewrite (summary_entry_snoc _ _ _ _ Hg'), List.filter_app, (IH Hrows).
  cbn [List.filter]. destruct (counts_towards state key g).
  - by rewrite capacity_entry_snoc.
  - by rewrite app_nil_r.
Qed.

Lemma state_summary_exact_witness :
  summary_entry (get_state_renewable_summary [sample_row; sample_row]) "TX" "total"
  = capacity_entry (List.filter (counts_towards "TX" "total") [sample_row; sample_row]).
Proof.
  apply (state_summary_exact [sample_row; sample_row] "TX" "total").
  by repeat constructor.
Defined.

(** ** Listing generators *)

(** X27. The two generator listings agree on what a generator is: both
    keep a row only when both coordinates are present and non-zero, and
    build the same record from it.  So the listing within bounds is the
    unrestricted listing (any [min_capacity] of at most 0) narrowed to the
    generators inside the bounds that have positive capacity, and raising
    [min_capacity] only removes generators below it. *)
Theorem listings_agree (rows : list capacity_row) (b : bounds) (lo hi : Q) :
  (lo <= 0)%Q -> (lo <= hi)%Q ->
  generators_in_bounds b rows
    = List.filter (fun g => in_bounds b (lat g) (lon g) && Qgtb (capacity_mw g) 0)
        (get_generators lo rows)
  /\ get_generators hi rows
     = List.filter (fun g => Qle_bool hi (capacity_mw g)) (get_generators lo rows)
  /\ Forall (fun g => ~ (lat g == 0)%Q /\ ~ (lon g == 0)%Q /\ (lo <= capacity_mw g)%Q)
            (get_generators lo rows).
Proof.
  intros Hlo Hhi. unfold generators_in_bounds, get_generators.
  induction rows as [|g rows (IH1 & IH2 & IH3)]; [by repeat split|].
  cbn [omap list_omap].
  destruct (Qle_bool lo (row_nameplate_capacity_mw g)) eqn:Elo.
  - apply Qle_bool_iff in Elo.
    destruct (located g) as [[la lg]|] eqn:Eloc.
    + cbn [List.filter to_generator lat lon capacity_mw].
      split; [|split].
      * destruct (in_bounds b la lg && Qgtb (row_nameplate_capacity_mw g) 0);
          by rewrite IH1.
      * destruct (Qle_bool hi (row_nameplate_capacity_mw g)); by rewrite IH2.
      * constructor; [|done]. cbn [to_generator lat lon capacity_mw].
        unfold located in Eloc.
        destruct (row_latitude g) as [la'|]; [|done].
        destruct (row_longitude g) as [lg'|]; [|done].
        destruct (negb (Qeq_bool la' 0) && negb (Qeq_bool lg' 0)) eqn:Enz; [|done].
        injection Eloc as -> ->.
        apply andb_true_iff in Enz as [Hla Hlg]. apply negb_true_iff in Hla, Hlg.
        split; [intros H0; apply Qeq_bool_iff in H0; congruence|].
        split; [intros H0; apply Qeq_bool_iff in H0; congruence|done].
    + destruct (Qle_bool hi (row_nameplate_capacity_mw g)); done.
  - assert (Hcap : (row_nameplate_capacity_mw g < lo)%Q).
    { apply Qgtb_true. unfold Qgtb. by rewrite Elo. }
    assert (Qle_bool hi (row_nameplate_capacity_mw g) = false) as ->.
    { apply negb_true_iff. change (Qgtb hi (row_nameplate_capacity_mw g) = true).
      apply Qgtb_true. lra. }
    assert (Qgtb (row_nameplate_capacity_mw g) 0 = false) as ->
      by (apply Qgtb_false; lra).
    destruct (located g) as [[la lg]|]; [|done].
    by rewrite andb_false_r.
Qed.

Lemma listings_agree_witness :
  generators_in_bounds
    {| min_lat := 30; max_lat := 40; min_lon := -100; max_lon := -90 |} [sample_row]
  = List.filter
      (fun g => in_bounds {| min_lat := 30; max_lat := 40;
                             min_lon := -100; max_lon := -90 |} (lat g) (lon g)
                && Qgtb (capacity_mw g) 0)
      (get_generators 0 [sample_row]).
Proof.
  exact (proj1 (listings_agree [sample_row]
                  {| min_lat := 30; max_lat := 40; min_lon := -100; max_lon := -90 |}
                  0 10 ltac:(done) ltac:(done))).
Defined.

(** ** Endpoints *)

Lemma lstrip_char_cons c s : lstrip_char c (String c s) = lstrip_char c s.
Proof. cbn [lstrip_char]. by rewrite Ascii.eqb_refl. Qed.

(** X28. What the capacity listings ask of the API.  The query that
    [get_solar_capacity] and [get_wind_capacity] build addresses the
    endpoint ["electricity/operating-generator-capacity/data"] with the
    key, the six capacity columns, one [facets[stateid][]] pair per state,
    the energy source, the status ["OP"] and the clamped length, in this
    order; the result of either function depends on the transport through
    that one request only, and an empty list of states is the same as
    none.  [_build_route] drops empty parts and ignores slashes leading a
    part. *)
Theorem capacity_request (cfg : EIAConfig) (states : option (list string))
    (limit : option Z) (source : string) :
  let q := ElectricityEndpoint.operating_capacity_query
             states (Some [source]) (Some ["OP"]) None in
  let endpoint := "electricity/operating-generator-capacity/data" in
  get_data_endpoint (route q) = endpoint
  /\ _build_url cfg (get_data_endpoint (route q))
     = base_url cfg +:+ "/electricity/operating-generator-capacity/data"
  /\ get_data_params cfg q limit 0
     = Ok (capacity_request_pairs cfg source (default [] states) limit)
  /\ (forall tp tp' : transport,
        tp endpoint (capacity_request_pairs cfg "SUN" (default [] states) limit)
        = tp' endpoint (capacity_request_pairs cfg "SUN" (default [] states) limit) ->
        RenewableEndpoint.get_solar_capacity cfg tp states limit
        = RenewableEndpoint.get_solar_capacity cfg tp' states limit)
  /\ (forall tp tp' : transport,
        tp endpoint (capacity_request_pairs cfg "WND" (default [] states) limit)
        = tp' endpoint (capacity_request_pairs cfg "WND" (default [] states) limit) ->
        RenewableEndpoint.get_wind_capacity cfg tp states limit
        = RenewableEndpoint.get_wind_capacity cfg tp' states limit)
  /\ (forall tp,
        RenewableEndpoint.get_solar_capacity cfg tp (Some []) limit
        = RenewableEndpoint.get_solar_capacity cfg tp None limit
        /\ RenewableEndpoint.get_wind_capacity cfg tp (Some []) limit
           = RenewableEndpoint.get_wind_capacity cfg tp None limit)
  /\ (forall base parts,
        _build_route base ("" :: parts) = _build_route base parts
        /\ forall p, p <> "" ->
             _build_route base (("/" +:+ p) :: parts) = _build_route base (p :: parts)).
Proof.
  intros q endpoint.
  assert (Hparams : forall source,
    get_data_params cfg
      (ElectricityEndpoint.operating_capacity_query states (Some [source]) (Some ["OP"]) None)
      limit 0
    = Ok (capacity_request_pairs cfg source (default [] states) limit)).
  { clear. intros source. unfold get_data_params, capacity_request_pairs.
    change (sort_part _) with (Ok (@nil (string * qvalue))).
    cbn [mbind result_bind app]. change (offset_part 0) with (@nil (string * qvalue)).
    rewrite app_nil_r.
    destruct states as [[|s states]|]; [reflexivity| |reflexivity].
    unfold facets_part, period_part, option_pair.
    cbn [ElectricityEndpoint.operating_capacity_query facets frequency start end_
         ElectricityEndpoint.facet ElectricityEndpoint.facets_or_none app default
         flat_map str_truthy].
    unfold facet_pairs, Datatypes.id. cbn [flat_map fst snd].
    rewrite <- ?app_assoc. reflexivity. }
  assert (Hsame : forall source (tp tp' : transport),
    tp endpoint (capacity_request_pairs cfg source (default [] states) limit)
    = tp' endpoint (capacity_request_pairs cfg source (default [] states) limit) ->
    ElectricityEndpoint.get_operating_capacity cfg tp
      states (Some [source]) (Some ["OP"]) None limit 0
    = ElectricityEndpoint.get_operating_capacity cfg tp'
        states (Some [source]) (Some ["OP"]) None limit 0).
  { intros src tp tp' Htp.
    unfold ElectricityEndpoint.get_operating_capacity, _fetch_data, get_data.
    rewrite Hparams.
    change (get_data_endpoint (route _)) with endpoint.
    by rewrite Htp. }
  split; [reflexivity|]. split; [reflexivity|]. split; [apply Hparams|].
  split; [apply Hsame|]. split; [apply Hsame|]. split.
  - intros tp. split; reflexivity.
  - intros base parts. split.
    + unfold _build_route. cbn [List.filter].
      by destruct (negb (String.eqb base "")).
    + intros p Hp. unfold _build_route. cbn [List.filter].
      change ("/" +:+ p) with (String "/" p).
      assert (negb (String.eqb p "") = true) as ->
        by (by apply negb_true_iff, String.eqb_neq).
      assert (negb (String.eqb (String "/" p) "") = true) as -> by done.
      destruct (negb (String.eqb base "")); cbn [map];
        unfold strip_char; by rewrite lstrip_char_cons.
Qed.

(** ** What the fetchers yield, against any source *)

Lemma yield_page_prefix maxr : forall items t new t' ret,
  yield_page maxr t items = (new, t', ret) -> new `prefix_of` items.
Proof.
  induction items as [|record rest IH]; intros t new t' ret; cbn [yield_page].
  - by intros [= <- <- <-].
  - destruct (cap_reached maxr (t + 1)).
    + intros [= <- <- <-]. by exists rest.
    + destruct (yield_page maxr (t + 1) rest) as [[ys t1] r1] eqn:E.
      intros [= <- <- <-]. apply prefix_cons. by eapply IH.
Qed.

Lemma page_loop_served page_at ps maxr : forall fuel o t ys log run,
  page_loop fuel page_at ps maxr o t ys log = Some run ->
  exists new offs,
    yielded run = ys ++ new
    /\ page_requests run = log ++ map (fun o => (o, ps)) (o :: offs)
    /\ new `prefix_of` flat_map (fun o => served (page_at o)) (o :: offs)
    /\ (maxr = None \/ maxr = Some 0 ->
        new = flat_map (fun o => served (page_at o)) (o :: offs)).
Proof.
  induction fuel as [|fuel IH]; intros o t ys log run; [done|].
  cbn [page_loop].
  assert (Hstop : forall new r,
    new `prefix_of` served (page_at o) ->
    (maxr = None \/ maxr = Some 0 -> new = served (page_at o)) ->
    stop (ys ++ new) r (log ++ [(o, ps)]) = Some run ->
    exists new offs,
      yielded run = ys ++ new
      /\ page_requests run = log ++ map (fun o => (o, ps)) (o :: offs)
      /\ new `prefix_of` flat_map (fun o => served (page_at o)) (o :: offs)
      /\ (maxr = None \/ maxr = Some 0 ->
          new = flat_map (fun o => served (page_at o)) (o :: offs))).
  { intros new r Hpre Heq [= <-]. exists new, []. cbn [flat_map map].
    rewrite app_nil_r. done. }
  assert (Hstop0 : forall r,
    served (page_at o) = [] ->
    stop ys r (log ++ [(o, ps)]) = Some run ->
    exists new offs,
      yielded run = ys ++ new
      /\ page_requests run = log ++ map (fun o => (o, ps)) (o :: offs)
      /\ new `prefix_of` flat_map (fun o => served (page_at o)) (o :: offs)
      /\ (maxr = None \/ maxr = Some 0 ->
          new = flat_map (fun o => served (page_at o)) (o :: offs))).
  { intros r Hnone Hr. apply (Hstop [] r); [by rewrite Hnone|by rewrite Hnone|].
    by rewrite app_nil_r. }
  destruct (page_at o) as [[data more]|e] eqn:Epage; [|by apply Hstop0].
  destruct (truthy data) eqn:Etruthy; cbn [negb];
    [|apply Hstop0; cbn [served]; by rewrite Etruthy].
  destruct (py_iter data) as [items|e] eqn:Eiter;
    [|apply Hstop0; cbn [served]; by rewrite Etruthy, Eiter].
  assert (Hserved : served (Ok (data, more)) = items)
    by (cbn [served]; by rewrite Etruthy, Eiter).
  rewrite Hserved in Hstop.
  rewrite (py_iter_len _ _ Eiter).
  destruct (yield_page maxr t items) as [[new t'] returned] eqn:Ey.
  destruct (yield_page_count _ _ _ _ _ _ Ey) as [Ht' Hall].
  pose proof (yield_page_prefix _ _ _ _ _ _ Ey) as Hpre.
  assert (Hnocap : maxr = None \/ maxr = Some 0 -> new = items).
  { intros Hm. rewrite (yield_page_uncapped maxr Hm) in Ey. by injection Ey as <- _ _. }
  destruct returned; [by apply Hstop|].
  destruct (negb more || (Z.of_nat (length items) <? ps)); [by apply Hstop|].
  specialize (Hall eq_refl). subst new.
  intros Hrun. destruct (IH _ _ _ _ _ Hrun) as (new' & offs' & Hy & Hp & Hs & Hc).
  exists (items ++ new'), ((o + Z.of_nat (length items)) :: offs').
  split; [by rewrite Hy, app_assoc|].
  split; [by rewrite Hp, <- app_assoc|].
  cbn [flat_map] in *. rewrite Epage, Hserved. split.
  - by apply prefix_app.
  - intros Hm. by rewrite <- (Hc Hm).
Qed.

Lemma flat_map_map_fst_served (page_at : Z -> result (pyval * bool)) (ps : Z) offsets :
  flat_map (fun request : Z * Z => served (page_at request.1))
    (map (fun o => (o, ps)) offsets)
  = flat_map (fun o => served (page_at o)) offsets.
Proof. induction offsets as [|o offsets IH]; [done|]. cbn. by rewrite IH. Qed.

(** X29. The fetchers yield the records they were served, and nothing
    else: in every run, against any source, the records yielded are the
    items of the pages requested, page after page in the order of the
    requests, cut short only by a cap.  Without a cap (or with
    [max_records=0]) they are exactly those items, however the run
    ended. *)
Theorem yielded_is_served (run : fetch_run (Z * Z)) (maxr : option Z) :
  (forall fuel fetch_func ps,
     paginate fuel fetch_func ps maxr = Some run ->
     yielded run `prefix_of` served_by (paginate_page_at fetch_func ps) run
     /\ (maxr = None \/ maxr = Some 0 ->
         yielded run = served_by (paginate_page_at fetch_func ps) run))
  /\ (forall fuel cfg tp q,
        get_all_data fuel cfg tp q maxr = Some run ->
        yielded run `prefix_of` served_by (get_all_data_page_at cfg tp q) run
        /\ (maxr = None \/ maxr = Some 0 ->
            yielded run = served_by (get_all_data_page_at cfg tp q) run)).
Proof.
  split.
  - intros fuel f ps Hrun. unfold paginate in Hrun.
    rewrite paginate_loop_page_loop in Hrun.
    apply page_loop_served in Hrun as (new & offs & Hy & Hp & Hpre & Heq).
    unfold served_by. rewrite Hy, Hp. cbn [app].
    rewrite flat_map_map_fst_served. done.
  - intros fuel cfg tp q Hrun. unfold get_all_data in Hrun.
    rewrite get_all_data_loop_page_loop in Hrun.
    apply page_loop_served in Hrun as (new & offs & Hy & Hp & Hpre & Heq).
    unfold served_by. rewrite Hy, Hp. cbn [app].
    rewrite flat_map_map_fst_served. done.
Qed.
